(** * Rules-resolution and game-state engine of the AI-narrated TRPG client

    A shallow embedding of the engine code of the repository
    (components/CharacterCreationScreen.tsx, components/GamePlayScreen.tsx,
    utils/dice.ts and types.ts) together with the properties its
    specification states about it.

    Modelling conventions.
    - A JavaScript [number] that holds integral data (attributes, skill
      percentages, dice results, SAN/HP/MP) is a [Z].  All values the engine
      handles stay far below 2^53, where doubles are exact.  The results of
      the real divisions [x / 5], [x / 2] and of the products with
      [Math.random()] or [0.2] are rationals ([Q]); [Math.floor] and
      [Math.ceil] are [Qfloor] and [Qceiling].  The products are exact
      here and rounded in doubles: the ceiling of [n * 0.2] and the range
      of [Math.floor(Math.random() * n)] are the same in both (checked on
      primitive floats in [ceil_fifth_in_doubles] and
      [draws_stay_in_range_in_doubles]), while a draw within 2^-53 of a
      multiple of [1 / n] may fall on the next value in doubles.
    - A JavaScript string is a [string] holding its UTF-8 encoding.  The
      digits [\d] and the characters [d], [+] and [-] of the dice notation
      are single bytes; white space ([\s], [trim], [parseInt]) is the whole
      set of JavaScript, recognised on its encodings of one to three bytes.
    - A JavaScript object used as a dictionary is a [gmap] with string keys.
    - [Math.random()] reads the next element of a stream of rationals in
      the interval [0,1).
    - A dice request shown in the roll dialog ([setDiceRollRequest] with an
      [onComplete] callback) is a node of the tree [Dice]: the notation that
      is rolled and the continuation that receives the result.
    - The chat log ([messages]) is presentation only and is not modelled;
      what is sent to the narrator service is kept in the list [sent]. *)

From Stdlib Require Import ZArith QArith Qround String Ascii List Lia Bool.
From Stdlib Require Import Floats Uint63.
From stdpp Require Import gmap strings list pretty.

Open Scope Z_scope.

(** ** JavaScript numbers *)

Module Js.

(** [n <= a / b] where [/] is the real division of JavaScript. *)
Definition le_quot (n a : Z) (b : Q) : bool :=
  Qle_bool (inject_Z n) (inject_Z a / b).

Definition Math_floor (q : Q) : Z := Qfloor q.
Definition Math_ceil (q : Q) : Z := Qceiling q.
Definition Math_max (a b : Z) : Z := Z.max a b.

(** The product [n * 0.2] as the doubles compute it, for an integer [n]
    from 1 on: whether [Math.ceil] of it is [k], that is, whether it lies
    above [k - 1] and not above [k].  The rational model of
    [Math.ceil(n * 0.2)] is checked against it below. *)
Definition double_ceil_fifth_is (n k : Z) : bool :=
  let x := PrimFloat.mul (PrimFloat.of_uint63 (Uint63.of_Z n))
             0x1.999999999999ap-3%float in
  PrimFloat.ltb (PrimFloat.of_uint63 (Uint63.of_Z (k - 1))) x
  && PrimFloat.leb x (PrimFloat.of_uint63 (Uint63.of_Z k)).

(** The largest double below 1 times [n], as the doubles compute it:
    whether it stays below [n].  Rounding is monotone, so then
    [Math.floor(Math.random() * n)] is below [n] for every draw. *)
Definition double_top_draw_below (n : Z) : bool :=
  PrimFloat.ltb
    (PrimFloat.mul 0x1.fffffffffffffp-1%float
       (PrimFloat.of_uint63 (Uint63.of_Z n)))
    (PrimFloat.of_uint63 (Uint63.of_Z n)).

(** The random source: a stream of draws, each in [0,1). *)
Definition Rng : Type := nat -> Q.

Definition rng_ok (g : Rng) : Prop := forall n, (0 <= g n)%Q /\ (g n < 1)%Q.

(** Computations that consume draws. *)
Definition Rand (A : Type) : Type := Rng -> A * Rng.

Definition ret {A} (a : A) : Rand A := fun g => (a, g).

Definition bind {A B} (m : Rand A) (f : A -> Rand B) : Rand B :=
  fun g => let (a, g') := m g in f a g'.

Definition Math_random : Rand Q :=
  fun g => (g 0%nat, fun n => g (S n)).

Definition const_rng (u : Q) : Rng := fun _ => u.

End Js.

Notation "'draw' x := m 'in' k" := (Js.bind m (fun x => k))
  (at level 10, x name, m at level 100, k at level 200).

(** ** types.ts *)

Inductive StatName := STR | CON | POW | DEX | APP | SIZ | INT | EDU.

Record Stats := mkStats {
  st_STR : Z; st_CON : Z; st_POW : Z; st_DEX : Z;
  st_APP : Z; st_SIZ : Z; st_INT : Z; st_EDU : Z
}.

Definition get_stat (s : Stats) (n : StatName) : Z :=
  match n with
  | STR => st_STR s | CON => st_CON s | POW => st_POW s | DEX => st_DEX s
  | APP => st_APP s | SIZ => st_SIZ s | INT => st_INT s | EDU => st_EDU s
  end.

(** [{ ...stats, [statName]: value }] *)
Definition set_stat (s : Stats) (n : StatName) (v : Z) : Stats :=
  match n with
  | STR => mkStats v (st_CON s) (st_POW s) (st_DEX s) (st_APP s) (st_SIZ s) (st_INT s) (st_EDU s)
  | CON => mkStats (st_STR s) v (st_POW s) (st_DEX s) (st_APP s) (st_SIZ s) (st_INT s) (st_EDU s)
  | POW => mkStats (st_STR s) (st_CON s) v (st_DEX s) (st_APP s) (st_SIZ s) (st_INT s) (st_EDU s)
  | DEX => mkStats (st_STR s) (st_CON s) (st_POW s) v (st_APP s) (st_SIZ s) (st_INT s) (st_EDU s)
  | APP => mkStats (st_STR s) (st_CON s) (st_POW s) (st_DEX s) v (st_SIZ s) (st_INT s) (st_EDU s)
  | SIZ => mkStats (st_STR s) (st_CON s) (st_POW s) (st_DEX s) (st_APP s) v (st_INT s) (st_EDU s)
  | INT => mkStats (st_STR s) (st_CON s) (st_POW s) (st_DEX s) (st_APP s) (st_SIZ s) v (st_EDU s)
  | EDU => mkStats (st_STR s) (st_CON s) (st_POW s) (st_DEX s) (st_APP s) (st_SIZ s) (st_INT s) v
  end.

(** [hp], [mp] and [san]: [{ current, max }]. *)
Record Resource := mkResource { current : Z; max : Z }.

Record CustomSkill := mkCustomSkill {
  cs_id : string; cs_name : string; baseValue : Z; category : string
}.

Inductive MadnessType := temporary | indefinite.

(** [madness]: the type is [null] when the character is sane; [duration]
    is an optional field. *)
Record Madness := mkMadness {
  m_type : option MadnessType;
  m_description : string;
  duration : option Z
}.

(** The fields of [Character] the engine reads or writes.  The portrait,
    the description and the equipment lists are carried along unchanged by
    every operation below and are left out. *)
Record Character := mkCharacter {
  id : string;
  name : string;
  occupation : string;
  stats : Stats;
  hp : Resource;
  mp : Resource;
  san : Resource;
  skills : gmap string Z;
  customOccupationalSkills : list string;
  customSkills : list CustomSkill;
  madness : option Madness
}.

(** Record updates, [{ ...c, field: v }]. *)
Definition with_san (c : Character) (r : Resource) : Character :=
  mkCharacter (id c) (name c) (occupation c) (stats c) (hp c) (mp c) r
    (skills c) (customOccupationalSkills c) (customSkills c) (madness c).

Definition with_madness (c : Character) (m : option Madness) : Character :=
  mkCharacter (id c) (name c) (occupation c) (stats c) (hp c) (mp c) (san c)
    (skills c) (customOccupationalSkills c) (customSkills c) m.

Definition with_skills (c : Character) (sk : gmap string Z) : Character :=
  mkCharacter (id c) (name c) (occupation c) (stats c) (hp c) (mp c) (san c)
    sk (customOccupationalSkills c) (customSkills c) (madness c).

(** [characters.find(c => c.id === characterId)] *)
Definition find_character (cs : list Character) (characterId : string)
  : option Character :=
  List.find (fun c => String.eqb (id c) characterId) cs.

(** ** Strings *)

Module Str.

Definition is_digit (c : ascii) : bool :=
  (48 <=? nat_of_ascii c)%nat && (nat_of_ascii c <=? 57)%nat.

(** The white space of one byte: tab, line feed, vertical tab, form
    feed, carriage return and space. *)
Definition is_space (c : ascii) : bool :=
  ((9 <=? nat_of_ascii c)%nat && (nat_of_ascii c <=? 13)%nat)
  || (nat_of_ascii c =? 32)%nat.

Definition byte_is (c : ascii) (n : nat) : bool := (nat_of_ascii c =? n)%nat.

(** The third byte of U+2000 to U+200A, U+2028, U+2029 and U+202F, after
    E2 80. *)
Definition is_general_space_tail (c : ascii) : bool :=
  ((128 <=? nat_of_ascii c)%nat && (nat_of_ascii c <=? 138)%nat)
  || byte_is c 168 || byte_is c 169 || byte_is c 175.

(** The number of bytes of the white-space character a string starts
    with, 0 when it starts with none.  White space is what [\s], [trim]
    and [parseInt] take for it: the six characters of one byte, U+00A0
    (C2 A0), U+1680 (E1 9A 80), U+2000 to U+200A, U+2028, U+2029 and
    U+202F (E2 80 ..), U+205F (E2 81 9F), U+3000 (E3 80 80) and U+FEFF
    (EF BB BF). *)
Definition space_width (s : string) : nat :=
  match s with
  | EmptyString => 0
  | String a r =>
      if is_space a then 1
      else
        match r with
        | String b r' =>
            if byte_is a 194 && byte_is b 160 then 2
            else
              match r' with
              | String c _ =>
                  if (byte_is a 225 && byte_is b 154 && byte_is c 128)
                     || (byte_is a 226 && byte_is b 128 && is_general_space_tail c)
                     || (byte_is a 226 && byte_is b 129 && byte_is c 159)
                     || (byte_is a 227 && byte_is b 128 && byte_is c 128)
                     || (byte_is a 239 && byte_is b 187 && byte_is c 191)
                  then 3 else 0
              | EmptyString => 0
              end
        | EmptyString => 0
        end
  end%nat.

(** [toLowerCase] on the letters of one byte.  The other letters the
    code changes stay outside of ASCII or become [k] or [i]; the dice
    pattern reads none of them. *)
Definition lower (c : ascii) : ascii :=
  if (65 <=? nat_of_ascii c)%nat && (nat_of_ascii c <=? 90)%nat
  then ascii_of_nat (nat_of_ascii c + 32) else c.

Fixpoint toLowerCase (s : string) : string :=
  match s with
  | EmptyString => EmptyString
  | String c r => String (lower c) (toLowerCase r)
  end.

(** [s.replace(/\s+/g, '')]; [skip] counts the bytes still to pass of a
    white-space character that began before [s]. *)
Fixpoint remove_spaces_from (skip : nat) (s : string) : string :=
  match s with
  | EmptyString => EmptyString
  | String c r =>
      match skip with
      | S k => remove_spaces_from k r
      | O =>
          match space_width s with
          | O => String c (remove_spaces_from 0 r)
          | S k => remove_spaces_from k r
          end
      end
  end.

Definition remove_spaces (s : string) : string := remove_spaces_from 0 s.

Fixpoint trimStart_from (skip : nat) (s : string) : string :=
  match s with
  | EmptyString => EmptyString
  | String c r =>
      match skip with
      | S k => trimStart_from k r
      | O =>
          match space_width s with
          | O => s
          | S k => trimStart_from k r
          end
      end
  end.

Definition trimStart (s : string) : string := trimStart_from 0 s.

(** The string holds white space only. *)
Fixpoint all_space_from (skip : nat) (s : string) : bool :=
  match s with
  | EmptyString => true
  | String c r =>
      match skip with
      | S k => all_space_from k r
      | O =>
          match space_width s with
          | O => false
          | S k => all_space_from k r
          end
      end
  end.

(** [trimEnd] cuts where white space only is left. *)
Fixpoint trimEnd (s : string) : string :=
  match s with
  | EmptyString => EmptyString
  | String c r => if all_space_from 0 s then EmptyString else String c (trimEnd r)
  end.

Definition trim (s : string) : string := trimEnd (trimStart s).

Fixpoint all_digits (s : string) : bool :=
  match s with
  | EmptyString => true
  | String c r => is_digit c && all_digits r
  end.

(** The longest prefix of digits, [\d*] taken greedily, and what follows. *)
Fixpoint span_digits (s : string) : string * string :=
  match s with
  | EmptyString => (EmptyString, EmptyString)
  | String c r =>
      if is_digit c
      then let (d, rest) := span_digits r in (String c d, rest)
      else (EmptyString, s)
  end.

Definition digit_value (c : ascii) : Z := Z.of_nat (nat_of_ascii c) - 48.

Fixpoint digits_value (acc : Z) (s : string) : Z :=
  match s with
  | EmptyString => acc
  | String c r => digits_value (10 * acc + digit_value c) r
  end.

(** [parseInt(s, 10)]: leading white space is skipped, one sign is
    accepted, the digits that follow are read and the rest is ignored;
    [None] is [NaN], the result when no digit is found. *)
Definition parseInt (s : string) : option Z :=
  let body (t : string) : option Z :=
    let (d, _) := span_digits t in
    match d with
    | EmptyString => None
    | _ => Some (digits_value 0 d)
    end in
  match trimStart s with
  | String "-" t => option_map Z.opp (body t)
  | String "+" t => body t
  | t => body t
  end.

(** [s.split(sep)] for a one-character separator. *)
Fixpoint split (sep : ascii) (s : string) : list string :=
  match s with
  | EmptyString => [EmptyString]
  | String c r =>
      if Ascii.eqb c sep then EmptyString :: split sep r
      else match split sep r with
           | [] => [String c EmptyString]
           | p :: ps => String c p :: ps
           end
  end.

End Str.

(** ** utils/dice.ts *)

Module DiceUtil.
Import Js.

(** [Math.floor(Math.random() * sides) + 1] *)
Definition rollDie (sides : Z) : Rand Z :=
  draw u := Math_random in
  ret (Math_floor (u * inject_Z sides) + 1).

(** The loop [for (let i = 0; i < n; i++) total += rollDie(sides)],
    by recursion on the number of iterations left. *)
Fixpoint roll_loop (n : nat) (sides : Z) (total : Z) : Rand Z :=
  match n with
  | O => ret total
  | S n' => draw r := rollDie sides in roll_loop n' sides (total + r)
  end.

Definition rollDice (count sides : Z) : Rand Z :=
  roll_loop (Z.to_nat count) sides 0.

(** One attempt of [/(\d+)?d(\d+)([+-]\d+)?/] at the start of [s]; the
    three capture groups.  [(\d+)?] is greedy and giving digits back
    cannot help, as the next character would be a digit and not [d]. *)
Definition match_here (s : string)
  : option (option string * string * option string) :=
  let (g1, r1) := Str.span_digits s in
  match r1 with
  | String "d" r2 =>
      let (g2, r3) := Str.span_digits r2 in
      match g2 with
      | EmptyString => None
      | _ =>
          let g3 :=
            match r3 with
            | String c r4 =>
                if Ascii.eqb c "+" || Ascii.eqb c "-"
                then match fst (Str.span_digits r4) with
                     | EmptyString => None
                     | m => Some (String c m)
                     end
                else None
            | EmptyString => None
            end in
          Some (match g1 with EmptyString => None | _ => Some g1 end, g2, g3)
      end
  | _ => None
  end.

(** [sanitized.match(re)]: the leftmost position where an attempt
    succeeds. *)
Fixpoint regex_match (s : string)
  : option (option string * string * option string) :=
  match match_here s with
  | Some m => Some m
  | None =>
      match s with
      | EmptyString => None
      | String _ r => regex_match r
      end
  end.

Definition int_of (s : string) : Z := default 0 (Str.parseInt s).

Definition parseAndRoll (notation : string) : Rand Z :=
  let sanitized := Str.remove_spaces (Str.toLowerCase notation) in
  match regex_match sanitized with
  | None => ret 0
  | Some (m1, m2, m3) =>
      let numDice := match m1 with Some d => int_of d | None => 1 end in
      let numSides := int_of m2 in
      let modifier := match m3 with Some m => int_of m | None => 0 end in
      draw total := roll_loop (Z.to_nat numDice) numSides 0 in
      ret (total + modifier)
  end.

End DiceUtil.

(** ** components/GamePlayScreen.tsx: data *)

Module GamePlay.
Import Js.

(** Symptom tables. *)
Definition TEMPORARY_MADNESS_SYMPTOMS : list string :=
  [ "恐怖で震えが止まらない（全ての行動に-20のペナルティ）";
    "パニック状態となり、その場から逃げ出そうとする";
    "恐怖のあまり失神し、1d10ラウンドの間行動不能";
    "ヒステリック状態となり、大声で叫び続ける";
    "硬直状態となり、1d6ラウンドの間身動きが取れない";
    "記憶が混乱し、直前の出来事を忘れてしまう";
    "幻覚を見始め、存在しないものに反応する";
    "極度の疑心暗鬼となり、仲間を信用できなくなる" ]%string.

Definition INDEFINITE_MADNESS_SYMPTOMS : list string :=
  [ "恐怖症：特定の対象に対する極度の恐怖（技能判定-30）";
    "強迫観念：特定の行動を繰り返さずにはいられない";
    "妄想症：現実と妄想の区別がつかなくなる";
    "健忘症：重要な記憶の一部を失う";
    "人格解離：別の人格が現れることがある";
    "躁鬱状態：極端な気分の変動に悩まされる";
    "被害妄想：常に誰かに狙われていると感じる";
    "幻聴・幻覚：存在しない声や映像を知覚する" ]%string.

(** [arr[Math.floor(Math.random() * arr.length)]]; an index outside the
    array reads [undefined], which the stream of draws in [0,1) never
    produces and which is the empty string here. *)
Definition pick (arr : list string) : Rand string :=
  draw u := Math_random in
  ret (nth (Z.to_nat (Math_floor (u * inject_Z (Z.of_nat (length arr)))))
           arr EmptyString).

Definition no_madness : Madness := mkMadness None EmptyString None.

(** [checkForMadness]: the threshold of indefinite madness is a fifth of
    the SAN maximum, rounded up, and is tested first. *)
Definition checkForMadness (character : Character) (sanLoss : Z)
  : Rand Madness :=
  let indefiniteMadnessThreshold :=
    Math_ceil (inject_Z (max (san character)) * 0.2) in
  if sanLoss >=? indefiniteMadnessThreshold then
    draw symptom := pick INDEFINITE_MADNESS_SYMPTOMS in
    ret (mkMadness (Some indefinite) symptom None)
  else if sanLoss >=? 5 then
    draw symptom := pick TEMPORARY_MADNESS_SYMPTOMS in
    draw u := Math_random in
    let duration := Math_floor (u * 6) + 1 in
    ret (mkMadness (Some temporary) symptom (Some duration))
  else ret no_madness.

(** What the narrator service may answer ([KeeperResponse]). *)
Inductive RecoveryType := rec_temporary | rec_indefinite | rec_both.

Record MadnessRecovery := mkMadnessRecovery {
  mr_characterId : string; mr_reason : string; mr_type : RecoveryType
}.

Record SanityCheck := mkSanityCheck {
  sc_roll : string; sc_reason : string; sc_targetAll : bool
}.

(** The field [multiplier] of a stat check as it arrives from the
    narrator: absent, [null] (the schema of the answer declares the field
    nullable and the answer is not checked) or a number. *)
Inductive Multiplier := mult_undefined | mult_null | mult_number (m : Z).

Record StatCheck := mkStatCheck {
  stc_stat : StatName; stc_multiplier : Multiplier; stc_reason : string
}.

Record DiceRollRequired := mkDiceRollRequired {
  dr_roll : string; dr_reason : string
}.

Record KeeperResponse := mkKeeperResponse {
  k_description : string;
  sanityCheck : option SanityCheck;
  skillCheck : option string;
  statCheck : option StatCheck;
  diceRollRequired : option DiceRollRequired;
  madnessRecovery : option MadnessRecovery;
  suggestedActions : list string;
  gameOver : bool;
  gameClear : bool
}.

(** The check result handed to [sendPlayerAction]. *)
Record RollResult := mkRollResult {
  characterName : string;
  rr_skill : string;
  rr_value : Z;
  rr_result : string;
  rr_dice : Z
}.

(** One call of [sendPlayerAction]: the text, the party as the caller
    sees it and the optional check result. *)
Record Request := mkRequest {
  actionText : string;
  party : list Character;
  rollResult : option RollResult
}.

(** [lastFailedSkillCheck] *)
Record FailedCheck := mkFailedCheck {
  fc_characterId : string;
  fc_skill : string;
  fc_value : Z;
  fc_dice : Z;
  fc_result : string
}.

(** The state of the screen.  [chatSession] tells whether the session
    handle is set; [sent] lists the requests made to the narrator, oldest
    first; [gameOverCalled] and [gameClearCalled] record the calls of
    [onGameOver] and [onGameClear]. *)
Record State := mkState {
  characters : list Character;
  isLoading : bool;
  pendingAction : option KeeperResponse;
  lastFailedSkillCheck : option FailedCheck;
  chatSession : bool;
  sent : list Request;
  gameOverCalled : bool;
  gameClearCalled : bool
}.

Definition set_characters (s : State) (cs : list Character) : State :=
  mkState cs (isLoading s) (pendingAction s) (lastFailedSkillCheck s)
    (chatSession s) (sent s) (gameOverCalled s) (gameClearCalled s).

Definition set_isLoading (s : State) (b : bool) : State :=
  mkState (characters s) b (pendingAction s) (lastFailedSkillCheck s)
    (chatSession s) (sent s) (gameOverCalled s) (gameClearCalled s).

Definition set_pendingAction (s : State) (p : option KeeperResponse) : State :=
  mkState (characters s) (isLoading s) p (lastFailedSkillCheck s)
    (chatSession s) (sent s) (gameOverCalled s) (gameClearCalled s).

Definition set_lastFailedSkillCheck (s : State) (f : option FailedCheck) : State :=
  mkState (characters s) (isLoading s) (pendingAction s) f
    (chatSession s) (sent s) (gameOverCalled s) (gameClearCalled s).

Definition onGameOver (s : State) : State :=
  mkState (characters s) (isLoading s) (pendingAction s) (lastFailedSkillCheck s)
    (chatSession s) (sent s) true (gameClearCalled s).

Definition onGameClear (s : State) : State :=
  mkState (characters s) (isLoading s) (pendingAction s) (lastFailedSkillCheck s)
    (chatSession s) (sent s) (gameOverCalled s) true.

(** [sendPlayerAction(chatSession, actionText, characters, rollResult)];
    the answer arrives later and is handled by [processKeeperResponse]. *)
Definition sendPlayerAction (s : State) (r : Request) : State :=
  mkState (characters s) (isLoading s) (pendingAction s) (lastFailedSkillCheck s)
    (chatSession s) (sent s ++ [r]) (gameOverCalled s) (gameClearCalled s).

(** The roll dialog: [Roll notation reason onComplete] opens it for
    [notation] and passes the result to [onComplete]. *)
Inductive Dice (A : Type) : Type :=
| Ret (a : A)
| Roll (notation reason : string) (onComplete : Z -> Dice A).

Arguments Ret {A} a.
Arguments Roll {A} notation reason onComplete.

(** The dialog evaluates its notation with [parseAndRoll] when it opens.
    [run] plays a tree against the random source and returns, with the
    result, the notations that were evaluated and their values, in
    order. *)
Fixpoint run {A} (d : Dice A) : Rand (A * list (string * Z)) :=
  match d with
  | Ret a => ret (a, [])
  | Roll notation _ onComplete =>
      draw v := DiceUtil.parseAndRoll notation in
      draw r := run (onComplete v) in
      ret (fst r, (notation, v) :: snd r)
  end.

(** The same with the results of the dialog given, for statements about
    every possible result; [None] when the answers run out. *)
Fixpoint answer {A} (d : Dice A) (vs : list Z) : option (A * list string) :=
  match d with
  | Ret a => Some (a, [])
  | Roll notation _ onComplete =>
      match vs with
      | [] => None
      | v :: vs' =>
          match answer (onComplete v) vs' with
          | Some (a, ns) => Some (a, notation :: ns)
          | None => None
          end
      end
  end.

(** ** components/GamePlayScreen.tsx: state updates *)

Definition updateCharacterState (charId : string)
    (updates : Character -> Character) (prev : list Character)
  : list Character :=
  map (fun c => if String.eqb (id c) charId then updates c else c) prev.

(** The function [decrementMadnessDuration] maps over the party: one
    round passes for a character in temporary madness. *)
Definition tick (character : Character) : Character :=
  match madness character with
  | Some m =>
      match m_type m, duration m with
      | Some temporary, Some d =>
          if d >? 0 then
            let newDuration := d - 1 in
            if newDuration <=? 0
            then with_madness character (Some no_madness)
            else with_madness character
                   (Some (mkMadness (m_type m) (m_description m) (Some newDuration)))
          else character
      | _, _ => character
      end
  | None => character
  end.

Definition decrementMadnessDuration (prev : list Character) : list Character :=
  map tick prev.

Definition has_madness (c : Character) : bool :=
  match madness c with
  | Some m => match m_type m with Some _ => true | None => false end
  | None => false
  end.

Definition shouldRecover (type : RecoveryType) (c : Character) : bool :=
  match type, madness c with
  | rec_both, _ => true
  | rec_temporary, Some (mkMadness (Some temporary) _ _) => true
  | rec_indefinite, Some (mkMadness (Some indefinite) _ _) => true
  | _, _ => false
  end.

Definition recover (mr : MadnessRecovery) (prev : list Character)
  : list Character :=
  match find_character prev (mr_characterId mr) with
  | Some character =>
      if has_madness character && shouldRecover (mr_type mr) character
      then map (fun c => if String.eqb (id c) (mr_characterId mr)
                         then with_madness c (Some no_madness) else c) prev
      else prev
  | None => prev
  end.

Definition processKeeperResponse (response : KeeperResponse) (s : State)
  : State :=
  let s1 := match madnessRecovery response with
            | Some mr => set_characters s (recover mr (characters s))
            | None => s
            end in
  if gameClear response then
    set_pendingAction (set_isLoading (onGameClear s1) false) None
  else if gameOver response then
    set_pendingAction (set_isLoading (onGameOver s1) false) None
  else
    set_isLoading (set_pendingAction s1 (Some response)) false.

(** [skill.replace(/[〈〉]/g, '')] on the UTF-8 encoding: the two
    brackets are the byte sequences E3 80 88 and E3 80 89. *)
Fixpoint remove_brackets (s : string) : string :=
  match s with
  | EmptyString => EmptyString
  | String a r =>
      match r with
      | String b (String c r') =>
          if (nat_of_ascii a =? 227)%nat && (nat_of_ascii b =? 128)%nat
             && ((nat_of_ascii c =? 136)%nat || (nat_of_ascii c =? 137)%nat)
          then remove_brackets r'
          else String a (remove_brackets r)
      | _ => String a (remove_brackets r)
      end
  end.

(** ** Skill checks, stat checks and push-rolls *)

(** The tier of a skill check, as [handleSkillCheck] computes it. *)
Definition skillCheck_result (diceRoll skillValue : Z) : string :=
  if diceRoll <=? 1 then "クリティカル (01)"
  else if le_quot diceRoll skillValue 5 then "イクストリーム成功"
  else if le_quot diceRoll skillValue 2 then "ハード成功"
  else if diceRoll <=? skillValue then "レギュラー成功"
  else if diceRoll >=? 100 then "ファンブル (00)"
  else if (diceRoll >=? 96) && (skillValue <? 50) then "ファンブル"
  else "失敗".

(** The tier of a stat check, as [handleStatCheck] computes it. *)
Definition statCheck_result (diceRoll targetValue : Z) : string :=
  if diceRoll <=? 1 then "クリティカル (01)"
  else if le_quot diceRoll targetValue 5 then "イクストリーム成功"
  else if le_quot diceRoll targetValue 2 then "ハード成功"
  else if diceRoll <=? targetValue then "レギュラー成功"
  else if diceRoll >=? 100 then "ファンブル (00)"
  else if (diceRoll >=? 96) && (targetValue <? 50) then "ファンブル"
  else "失敗".

(** The tier of a push-roll, as [handlePushRoll] computes it. *)
Definition pushRoll_result (diceRoll value : Z) : string :=
  if diceRoll <=? 1 then "クリティカル (01)"
  else if le_quot diceRoll value 5 then "イクストリーム成功"
  else if le_quot diceRoll value 2 then "ハード成功"
  else if diceRoll <=? value then "レギュラー成功"
  else if diceRoll >=? 100 then "ファンブル (00)"
  else if (diceRoll >=? 96) && (value <? 50) then "ファンブル"
  else "失敗".

Definition isSuccess (result : string) : bool :=
  negb (String.eqb result "失敗") && negb (String.eqb result "ファンブル")
  && negb (String.eqb result "ファンブル (00)").

(** The callback of the roll dialog opened by [handleSkillCheck]; [s] is
    the state the handler was called in and [s'] the state after its own
    updates. *)
Definition skillCheck_onComplete (s s' : State) (character : Character)
    (characterId cleanedSkill : string) (skillValue diceRoll : Z) : State :=
  let result := skillCheck_result diceRoll skillValue in
  if isSuccess result then
    if chatSession s then
      sendPlayerAction (set_isLoading s' true)
        (mkRequest (name character +:+ "が〈" +:+ cleanedSkill +:+ "〉の技能判定を行った。")
           (characters s)
           (Some (mkRollResult (name character) cleanedSkill skillValue result diceRoll)))
    else s'
  else
    set_lastFailedSkillCheck s'
      (Some (mkFailedCheck characterId cleanedSkill skillValue diceRoll result)).

(** [handleSkillCheck]; [None] is the [TypeError] raised when no character
    has the given id. *)
Definition handleSkillCheck (s : State) (skill characterId : string)
  : option (Dice State) :=
  let s' := set_characters
              (set_lastFailedSkillCheck (set_pendingAction s None) None)
              (decrementMadnessDuration (characters s)) in
  match find_character (characters s) characterId with
  | None => None
  | Some character =>
      let cleanedSkill := remove_brackets skill in
      let skillValue := default 0 (skills character !! cleanedSkill) in
      Some (Roll "1d100" ("技能判定: 〈" +:+ cleanedSkill +:+ "〉")
              (fun diceRoll =>
                 Ret (skillCheck_onComplete s s' character characterId
                        cleanedSkill skillValue diceRoll)))
  end.

Definition stat_label (n : StatName) : string :=
  match n with
  | STR => "STR" | CON => "CON" | POW => "POW" | DEX => "DEX"
  | APP => "APP" | SIZ => "SIZ" | INT => "INT" | EDU => "EDU"
  end.

Definition statCheck_onComplete (s s' : State) (character : Character)
    (characterId checkName reason : string) (targetValue diceRoll : Z) : State :=
  let result := statCheck_result diceRoll targetValue in
  if isSuccess result then
    if chatSession s then
      sendPlayerAction (set_isLoading s' true)
        (mkRequest (name character +:+ "が「" +:+ reason +:+ "」のため能力値判定("
                      +:+ checkName +:+ ")を行った。")
           (characters s)
           (Some (mkRollResult (name character) checkName targetValue result diceRoll)))
    else s'
  else
    set_lastFailedSkillCheck s'
      (Some (mkFailedCheck characterId checkName targetValue diceRoll result)).

(** The parameter [multiplier: number = 5] as the body sees it: the
    default replaces [undefined] and nothing else; [None] is [null]. *)
Definition multiplier_param (multiplier : Multiplier) : option Z :=
  match multiplier with
  | mult_undefined => Some 5
  | mult_null => None
  | mult_number m => Some m
  end.

(** [statValue * multiplier]; [null] counts as 0 in a product. *)
Definition times_multiplier (statValue : Z) (multiplier : option Z) : Z :=
  match multiplier with
  | Some m => statValue * m
  | None => 0
  end.

(** The multiplier in a template string. *)
Definition multiplier_text (multiplier : option Z) : string :=
  match multiplier with
  | Some m => pretty m
  | None => "null"
  end.

(** [handleStatCheck]; [None] is the [TypeError] raised when no character
    has the given id. *)
Definition handleStatCheck (s : State) (stat : StatName)
    (multiplier : Multiplier) (reason characterId : string)
  : option (Dice State) :=
  let multiplier := multiplier_param multiplier in
  let s' := set_characters
              (set_lastFailedSkillCheck (set_pendingAction s None) None)
              (decrementMadnessDuration (characters s)) in
  match find_character (characters s) characterId with
  | None => None
  | Some character =>
      let statValue := get_stat (stats character) stat in
      let targetValue := times_multiplier statValue multiplier in
      let checkName := stat_label stat +:+ "×" +:+ multiplier_text multiplier in
      Some (Roll "1d100" ("能力値判定: " +:+ reason)
              (fun diceRoll =>
                 Ret (statCheck_onComplete s s' character characterId
                        checkName reason targetValue diceRoll)))
  end.

(** The multiplier the button of an offered stat check shows:
    [statCheck.multiplier || 5]. *)
Definition shownMultiplier (multiplier : Multiplier) : Z :=
  match multiplier with
  | mult_number m => if m =? 0 then 5 else m
  | _ => 5
  end.

(** The push-roll offer is on screen exactly when this holds. *)
Definition pushOffered (s : State) : bool :=
  match lastFailedSkillCheck s with
  | Some _ => negb (isLoading s)
  | None => false
  end.

Definition handleDeclinePushRoll (s : State) : option State :=
  match lastFailedSkillCheck s with
  | None => Some s
  | Some f =>
      if negb (chatSession s) then Some s else
      match find_character (characters s) (fc_characterId f) with
      | None => None
      | Some character =>
          let s' := set_pendingAction
                      (set_isLoading (set_lastFailedSkillCheck s None) true) None in
          Some (sendPlayerAction s'
                  (mkRequest (name character +:+ "が〈" +:+ fc_skill f
                                +:+ "〉の技能判定に失敗し、プッシュは行わないことにした。")
                     (characters s)
                     (Some (mkRollResult (name character) (fc_skill f)
                              (fc_value f) (fc_result f) (fc_dice f)))))
      end
  end.

Definition pushRoll_onComplete (s s' : State) (character : Character)
    (skill : string) (value diceRoll : Z) : State :=
  let result := pushRoll_result diceRoll value in
  sendPlayerAction s'
    (mkRequest (name character +:+ "はリスクを覚悟で〈" +:+ skill
                  +:+ "〉を再度試みた（プッシュ・ロール）。")
       (characters s)
       (Some (mkRollResult (name character) skill value result diceRoll))).

Definition handlePushRoll (s : State) : option (Dice State) :=
  match lastFailedSkillCheck s with
  | None => Some (Ret s)
  | Some f =>
      if negb (chatSession s) then Some (Ret s) else
      match find_character (characters s) (fc_characterId f) with
      | None => None
      | Some character =>
          let s' := set_isLoading
                      (set_lastFailedSkillCheck
                         (set_characters s (decrementMadnessDuration (characters s)))
                         None) true in
          Some (Roll "1d100" ("プッシュ・ロール: 〈" +:+ fc_skill f +:+ "〉")
                  (fun diceRoll =>
                     Ret (pushRoll_onComplete s s' character (fc_skill f)
                            (fc_value f) diceRoll)))
      end
  end.

(** ** Sanity checks *)

(** [/^\d+$/.test(notation.trim())] *)
Definition isFixedValue (notation : string) : bool :=
  let trimmed := Str.trim notation in
  match trimmed with
  | EmptyString => false
  | _ => Str.all_digits trimmed
  end.

(** A fixed value is returned as it is; [-1] asks for a roll. *)
Definition parseFixedOrRoll (notation : string) : Z :=
  if isFixedValue notation then
    let trimmed := Str.trim notation in
    match Str.parseInt trimmed with
    | Some result => result
    | None => 0
    end
  else -1.

Definition handleSystemAction (s s' : State) (actionText : string) : State :=
  if chatSession s then
    sendPlayerAction
      (set_pendingAction (set_isLoading (set_lastFailedSkillCheck s' None) true) None)
      (mkRequest actionText (characters s) None)
  else s'.

(** The update of one character after a sanity loss: the new SAN, and the
    new madness when one sets in. *)
Definition apply_san_result (newSan : Z) (madnessResult : Madness)
    (c : Character) : Character :=
  with_madness
    (with_san c (mkResource newSan (max (san c))))
    (match m_type madnessResult with
     | Some t => Some (mkMadness (Some t) (m_description madnessResult)
                         (duration madnessResult))
     | None => madness c
     end).

Definition is_some {A} (o : option A) : bool :=
  match o with Some _ => true | None => false end.

(** The [forEach] of [processAllCharactersSanCheck] over the results. *)
Fixpoint process_results (results : list (Character * Z * bool))
    (successLoss failureLoss : Z) (cs : list Character)
    (anyMadness : bool) (gameOverCharacter : option Character)
  : Rand (list Character * bool * option Character) :=
  match results with
  | [] => ret (cs, anyMadness, gameOverCharacter)
  | (character, sanRoll, isSuccess) :: rest =>
      let currentSan := current (san character) in
      let actualLoss := if isSuccess : bool then successLoss else failureLoss in
      let newSan := Math_max 0 (currentSan - actualLoss) in
      draw madnessResult :=
        (if actualLoss >? 0 then checkForMadness character actualLoss
         else ret no_madness) in
      let anyMadness' := is_some (m_type madnessResult) || anyMadness in
      let cs' := updateCharacterState (id character)
                   (apply_san_result newSan madnessResult) cs in
      let gameOverCharacter' :=
        if (newSan <=? 0) && negb (is_some gameOverCharacter)
        then Some character else gameOverCharacter in
      process_results rest successLoss failureLoss cs' anyMadness' gameOverCharacter'
  end.

Definition processAllCharactersSanCheck (s s' : State)
    (results : list (Character * Z * bool)) (successLoss failureLoss : Z)
    (reason : string) : Rand State :=
  draw r := process_results results successLoss failureLoss (characters s')
              false None in
  let '(cs, anyMadness, gameOverCharacter) := r in
  let s1 := set_characters s' cs in
  match gameOverCharacter with
  | Some _ => ret (set_pendingAction (set_isLoading (onGameOver s1) false) None)
  | None =>
      ret (handleSystemAction s s1
             ("全員が「" +:+ reason +:+ "」による正気度チェックを行った。"
              +:+ (if anyMadness then "一部のキャラクターに狂気が発症。" else "")))
  end.

(** The shared 1d100 decides success for each member of the party. *)
Definition san_results (cs : list Character) (sanCheckRoll : Z)
  : list (Character * Z * bool) :=
  map (fun character =>
         (character, sanCheckRoll, sanCheckRoll <=? current (san character))) cs.

(** The callback of the first roll of a party-wide check. *)
Definition sanCheckAll_onComplete (s s' : State) (roll reason : string)
    (firstRoll : Z) : Dice (Rand State) :=
  let sanCheckRoll := firstRoll in
  let rollParts := Str.split "/" roll in
  match rollParts with
  | [successRoll; failureRoll] =>
      let results := san_results (characters s) sanCheckRoll in
      let hasSuccess := existsb (fun r => snd r) results in
      let hasFailure := existsb (fun r => negb (snd r)) results in
      if hasSuccess && hasFailure then
        let successFixed := parseFixedOrRoll successRoll in
        if successFixed >=? 0 then
          let failureFixed := parseFixedOrRoll failureRoll in
          if failureFixed >=? 0 then
            Ret (processAllCharactersSanCheck s s' results successFixed failureFixed reason)
          else
            Roll failureRoll ("失敗時のSAN損失: " +:+ reason) (fun failureLoss =>
              Ret (processAllCharactersSanCheck s s' results successFixed failureLoss reason))
        else
          Roll successRoll ("成功時のSAN損失: " +:+ reason) (fun successLoss =>
            let failureFixed := parseFixedOrRoll failureRoll in
            if failureFixed >=? 0 then
              Ret (processAllCharactersSanCheck s s' results successLoss failureFixed reason)
            else
              Roll failureRoll ("失敗時のSAN損失: " +:+ reason) (fun failureLoss =>
                Ret (processAllCharactersSanCheck s s' results successLoss failureLoss reason)))
      else if hasSuccess then
        let successFixed := parseFixedOrRoll successRoll in
        if successFixed >=? 0 then
          Ret (processAllCharactersSanCheck s s' results successFixed 0 reason)
        else
          Roll successRoll ("成功時のSAN損失: " +:+ reason) (fun successLoss =>
            Ret (processAllCharactersSanCheck s s' results successLoss 0 reason))
      else
        let failureFixed := parseFixedOrRoll failureRoll in
        if failureFixed >=? 0 then
          Ret (processAllCharactersSanCheck s s' results 0 failureFixed reason)
        else
          Roll failureRoll ("失敗時のSAN損失: " +:+ reason) (fun failureLoss =>
            Ret (processAllCharactersSanCheck s s' results 0 failureLoss reason))
  | _ =>
      let rollFixed := parseFixedOrRoll roll in
      if rollFixed >=? 0 then
        Ret (processAllCharactersSanCheck s s'
               (san_results (characters s) sanCheckRoll) rollFixed rollFixed reason)
      else
        Roll roll ("SAN損失: " +:+ reason) (fun sanLoss =>
          Ret (processAllCharactersSanCheck s s'
                 (san_results (characters s) sanCheckRoll) sanLoss sanLoss reason))
  end.

(** What both callbacks of a single character's check do once the loss is
    known, be it fixed or rolled. *)
Definition sanLoss_known (s s' : State) (character : Character)
    (characterId reason : string) (sanRoll currentSan : Z) (isSuccess : bool)
    (sanLoss : Z) : Rand State :=
  let newSan := Math_max 0 (current (san character) - sanLoss) in
  let resultText : string := if isSuccess then "成功" else "失敗" in
  draw madnessResult := checkForMadness character sanLoss in
  let s1 := set_characters s'
              (updateCharacterState characterId
                 (apply_san_result newSan madnessResult) (characters s')) in
  if newSan <=? 0 then
    ret (set_pendingAction (set_isLoading (onGameOver s1) false) None)
  else
    ret (handleSystemAction s s1
           (name character +:+ "が「" +:+ reason
            +:+ "」による正気度チェックを実行した。判定：" +:+ pretty sanRoll
            +:+ "（目標値：" +:+ pretty currentSan +:+ "）→" +:+ resultText
            +:+ "。SAN損失：" +:+ pretty sanLoss +:+ "。"
            +:+ (match m_type madnessResult with
                 | Some t =>
                     (match t with
                      | temporary => "一時的狂気"
                      | indefinite => "不定の狂気"
                      end) +:+ "「" +:+ m_description madnessResult +:+ "」が発症。"
                 | None => "狂気は発症せず。"
                 end))).

Definition sanCheck_onComplete (s s' : State) (character : Character)
    (characterId roll reason : string) (currentSan sanRoll : Z)
  : Dice (Rand State) :=
  let isSuccess := sanRoll <=? currentSan in
  let rollParts := Str.split "/" roll in
  let sanLossRoll :=
    match rollParts with
    | [p0; p1] => if isSuccess then p0 else p1
    | _ => roll
    end in
  let fixedSanLoss := parseFixedOrRoll sanLossRoll in
  if fixedSanLoss >=? 0 then
    Ret (sanLoss_known s s' character characterId reason sanRoll currentSan
           isSuccess fixedSanLoss)
  else
    Roll sanLossRoll ("SAN損失: " +:+ reason +:+ " (" +:+ name character +:+ ")")
      (fun sanLoss =>
         Ret (sanLoss_known s s' character characterId reason sanRoll currentSan
                isSuccess sanLoss)).

(** [handleSanityCheck]; the id ["all"] asks for a party-wide check. *)
Definition handleSanityCheck (s : State) (roll reason characterId : string)
  : option (Dice (Rand State)) :=
  let s' := set_characters (set_lastFailedSkillCheck s None)
              (decrementMadnessDuration (characters s)) in
  if String.eqb characterId "all" then
    Some (Roll "1d100" ("全員の正気度チェック: " +:+ reason)
            (sanCheckAll_onComplete s s' roll reason))
  else
    match find_character (characters s) characterId with
    | None => None
    | Some character =>
        let currentSan := current (san character) in
        Some (Roll "1d100"
                ("SANチェック: " +:+ reason +:+ " (" +:+ name character +:+ ")")
                (sanCheck_onComplete s s' character characterId roll reason
                   currentSan))
    end.

Definition handleGenericDiceRoll (s : State) (roll reason : string)
  : Dice State :=
  let s' := set_characters (set_lastFailedSkillCheck s None)
              (decrementMadnessDuration (characters s)) in
  Roll roll reason (fun result =>
    Ret (handleSystemAction s s'
           (reason +:+ " の結果、" +:+ pretty result +:+ " が出た。"))).

(** A tree whose leaves still draw from the random source, played to the
    end. *)
Definition run_rand {A} (d : Dice (Rand A)) : Rand (A * list (string * Z)) :=
  draw r := run d in
  draw a := fst r in
  ret (a, snd r).

End GamePlay.

(** ** components/CharacterCreationScreen.tsx *)

Module Creation.
Import Js.

(** Points of one skill: occupation points and interest points. *)
Record SkillAllocation := mkAlloc { occ : Z; int : Z }.

Inductive AllocType := t_occ | t_int.

(** [{ ...a, [type]: value }] *)
Definition set_alloc (a : SkillAllocation) (type : AllocType) (value : Z)
  : SkillAllocation :=
  match type with
  | t_occ => mkAlloc value (int a)
  | t_int => mkAlloc (occ a) value
  end.

(** The state of the screen the handlers below use: the roster and the
    allocation table, indexed by character id and then by skill name. *)
Record Screen := mkScreen {
  characters : list Character;
  activeCharacterId : option string;
  allocations : gmap string (gmap string SkillAllocation)
}.

Definition createNewCharacter (newId : string) : Character :=
  let defaultRawStats := mkStats 10 10 10 10 10 10 10 10 in
  mkCharacter newId "無名の探索者" "" defaultRawStats
    (mkResource 10 10) (mkResource 10 10) (mkResource 50 50)
    ∅ [] [] (Some (mkMadness None "" (Some 0))).

Definition calculateDamageBonus (str siz : Z) : string :=
  let sum := str + siz in
  if sum <=? 12 then "-1D6"
  else if sum <=? 16 then "-1D4"
  else if sum <=? 24 then "+0"
  else if sum <=? 32 then "+1D4"
  else if sum <=? 40 then "+1D6"
  else if sum <=? 56 then "+2D6"
  else if sum <=? 72 then "+3D6"
  else "+4D6".

Definition getStatRollNotation (statName : StatName) : string :=
  match statName with
  | SIZ | INT => "2d6+6"
  | EDU => "3d6+3"
  | STR | CON | POW | DEX | APP => "3d6"
  end.

(** [setCharacters(prev => prev.map(c => c.id === id ? { ...c, ...updates(c) } : c))] *)
Definition updateCharacter (idv : string) (newCharData : Character -> Character)
    (prev : list Character) : list Character :=
  map (fun c => if String.eqb (id c) idv then newCharData c else c) prev.

Definition with_characters (s : Screen) (cs : list Character) : Screen :=
  mkScreen cs (activeCharacterId s) (allocations s).

(** The value [StatInput] passes to [onUpdate] when the field loses the
    focus: what is not a number or is below 1 becomes 1, what is above 99
    becomes 99. *)
Definition handleBlur (displayValue : string) : Z :=
  let numericValue :=
    match Str.parseInt displayValue with
    | Some n => if n <? 1 then 1 else n
    | None => 1
    end in
  if numericValue >? 99 then 99 else numericValue.

Section Constants.

(** The tables of [constants.ts]: the base value of the standard
    skills, the skills whose base value is computed from the
    attributes, and the names of all standard skills. *)
Variable INITIAL_SKILLS : gmap string Z.
Variable DYNAMIC_BASE_SKILLS : gmap string (Stats -> Z).
Variable ALL_SKILLS : list string.

Definition getBaseSkillValue (skillName : string) (stats : Stats)
    (customSkills : list CustomSkill) : Z :=
  match DYNAMIC_BASE_SKILLS !! skillName with
  | Some dynamicCalc => dynamicCalc stats
  | None =>
      match List.find (fun skill => String.eqb (cs_name skill) skillName)
              customSkills with
      | Some customSkill => baseValue customSkill
      | None => default 0 (INITIAL_SKILLS !! skillName)
      end
  end.

Definition allSkillNames (char : Character) : list string :=
  ALL_SKILLS ++ map cs_name (customSkills char).

(** [allocations[id]?.[skillName] || { occ: 0, int: 0 }] *)
Definition alloc_or_zero (allocations : gmap string (gmap string SkillAllocation))
    (idv skillName : string) : SkillAllocation :=
  match allocations !! idv with
  | Some charAllocs => default (mkAlloc 0 0) (charAllocs !! skillName)
  | None => mkAlloc 0 0
  end.

Definition addNewCharacter (s : Screen) (newId : string) : Screen :=
  let newChar := createNewCharacter newId in
  let newAllocs :=
    fold_left (fun (m : gmap string SkillAllocation) skill =>
                 <[skill := mkAlloc 0 0]> m) ALL_SKILLS ∅ in
  mkScreen (characters s ++ [newChar]) (Some (id newChar))
    (<[id newChar := newAllocs]> (allocations s)).

(** The update [handleStatUpdate] applies to the character. *)
Definition statUpdate (allocs : gmap string (gmap string SkillAllocation))
    (idv : string) (statName : StatName) (value : Z) (char : Character)
  : Character :=
  let newStats := set_stat (stats char) statName value in
  let newHP := Math_ceil (inject_Z (st_CON newStats + st_SIZ newStats) / 2) in
  let newMP := st_POW newStats in
  let newSAN := st_POW newStats * 5 in
  let newSkills :=
    match statName with
    | DEX | EDU =>
        fold_left (fun (newSkills : gmap string Z) skillName =>
                     let base := getBaseSkillValue skillName newStats
                                   (customSkills char) in
                     let alloc := alloc_or_zero allocs idv skillName in
                     <[skillName := base + occ alloc + int alloc]> newSkills)
          (allSkillNames char) (skills char)
    | _ => skills char
    end in
  mkCharacter (id char) (name char) (occupation char) newStats
    (mkResource newHP newHP) (mkResource newMP newMP)
    (mkResource (if current (san char) >? newSAN then newSAN
                 else current (san char)) newSAN)
    newSkills (customOccupationalSkills char) (customSkills char)
    (madness char).

Definition handleStatUpdate (s : Screen) (idv : string) (statName : StatName)
    (value : Z) : Screen :=
  with_characters s
    (updateCharacter idv (statUpdate (allocations s) idv statName value)
       (characters s)).

Definition find_active (s : Screen) : option Character :=
  match activeCharacterId s with
  | Some a => find_character (characters s) a
  | None => None
  end.

Definition handleStatRollRequest (s : Screen) (statName : StatName)
  : Rand Screen :=
  match find_active s with
  | None => ret s
  | Some activeCharacter =>
      let notation := getStatRollNotation statName in
      draw result := DiceUtil.parseAndRoll notation in
      ret (handleStatUpdate s (id activeCharacter) statName result)
  end.

(** The rolls of [handleRollAllStats], in the order of the keys of
    [stats]. *)
Fixpoint roll_stats (names : list StatName) (newStats : Stats) : Rand Stats :=
  match names with
  | [] => ret newStats
  | statName :: rest =>
      draw v := DiceUtil.parseAndRoll (getStatRollNotation statName) in
      roll_stats rest (set_stat newStats statName v)
  end.

Definition stat_keys : list StatName := [STR; CON; POW; DEX; APP; SIZ; INT; EDU].

Definition rollAllUpdate (allocs : gmap string (gmap string SkillAllocation))
    (newStats : Stats) (char : Character) : Character :=
  let newHP := Math_ceil (inject_Z (st_CON newStats + st_SIZ newStats) / 2) in
  let newMP := st_POW newStats in
  let newSAN := st_POW newStats * 5 in
  let newSkills :=
    fold_left (fun (newSkills : gmap string Z) skillName =>
                 let base := getBaseSkillValue skillName newStats
                               (customSkills char) in
                 let alloc := alloc_or_zero allocs (id char) skillName in
                 let total := base + occ alloc + int alloc in
                 <[skillName := if total >? 99 then 99 else total]> newSkills)
      (allSkillNames char) (skills char) in
  mkCharacter (id char) (name char) (occupation char) newStats
    (mkResource newHP newHP) (mkResource newMP newMP)
    (mkResource (if current (san char) >? newSAN then newSAN
                 else current (san char)) newSAN)
    newSkills (customOccupationalSkills char) (customSkills char)
    (madness char).

(** [handleRollAllStats]: the updater rolls for the character it is
    applied to, so each character with the active id draws its own
    eight rolls. *)
Fixpoint rollAll_map (allocs : gmap string (gmap string SkillAllocation))
    (a : string) (prev : list Character) : Rand (list Character) :=
  match prev with
  | [] => ret []
  | c :: rest =>
      if String.eqb (id c) a then
        draw newStats := roll_stats stat_keys (stats c) in
        draw rest' := rollAll_map allocs a rest in
        ret (rollAllUpdate allocs newStats c :: rest')
      else
        draw rest' := rollAll_map allocs a rest in
        ret (c :: rest')
  end.

Definition handleRollAllStats (s : Screen) : Rand Screen :=
  match activeCharacterId s with
  | None => ret s
  | Some a =>
      draw cs := rollAll_map (allocations s) a (characters s) in
      ret (with_characters s cs)
  end.

(** [handleSkillAllocation].  The entry of the skill in the allocation
    table is copied with one field replaced.  When the table has no
    entry for the skill the copy has a single field, the total the
    source stores is not a number, and the result is [None]. *)
Definition handleSkillAllocation (s : Screen) (charId skillName : string)
    (type : AllocType) (value : Z) : option Screen :=
  let value := if value <? 0 then 0 else value in
  let charAllocs := default ∅ (allocations s !! charId) in
  match charAllocs !! skillName with
  | None => None
  | Some old =>
      let entry := set_alloc old type value in
      let newAllocs := <[skillName := entry]> charAllocs in
      Some (mkScreen
              (updateCharacter charId
                 (fun char =>
                    let base := getBaseSkillValue skillName (stats char)
                                  (customSkills char) in
                    let newSkillValue := base + occ entry + int entry in
                    with_skills char (<[skillName := newSkillValue]> (skills char)))
                 (characters s))
              (activeCharacterId s)
              (<[charId := newAllocs]> (allocations s)))
  end.

(** The values [derivedData] shows for the active character. *)
Record Derived := mkDerived {
  occupationPoints : Z;
  interestPoints : Z;
  damageBonus : string;
  idea : Z;
  luck : Z;
  knowledge : Z;
  spentOccPoints : Z;
  spentIntPoints : Z
}.

Definition derivedData (s : Screen) : option Derived :=
  match find_active s with
  | None => None
  | Some activeCharacter =>
      let rawStats := stats activeCharacter in
      let currentAllocs :=
        default ∅ (allocations s !! id activeCharacter) in
      Some (mkDerived
              (st_EDU rawStats * 20)
              (st_INT rawStats * 10)
              (calculateDamageBonus (st_STR rawStats) (st_SIZ rawStats))
              (st_INT rawStats * 5)
              (st_POW rawStats * 5)
              (st_EDU rawStats * 5)
              (map_fold (fun _ a sum => sum + occ a) 0 currentAllocs)
              (map_fold (fun _ a sum => sum + int a) 0 currentAllocs))
  end.

End Constants.

End Creation.

(** * The specification's check resolution *)

Module Spec.

Inductive Tier :=
| Critical | Extreme | Hard | Regular | Fumble00 | Fumble | Failure.

(** [resolve(d100Roll, targetValue)], in the words of the specification:
    the seven rules in their order of precedence, with floors of the
    quotients. *)
Definition resolve (roll target : Z) : Tier :=
  if roll <=? 1 then Critical
  else if roll <=? target / 5 then Extreme
  else if roll <=? target / 2 then Hard
  else if roll <=? target then Regular
  else if roll >=? 100 then Fumble00
  else if (roll >=? 96) && (target <? 50) then Fumble
  else Failure.

(** Success is any tier except Failure, Fumble and Fumble(00). *)
Definition is_success (t : Tier) : bool :=
  match t with
  | Failure | Fumble | Fumble00 => false
  | _ => true
  end.

(** The label the client shows for a tier. *)
Definition label (t : Tier) : string :=
  match t with
  | Critical => "クリティカル (01)"
  | Extreme => "イクストリーム成功"
  | Hard => "ハード成功"
  | Regular => "レギュラー成功"
  | Fumble00 => "ファンブル (00)"
  | Fumble => "ファンブル"
  | Failure => "失敗"
  end.

(** A bare integer, white space around it allowed, is a fixed value and
    not a roll: [Some] of the value, and [None] for every other
    notation. *)
Definition fixed_value (notation : string) : option Z :=
  match Str.trim notation with
  | EmptyString => None
  | trimmed =>
      if Str.all_digits trimmed then Some (Str.digits_value 0 trimmed) else None
  end.

(** The letter d, small or capital, occurs in the notation. *)
Fixpoint has_d (notation : string) : bool :=
  match notation with
  | EmptyString => false
  | String c r => Ascii.eqb c "d" || Ascii.eqb c "D" || has_d r
  end.

(** A small d directly followed by a digit occurs in the string: the
    least the dice pattern needs, as the count and the modifier are
    optional. *)
Fixpoint has_die (sanitized : string) : bool :=
  match sanitized with
  | EmptyString => false
  | String c r =>
      (Ascii.eqb c "d"
       && match r with String c' _ => Str.is_digit c' | EmptyString => false end)
      || has_die r
  end.

(** The bytes a bare integer with white space around it is made of: a
    digit, white space of one byte, or a byte of a character outside of
    ASCII. *)
Definition plain_byte (c : ascii) : bool :=
  Str.is_digit c || Str.is_space c || (128 <=? nat_of_ascii c)%nat.

Fixpoint all_plain (s : string) : bool :=
  match s with
  | EmptyString => true
  | String c r => plain_byte c && all_plain r
  end.

(** The first [k] bytes, as far as there are any. *)
Fixpoint plain_prefix (k : nat) (s : string) : bool :=
  match k, s with
  | S k', String c r => plain_byte c && plain_prefix k' r
  | _, _ => true
  end.

End Spec.

(** * Observations on the game screen *)

Module Observe.
Import GamePlay.

(** The state a handler reaches when its roll dialog shows [roll] and no
    further dialog follows. *)
Definition after_roll (h : option (Dice State)) (roll : Z) : option State :=
  match h with
  | Some (Roll _ _ onComplete) =>
      match onComplete roll with
      | Ret s' => Some s'
      | Roll _ _ _ => None
      end
  | _ => None
  end.

(** The check result a state holds, as dice value, target and tier
    label: the failed check kept for the push-roll offer, or else the
    result in the latest request to the narrator. *)
Definition reported (s : State) : option (Z * Z * string) :=
  match lastFailedSkillCheck s with
  | Some f => Some (fc_dice f, fc_value f, fc_result f)
  | None =>
      match last (sent s) with
      | Some r =>
          match rollResult r with
          | Some rr => Some (rr_dice rr, rr_value rr, rr_result rr)
          | None => None
          end
      | None => None
      end
  end.

(** The SAN and the madness (type and duration) of the character with
    the given id. *)
Definition san_and_madness (s : State) (cid : string)
  : option (Z * option MadnessType * option Z) :=
  option_map
    (fun c => (current (san c),
               match madness c with Some m => m_type m | None => None end,
               match madness c with Some m => duration m | None => None end))
    (find_character (characters s) cid).

(** A sanity check of one character played against a random source: the
    SAN and madness it ends with, the dialogs with their results, whether
    the game is over and the number of requests to the narrator. *)
Definition played_check (s : State) (roll cid : string) (g : Js.Rng)
  : option (option (Z * option MadnessType * option Z)
            * list (string * Z) * bool * nat) :=
  match handleSanityCheck s roll "" cid with
  | Some d =>
      let r := fst (run_rand d g) in
      Some (san_and_madness (fst r) cid, snd r, gameOverCalled (fst r),
            length (sent (fst r)))
  | None => None
  end.

(** The side of a loss notation that applies to an outcome: of
    ["success/failure"] the one before or after the stroke, and the whole
    notation when it does not have exactly two sides. *)
Definition loss_side (roll : string) (isSuccess : bool) : string :=
  match Str.split "/" roll with
  | [successRoll; failureRoll] => if isSuccess then successRoll else failureRoll
  | _ => roll
  end.

(** What a side costs, given the results the roll dialog will return: a
    fixed value is the loss and opens no dialog; any other side opens one
    dialog for itself and the result is the loss.  With the loss come
    the notations asked for and the results not used; [None] when the
    results run out. *)
Definition side_loss (side : string) (vs : list Z)
  : option (Z * list string * list Z) :=
  match Spec.fixed_value side with
  | Some n => Some (n, [], vs)
  | None =>
      match vs with
      | v :: vs' => Some (v, [side], vs')
      | [] => None
      end
  end.

(** The losses of a party-wide check for those who succeeded and those
    who failed.  A notation of two sides is evaluated side by side, the
    success side first and only when someone succeeded, the failure side
    unless everyone succeeded; any other notation is evaluated once, for
    all.  A side that is not evaluated counts 0. *)
Definition party_losses (roll : string) (hasSuccess hasFailure : bool)
    (vs : list Z) : option (Z * Z * list string) :=
  match Str.split "/" roll with
  | [successRoll; failureRoll] =>
      match (if hasSuccess then side_loss successRoll vs
             else Some (0, [], vs)) with
      | Some (successLoss, ns1, vs1) =>
          match (if hasFailure || negb hasSuccess
                 then side_loss failureRoll vs1 else Some (0, [], vs1)) with
          | Some (failureLoss, ns2, _) =>
              Some (successLoss, failureLoss, ns1 ++ ns2)
          | None => None
          end
      | None => None
      end
  | _ =>
      match side_loss roll vs with
      | Some (loss, ns, _) => Some (loss, loss, ns)
      | None => None
      end
  end.

(** Someone of the party succeeds, or fails, on the shared roll. *)
Definition anySuccess (cs : list Character) (sanCheckRoll : Z) : bool :=
  existsb (fun c => sanCheckRoll <=? current (san c)) cs.

Definition anyFailure (cs : list Character) (sanCheckRoll : Z) : bool :=
  existsb (fun c => negb (sanCheckRoll <=? current (san c))) cs.

(** On the creation screen: [c'] has its HP and MP at their maxima, which
    come from its attributes, and the SAN of [c] cut down to the new
    maximum. *)
Definition resources_reset (c c' : Character) : Prop :=
  let st := stats c' in
  max (hp c') = Js.Math_ceil (inject_Z (st_CON st + st_SIZ st) / 2)
  /\ current (hp c') = max (hp c')
  /\ max (mp c') = st_POW st
  /\ current (mp c') = max (mp c')
  /\ max (san c') = st_POW st * 5
  /\ current (san c') = Z.min (current (san c)) (max (san c')).

End Observe.

(** * Sample data *)

Module Sample.

(** An investigator with every attribute at 13 and two skills. *)
Definition investigator : Character :=
  mkCharacter "c1" "探索者A" "探偵" (mkStats 13 13 13 13 13 13 13 13)
    (mkResource 13 13) (mkResource 13 13) (mkResource 50 65)
    (<["目星" := 60]> (<["聞き耳" := 25]> ∅)) [] [] None.

(** A second investigator: STR 20, SAN 30 of 50, in temporary madness. *)
Definition veteran : Character :=
  mkCharacter "c2" "探索者B" "兵士" (mkStats 20 12 10 11 9 14 12 10)
    (mkResource 13 13) (mkResource 10 10) (mkResource 30 50)
    (<["回避" := 40]> ∅) [] []
    (Some (mkMadness (Some temporary) "パニック状態となり、その場から逃げ出そうとする" (Some 3))).

(** The game screen waiting for input, with both at the table. *)
Definition table : GamePlay.State :=
  GamePlay.mkState [investigator; veteran] false None None true [] false false.

(** A failed spot check of the first investigator, kept for the
    push-roll offer. *)
Definition failed_spot : GamePlay.FailedCheck :=
  GamePlay.mkFailedCheck "c1" "目星" 60 77 "失敗".

(** Sample tables in the place of those of [constants.ts]: three standard
    skills, dodge computed from DEX and the own language from EDU. *)
Definition initial_skills : gmap string Z :=
  <["目星" := 25]> (<["聞き耳" := 25]> (<["回避" := 0]> ∅)).

Definition dynamic_base_skills : gmap string (Stats -> Z) :=
  <["回避" := fun st => st_DEX st * 2]> (<["母国語" := fun st => st_EDU st * 5]> ∅).

Definition all_skills : list string := ["目星"; "聞き耳"; "回避"; "母国語"].

(** The creation screen after one character was added. *)
Definition fresh : Creation.Screen :=
  Creation.addNewCharacter all_skills (Creation.mkScreen [] None ∅) "c1".

(** The creation screen with the first investigator on the roster. *)
Definition roster : Creation.Screen :=
  Creation.mkScreen [investigator] (Some "c1") (Creation.allocations fresh).

End Sample.

(** ** components/GamePlayScreen.tsx: free actions and what the screen offers *)

Module Turn.
Import Js GamePlay.

(** [handlePlayerAction]: a blank text or a missing session does nothing;
    otherwise a round passes and the text goes to the narrator. *)
Definition handlePlayerAction (s : State) (actionText : string)
    (rollResult : option RollResult) : State :=
  match Str.trim actionText with
  | EmptyString => s
  | _ =>
      if negb (chatSession s) then s else
      let s' := set_characters s (decrementMadnessDuration (characters s)) in
      sendPlayerAction
        (set_pendingAction
           (set_isLoading (set_lastFailedSkillCheck s' None) true) None)
        (mkRequest actionText (characters s) rollResult)
  end.

(** [handleSubmit] for the text in the input field. *)
Definition handleSubmit (s : State) (input : string) : State :=
  match Str.trim input with
  | EmptyString => s
  | _ => handlePlayerAction s input None
  end.

Definition handleSuggestedActionClick (s : State) (action : string) : State :=
  handlePlayerAction (set_lastFailedSkillCheck s None) action None.

(** A string that is not [null] and not empty. *)
Definition truthy (o : option string) : bool :=
  match o with
  | Some (String _ _) => true
  | _ => false
  end.

(** [hasPendingChoice]: the narrator's answer offers a check or a roll. *)
Definition hasPendingChoice (s : State) : bool :=
  match pendingAction s with
  | Some p =>
      truthy (skillCheck p) || is_some (statCheck p)
      || is_some (sanityCheck p) || is_some (diceRollRequired p)
  | None => false
  end.

(** The text field and its button are disabled. *)
Definition inputDisabled (s : State) : bool :=
  isLoading s || hasPendingChoice s.

(** The buttons for suggested actions that are on screen. *)
Definition suggestedShown (s : State) : list string :=
  match pendingAction s with
  | Some p =>
      if negb (hasPendingChoice s) && negb (isLoading s)
      then suggestedActions p else []
  | None => []
  end.

(** The buttons for checks are on screen: some check is offered and the
    screen is not waiting for the narrator. *)
Definition checksShown (s : State) : bool :=
  negb (isLoading s) && hasPendingChoice s.

(** The handling of the answer to the opening of the game in
    [startGame]. *)
Definition startGame_onResponse (response : KeeperResponse) (s : State) : State :=
  if gameClear response then
    set_pendingAction (set_isLoading (onGameClear s) false) None
  else if gameOver response then
    set_pendingAction (set_isLoading (onGameOver s) false) None
  else
    set_isLoading (set_pendingAction s (Some response)) false.

End Turn.

(** ** components/CharacterCreationScreen.tsx: roster, custom skills, points *)

Module Roster.
Import Js Creation.

Definition with_customOccupationalSkills (c : Character) (l : list string)
  : Character :=
  mkCharacter (id c) (name c) (occupation c) (stats c) (hp c) (mp c) (san c)
    (skills c) l (customSkills c) (madness c).

Definition with_customSkills (c : Character) (l : list CustomSkill)
    (sk : gmap string Z) : Character :=
  mkCharacter (id c) (name c) (occupation c) (stats c) (hp c) (mp c) (san c)
    sk (customOccupationalSkills c) l (madness c).

(** [removeCharacter]: the roster is filtered; when the active character
    goes, the first of the others becomes active.  The allocation table is
    left as it is. *)
Definition removeCharacter (s : Screen) (idToRemove : string) : Screen :=
  let keep := fun c : Character => negb (String.eqb (id c) idToRemove) in
  mkScreen (filter keep (characters s))
    (match activeCharacterId s with
     | Some a =>
         if String.eqb a idToRemove then
           match filter keep (characters s) with
           | c :: _ => Some (id c)
           | [] => None
           end
         else Some a
     | None => None
     end)
    (allocations s).

(** [currentSkills.includes(skillName)] *)
Definition includes (l : list string) (x : string) : bool :=
  existsb (String.eqb x) l.

(** [handleCustomOccSkillToggle]: a selected skill is taken out; one that
    is not selected is added unless 8 are selected already. *)
Definition handleCustomOccSkillToggle (s : Screen) (charId skillName : string)
  : Screen :=
  with_characters s
    (updateCharacter charId
       (fun char =>
          let currentSkills := customOccupationalSkills char in
          if includes currentSkills skillName then
            with_customOccupationalSkills char
              (filter (fun x => negb (String.eqb x skillName)) currentSkills)
          else if (8 <=? length currentSkills)%nat then char
          else with_customOccupationalSkills char (currentSkills ++ [skillName]))
       (characters s)).

(** [canStartGame] *)
Definition canStartGame (s : Screen) : bool :=
  negb (match characters s with [] => true | _ => false end)
  && forallb (fun c => match name c, occupation c with
                       | String _ _, String _ _ => true
                       | _, _ => false
                       end) (characters s).

(** The effect that runs after every change of the roster or of the
    active id: a roster that is not empty and no active id ([null] or the
    empty string) make the first character active. *)
Definition activeEffect (s : Screen) : Screen :=
  match characters s, activeCharacterId s with
  | c :: _, None | c :: _, Some EmptyString =>
      mkScreen (characters s) (Some (id c)) (allocations s)
  | _, _ => s
  end.

(** How a handler with a loop ends: with a value, with the [TypeError] of
    a field read from [undefined], or with its steps used up. *)
Inductive Outcome (A : Type) : Type :=
| Finished (a : A)
| Thrown
| OutOfSteps.
Arguments Finished {A} a.
Arguments Thrown {A}.
Arguments OutOfSteps {A}.

Definition bindO {A B : Type} (m : Rand (Outcome A))
    (k : A -> Rand (Outcome B)) : Rand (Outcome B) :=
  draw r := m in
  match r with
  | Finished a => k a
  | Thrown => ret Thrown
  | OutOfSteps => ret OutOfSteps
  end.

(** The field of an entry that [currentAlloc[type]++] counts up. *)
Definition alloc_field (a : SkillAllocation) (type : AllocType) : Z :=
  match type with t_occ => occ a | t_int => int a end.

Section Constants.

Variable INITIAL_SKILLS : gmap string Z.
Variable DYNAMIC_BASE_SKILLS : gmap string (Stats -> Z).
Variable ALL_SKILLS : list string.
Variable OCCUPATIONS : gmap string (list string).

(** [handleAddCustomSkill]; [newId] is the id made from the name and the
    clock. *)
Definition handleAddCustomSkill (s : Screen) (newId skillName : string)
    (base : Z) (cat : string) : Screen :=
  match find_active s with
  | None => s
  | Some activeCharacter =>
      let newSkill := mkCustomSkill newId skillName base cat in
      mkScreen
        (updateCharacter (id activeCharacter)
           (fun char =>
              with_customSkills char (customSkills char ++ [newSkill])
                (<[cs_name newSkill := baseValue newSkill]> (skills char)))
           (characters s))
        (activeCharacterId s)
        (<[id activeCharacter :=
             <[cs_name newSkill := mkAlloc 0 0]>
               (default ∅ (allocations s !! id activeCharacter))]>
           (allocations s))
  end.

(** [handleEditCustomSkill]: the custom skill with the id of [skillData]
    is replaced and the total of its (new) name is recomputed. *)
Definition handleEditCustomSkill (s : Screen) (skillData : CustomSkill)
  : Screen :=
  match find_active s with
  | None => s
  | Some activeCharacter =>
      with_characters s
        (updateCharacter (id activeCharacter)
           (fun char =>
              let allocation :=
                alloc_or_zero (allocations s) (id activeCharacter)
                  (cs_name skillData) in
              with_customSkills char
                (map (fun skill =>
                        if String.eqb (cs_id skill) (cs_id skillData)
                        then skillData else skill) (customSkills char))
                (<[cs_name skillData :=
                     baseValue skillData + occ allocation + int allocation]>
                   (skills char)))
           (characters s))
  end.

(** [handleDeleteCustomSkill] *)
Definition handleDeleteCustomSkill (s : Screen) (skillId : string) : Screen :=
  match find_active s with
  | None => s
  | Some activeCharacter =>
      match List.find (fun skill => String.eqb (cs_id skill) skillId)
              (customSkills activeCharacter) with
      | None => s
      | Some skillToDelete =>
          mkScreen
            (updateCharacter (id activeCharacter)
               (fun char =>
                  with_customOccupationalSkills
                    (with_customSkills char
                       (filter (fun skill => negb (String.eqb (cs_id skill) skillId))
                          (customSkills char))
                       (delete (cs_name skillToDelete) (skills char)))
                    (filter (fun x => negb (String.eqb x (cs_name skillToDelete)))
                       (customOccupationalSkills char)))
               (characters s))
            (activeCharacterId s)
            (match allocations s !! id activeCharacter with
             | Some charAllocs =>
                 <[id activeCharacter := delete (cs_name skillToDelete) charAllocs]>
                   (allocations s)
             | None => allocations s
             end)
      end
  end.

(** The table [handleResetAllPoints] builds for a character: no points on
    any of its skills. *)
Definition zero_allocations (char : Character) : gmap string SkillAllocation :=
  fold_left (fun (m : gmap string SkillAllocation) skillName =>
               <[skillName := mkAlloc 0 0]> m)
    (allSkillNames ALL_SKILLS char) ∅.

Definition base_skills (char : Character) : gmap string Z :=
  fold_left (fun (newSkills : gmap string Z) skillName =>
               <[skillName := getBaseSkillValue INITIAL_SKILLS DYNAMIC_BASE_SKILLS
                                skillName (stats char) (customSkills char)]>
                 newSkills)
    (allSkillNames ALL_SKILLS char) (skills char).

(** [handleResetAllPoints]: nothing happens without an active id ([null]
    or the empty string); the updater of the character also stores the
    emptied table, for each character it is applied to. *)
Definition handleResetAllPoints (s : Screen) : Screen :=
  match activeCharacterId s with
  | None | Some EmptyString => s
  | Some a =>
      mkScreen
        (updateCharacter a (fun char => with_skills char (base_skills char))
           (characters s))
        (activeCharacterId s)
        (fold_left (fun al (char : Character) =>
                      if String.eqb (id char) a
                      then <[id char := zero_allocations char]> al else al)
           (characters s) (allocations s))
  end.

(** [handleOccupationChange]; the second component is the state
    [isCustomOccupation].  The choice "CUSTOM" empties the occupation for
    the player to type one; any other choice is stored and empties the
    own occupational skills. *)
Definition handleOccupationChange (s : Screen) (isCustomOccupation : bool)
    (newOccupation : string) : Screen * bool :=
  match activeCharacterId s with
  | None | Some EmptyString => (s, isCustomOccupation)
  | Some a =>
      if String.eqb newOccupation "CUSTOM" then
        (with_characters s
           (updateCharacter a
              (fun c =>
                 mkCharacter (id c) (name c) "" (stats c) (hp c) (mp c) (san c)
                   (skills c) (customOccupationalSkills c) (customSkills c)
                   (madness c))
              (characters s)),
         true)
      else
        (with_characters s
           (updateCharacter a
              (fun c =>
                 mkCharacter (id c) (name c) newOccupation (stats c) (hp c) (mp c)
                   (san c) (skills c) [] (customSkills c) (madness c))
              (characters s)),
         false)
  end.

(** [Object.keys(OCCUPATIONS).includes(occupation)] *)
Definition isPreset (occupation : string) : bool :=
  match OCCUPATIONS !! occupation with Some _ => true | None => false end.

(** The effect on [activeCharacter] that keeps [isCustomOccupation]: the
    new value of that state.  In one case, an empty occupation without own
    occupational skills that is no preset, the effect sets nothing. *)
Definition customOccupationEffect (s : Screen) (isCustomOccupation : bool)
  : bool :=
  match find_active s with
  | Some activeCharacter =>
      let given := match occupation activeCharacter with
                   | EmptyString => false
                   | _ => true
                   end in
      if given && negb (isPreset (occupation activeCharacter)) then true
      else
        let hasCustomSkills :=
          (0 <? length (customOccupationalSkills activeCharacter))%nat in
        if negb given && hasCustomSkills then true
        else if negb (isPreset (occupation activeCharacter)) then
               (if given then true else isCustomOccupation)
        else false
  | None => false
  end.

(** One [while] loop of [handleAutoAllocateAllPoints]: while points are
    left and skills are available, a skill is drawn; below a total of 99 it
    receives one point, otherwise it leaves the list ([splice]).  The skill
    drawn is read from the table of the character without a test, so a
    name without an entry throws.  Every step takes a point or a skill
    away, so [fuel] steps are enough when [fuel] is the points plus the
    length of the list. *)
Fixpoint allocate_loop (fuel : nat) (type : AllocType) (char : Character)
    (pointsToDistribute : Z) (available : list string)
    (newAllocsForChar : gmap string SkillAllocation)
  : Rand (Outcome (Z * gmap string SkillAllocation)) :=
  if (pointsToDistribute >? 0) && (0 <? length available)%nat then
    match fuel with
    | O => ret OutOfSteps
    | S fuel' =>
        draw u := Math_random in
        let randomIndex :=
          Math_floor (u * inject_Z (Z.of_nat (length available))) in
        match available !! Z.to_nat randomIndex with
        | None => ret Thrown
        | Some randomSkill =>
            let base := getBaseSkillValue INITIAL_SKILLS DYNAMIC_BASE_SKILLS
                          randomSkill (stats char) (customSkills char) in
            match newAllocsForChar !! randomSkill with
            | None => ret Thrown
            | Some currentAlloc =>
                let currentTotal := base + occ currentAlloc + int currentAlloc in
                if currentTotal <? 99 then
                  allocate_loop fuel' type char (pointsToDistribute - 1) available
                    (<[randomSkill :=
                         set_alloc currentAlloc type
                           (alloc_field currentAlloc type + 1)]> newAllocsForChar)
                else
                  allocate_loop fuel' type char pointsToDistribute
                    (delete (Z.to_nat randomIndex) available) newAllocsForChar
            end
        end
    end
  else ret (Finished (pointsToDistribute, newAllocsForChar)).

Definition enough_steps (points : Z) (available : list string) : nat :=
  (Z.to_nat points + length available)%nat.

(** The totals the updater of [handleAutoAllocateAllPoints] stores, capped
    at 99; every name of the list has an entry in the table. *)
Definition capped_totals (char : Character)
    (newAllocsForChar : gmap string SkillAllocation) : gmap string Z :=
  fold_left (fun (newSkills : gmap string Z) skillName =>
               let base := getBaseSkillValue INITIAL_SKILLS DYNAMIC_BASE_SKILLS
                             skillName (stats char) (customSkills char) in
               let alloc := default (mkAlloc 0 0) (newAllocsForChar !! skillName) in
               let newTotal := base + occ alloc + int alloc in
               <[skillName := if newTotal >? 99 then 99 else newTotal]> newSkills)
    (allSkillNames ALL_SKILLS char) (skills char).

(** The updater of [handleAutoAllocateAllPoints] for one character.  The
    two counters of points live outside of it: it receives what is left
    of them and returns what it leaves. *)
Definition autoAllocate_char (char : Character) (occupationalSkills : list string)
    (occPointsToDistribute intPointsToDistribute : Z)
  : Rand (Outcome (Character * gmap string SkillAllocation * Z * Z)) :=
  bindO (allocate_loop (enough_steps occPointsToDistribute occupationalSkills)
           t_occ char occPointsToDistribute occupationalSkills
           (zero_allocations char))
    (fun '(occLeft, afterOcc) =>
       bindO (allocate_loop
                (enough_steps intPointsToDistribute (allSkillNames ALL_SKILLS char))
                t_int char intPointsToDistribute (allSkillNames ALL_SKILLS char)
                afterOcc)
         (fun '(intLeft, newAllocsForChar) =>
            ret (Finished
                   (with_skills char (capped_totals char newAllocsForChar),
                    newAllocsForChar, occLeft, intLeft)))).

(** [updateCharacter] with that updater: the characters with the active
    id are served in the order of the roster, each storing its table. *)
Fixpoint autoAllocate_map (a : string) (occupationalSkills : list string)
    (prev : list Character) (occPoints intPoints : Z)
    (allocs : gmap string (gmap string SkillAllocation))
  : Rand (Outcome (list Character * gmap string (gmap string SkillAllocation))) :=
  match prev with
  | [] => ret (Finished ([], allocs))
  | c :: rest =>
      if String.eqb (id c) a then
        bindO (autoAllocate_char c occupationalSkills occPoints intPoints)
          (fun '(c', newAllocsForChar, occLeft, intLeft) =>
             bindO (autoAllocate_map a occupationalSkills rest occLeft intLeft
                      (<[id c := newAllocsForChar]> allocs))
               (fun '(rest', allocs') => ret (Finished (c' :: rest', allocs'))))
      else
        bindO (autoAllocate_map a occupationalSkills rest occPoints intPoints allocs)
          (fun '(rest', allocs') => ret (Finished (c :: rest', allocs')))
  end.

(** [handleAutoAllocateAllPoints]; [isCustomOccupation] is the state of
    that name.  Without an active character, and without occupational
    skills (the alert), nothing changes. *)
Definition handleAutoAllocateAllPoints (s : Screen) (isCustomOccupation : bool)
  : Rand (Outcome Screen) :=
  match find_active s, derivedData s with
  | Some activeCharacter, Some derived =>
      let occupationalSkills :=
        if isCustomOccupation then customOccupationalSkills activeCharacter
        else default [] (OCCUPATIONS !! occupation activeCharacter) in
      match occupationalSkills with
      | [] => ret (Finished s)
      | _ =>
          bindO (autoAllocate_map (id activeCharacter) occupationalSkills
                   (characters s) (occupationPoints derived)
                   (interestPoints derived) (allocations s))
            (fun '(cs, allocs) =>
               ret (Finished (mkScreen cs (activeCharacterId s) allocs)))
      end
  | _, _ => ret (Finished s)
  end.

End Constants.

End Roster.

(** Sample screens of the creation of characters. *)
Module SampleRoster.
Import Creation Roster.

(** The sample roster after its investigator received the custom skill
    "古文書" with base value 10. *)
Definition archive_skill : CustomSkill :=
  mkCustomSkill "custom_古文書_1" "古文書" 10 "知識".

Definition archivist_screen : Screen :=
  handleAddCustomSkill Sample.roster "custom_古文書_1" "古文書" 10 "知識".

Definition archivist : Character :=
  with_customSkills Sample.investigator [archive_skill]
    (<["古文書" := 10]> (skills Sample.investigator)).

(** The table of points of the sample investigator. *)
Definition investigator_points : gmap string SkillAllocation :=
  default ∅ (allocations Sample.roster !! "c1").

(** The occupational skills of the sample occupation. *)
Definition occupations : gmap string (list string) :=
  <["探偵" := ["目星"; "聞き耳"]]> ∅.

(** The custom skill selected as the only own occupational skill, and
    then renamed. *)
Definition renamed_skill : CustomSkill :=
  mkCustomSkill "custom_古文書_1" "古文書学" 15 "知識".

Definition renamed_screen : Screen :=
  handleEditCustomSkill
    (handleCustomOccSkillToggle archivist_screen "c1" "古文書") renamed_skill.

Definition renamed_archivist : Character :=
  with_customSkills (with_customOccupationalSkills archivist ["古文書"])
    [renamed_skill] (<["古文書学" := 15]> (skills archivist)).

End SampleRoster.

(** * Check resolution *)

Module TierProofs.
Import Js GamePlay Spec Observe.

(** For an integer roll, [roll <= a / p] with the real quotient and
    [roll <= floor (a / p)] are the same test. *)
Lemma le_quot_floor (n a : Z) (p : positive) :
  le_quot n a (Z.pos p # 1) = (n <=? a / Z.pos p).
Proof.
  unfold le_quot, Qle_bool, Qdiv, Qmult, Qinv. simpl.
  rewrite Z.mul_1_r, Pos.mul_1_l.
  destruct (Z.leb_spec n (a / Z.pos p)) as [H|H].
  - apply Z.leb_le.
    pose proof (Z.mul_div_le a (Z.pos p) ltac:(lia)). nia.
  - apply Z.leb_gt.
    pose proof (Z.mul_succ_div_gt a (Z.pos p) ltac:(lia)). nia.
Qed.

Ltac tier_cases :=
  change (5%Q) with (5 # 1); change (2%Q) with (2 # 1);
  rewrite !le_quot_floor;
  repeat (match goal with
          | |- context [if ?b then _ else _] => destruct b
          end; try reflexivity).

Lemma skillCheck_result_spec roll target :
  skillCheck_result roll target = label (resolve roll target).
Proof. unfold skillCheck_result, resolve. tier_cases. Qed.

Lemma statCheck_result_spec roll target :
  statCheck_result roll target = label (resolve roll target).
Proof. unfold statCheck_result, resolve. tier_cases. Qed.

Lemma pushRoll_result_spec roll target :
  pushRoll_result roll target = label (resolve roll target).
Proof. unfold pushRoll_result, resolve. tier_cases. Qed.

Lemma isSuccess_label t : isSuccess (label t) = is_success t.
Proof. destruct t; reflexivity. Qed.

Lemma after_skillCheck s skill cid c roll :
  find_character (characters s) cid = Some c ->
  after_roll (handleSkillCheck s skill cid) roll
  = Some (skillCheck_onComplete s
            (set_characters
               (set_lastFailedSkillCheck (set_pendingAction s None) None)
               (decrementMadnessDuration (characters s)))
            c cid (remove_brackets skill)
            (default 0 (skills c !! remove_brackets skill)) roll).
Proof. intros H. unfold handleSkillCheck. rewrite H. reflexivity. Qed.

Lemma after_statCheck s stat m reason cid c roll :
  find_character (characters s) cid = Some c ->
  after_roll (handleStatCheck s stat m reason cid) roll
  = Some (statCheck_onComplete s
            (set_characters
               (set_lastFailedSkillCheck (set_pendingAction s None) None)
               (decrementMadnessDuration (characters s)))
            c cid (stat_label stat +:+ "×" +:+ multiplier_text (multiplier_param m))
            reason
            (times_multiplier (get_stat (stats c) stat) (multiplier_param m)) roll).
Proof. intros H. unfold handleStatCheck. rewrite H. reflexivity. Qed.

Lemma after_pushRoll s f c roll :
  lastFailedSkillCheck s = Some f -> chatSession s = true ->
  find_character (characters s) (fc_characterId f) = Some c ->
  after_roll (handlePushRoll s) roll
  = Some (pushRoll_onComplete s
            (set_isLoading
               (set_lastFailedSkillCheck
                  (set_characters s (decrementMadnessDuration (characters s)))
                  None) true)
            c (fc_skill f) (fc_value f) roll).
Proof.
  intros Hf Hc H. unfold handlePushRoll. rewrite Hf, Hc, H. reflexivity.
Qed.

Lemma skillCheck_onComplete_reported s s' c cid sk target roll :
  chatSession s = true -> lastFailedSkillCheck s' = None ->
  reported (skillCheck_onComplete s s' c cid sk target roll)
  = Some (roll, target, label (resolve roll target))
  /\ is_some (lastFailedSkillCheck (skillCheck_onComplete s s' c cid sk target roll))
     = negb (is_success (resolve roll target)).
Proof.
  intros Hc Hl. unfold skillCheck_onComplete.
  rewrite skillCheck_result_spec, isSuccess_label, Hc.
  destruct (is_success (resolve roll target)); simpl.
  - split; [|now rewrite Hl]. unfold reported. simpl.
    rewrite Hl, last_snoc. reflexivity.
  - split; reflexivity.
Qed.

Lemma statCheck_onComplete_reported s s' c cid nm reason target roll :
  chatSession s = true -> lastFailedSkillCheck s' = None ->
  reported (statCheck_onComplete s s' c cid nm reason target roll)
  = Some (roll, target, label (resolve roll target))
  /\ is_some (lastFailedSkillCheck (statCheck_onComplete s s' c cid nm reason target roll))
     = negb (is_success (resolve roll target)).
Proof.
  intros Hc Hl. unfold statCheck_onComplete.
  rewrite statCheck_result_spec, isSuccess_label, Hc.
  destruct (is_success (resolve roll target)); simpl.
  - split; [|now rewrite Hl]. unfold reported. simpl.
    rewrite Hl, last_snoc. reflexivity.
  - split; reflexivity.
Qed.

(** C2, as the code has it.  Skill checks, stat checks and push-rolls
    all resolve by the tier function of the specification, [resolve],
    with its seven rules in their order of precedence.  The target is the
    skill value for a skill check and the target of the failed check for
    a push-roll.  For a stat check it is the attribute times the
    multiplier, and times 5 when the field is absent; when the field is
    [null] the default does not apply, the target is 0 and the check is
    named with [null], while the button that offers the check shows the
    multiplier 5.  A check is a success, and no push-roll is offered,
    exactly for the tiers other than Failure, Fumble and Fumble(00). *)
Theorem checks_resolve_by_one_tier_rule
    (s : State) (c : Character) (cid skill reason : string)
    (stat : StatName) (m : Multiplier) (f : FailedCheck) (roll : Z) :
  chatSession s = true ->
  find_character (characters s) cid = Some c ->
  fc_characterId f = cid ->
  let skillValue := default 0 (skills c !! remove_brackets skill) in
  let targetValue :=
    match m with
    | mult_undefined => get_stat (stats c) stat * 5
    | mult_number k => get_stat (stats c) stat * k
    | mult_null => 0
    end in
  (skillCheck_result roll skillValue = label (resolve roll skillValue)
   /\ statCheck_result roll targetValue = label (resolve roll targetValue)
   /\ pushRoll_result roll (fc_value f) = label (resolve roll (fc_value f)))
  /\ (exists s1,
        after_roll (handleSkillCheck s skill cid) roll = Some s1
        /\ reported s1 = Some (roll, skillValue, label (resolve roll skillValue))
        /\ is_some (lastFailedSkillCheck s1)
           = negb (is_success (resolve roll skillValue)))
  /\ (exists s1,
        after_roll (handleStatCheck s stat m reason cid) roll = Some s1
        /\ reported s1 = Some (roll, targetValue, label (resolve roll targetValue))
        /\ is_some (lastFailedSkillCheck s1)
           = negb (is_success (resolve roll targetValue)))
  /\ (exists s1,
        after_roll (handlePushRoll (set_lastFailedSkillCheck s (Some f))) roll
        = Some s1
        /\ reported s1
           = Some (roll, fc_value f, label (resolve roll (fc_value f))))
  /\ (m = mult_null ->
        shownMultiplier m = 5
        /\ exists s1,
             after_roll (handleStatCheck s stat m reason cid) roll = Some s1
             /\ match lastFailedSkillCheck s1 with
                | Some kept =>
                    fc_skill kept = stat_label stat +:+ "×null"
                    /\ fc_value kept = 0
                | None =>
                    exists text rr,
                      sent s1 = sent s ++ [mkRequest text (characters s) (Some rr)]
                      /\ rr_skill rr = stat_label stat +:+ "×null"
                      /\ rr_value rr = 0
                end).
Proof.
  intros Hc Hfind Hf skillValue targetValue.
  assert (Htarget : times_multiplier (get_stat (stats c) stat) (multiplier_param m)
                    = targetValue) by (destruct m; reflexivity).
  split; [|split; [|split; [|split]]].
  - auto using skillCheck_result_spec, statCheck_result_spec, pushRoll_result_spec.
  - eexists. split; [apply after_skillCheck, Hfind|].
    apply skillCheck_onComplete_reported; [exact Hc|reflexivity].
  - eexists. split; [apply after_statCheck, Hfind|]. rewrite Htarget.
    apply statCheck_onComplete_reported; [exact Hc|reflexivity].
  - eexists. split.
    + apply (after_pushRoll _ f c); [reflexivity|exact Hc|].
      simpl. rewrite Hf. exact Hfind.
    + unfold pushRoll_onComplete. rewrite pushRoll_result_spec.
      unfold reported. simpl. rewrite last_snoc. reflexivity.
  - intros ->. split; [reflexivity|].
    eexists. split; [apply after_statCheck, Hfind|].
    unfold statCheck_onComplete. rewrite Hc.
    cbn [multiplier_param multiplier_text times_multiplier].
    destruct (isSuccess _).
    + cbn [lastFailedSkillCheck sent sendPlayerAction set_isLoading set_characters
           set_lastFailedSkillCheck set_pendingAction].
      do 2 eexists. split; [reflexivity|]. split; reflexivity.
    + cbn [lastFailedSkillCheck set_lastFailedSkillCheck fc_skill fc_value].
      split; reflexivity.
Qed.

Lemma checks_resolve_by_one_tier_rule_witness :
  chatSession Sample.table = true
  /\ find_character (characters Sample.table) "c1" = Some Sample.investigator
  /\ (exists s1,
        after_roll (handleSkillCheck Sample.table "〈目星〉" "c1") 30 = Some s1
        /\ reported s1 = Some (30, 60, "ハード成功")
        /\ is_some (lastFailedSkillCheck s1) = false)
  /\ (exists s1,
        after_roll (handleStatCheck Sample.table STR mult_null "扉を破る" "c1") 30
        = Some s1
        /\ reported s1 = Some (30, 0, "失敗")).
Proof.
  split; [reflexivity|split; [reflexivity|]].
  destruct (checks_resolve_by_one_tier_rule Sample.table Sample.investigator
              "c1" "〈目星〉" "扉を破る" STR mult_null Sample.failed_spot 30
              eq_refl eq_refl eq_refl) as (_ & Hskill & Hstat & _).
  split; [exact Hskill|].
  destruct Hstat as (s1 & H1 & H2 & _). exists s1. split; [exact H1|exact H2].
Defined.

(** The divergence of C2 on an input: the narrator offers a STR check
    with the multiplier [null]; the button shows STR×5, for which the
    target of the first sample investigator is 65 and a roll of 30 a Hard
    success that is reported; the handler resolves against 0, the roll is
    a Failure and a push-roll is offered. *)
Example null_multiplier_resolves_against_zero :
  shownMultiplier mult_null = 5
  /\ option_map reported
       (after_roll (handleStatCheck Sample.table STR mult_undefined "扉を破る" "c1") 30)
     = Some (Some (30, 65, "ハード成功"))
  /\ option_map reported
       (after_roll (handleStatCheck Sample.table STR mult_null "扉を破る" "c1") 30)
     = Some (Some (30, 0, "失敗"))
  /\ option_map pushOffered
       (after_roll (handleStatCheck Sample.table STR mult_null "扉を破る" "c1") 30)
     = Some true.
Proof. repeat split. Qed.

(** C3, as the code has it.  A roll of 100 resolves by the same rule as
    every other roll: below a target of 100 it is Fumble(00); from a
    target of 100 on, which a stat check reaches with an attribute of 20
    and the multiplier 5, it is within the target and a success:
    Regular below 200, Hard below 500, Extreme from 500 on. *)
Theorem roll_100_resolution (target : Z) :
  skillCheck_result 100 target = label (resolve 100 target)
  /\ statCheck_result 100 target = label (resolve 100 target)
  /\ pushRoll_result 100 target = label (resolve 100 target)
  /\ resolve 100 target
     = if target <? 100 then Fumble00
       else if target <? 200 then Regular
       else if target <? 500 then Hard
       else Extreme.
Proof.
  repeat split;
    auto using skillCheck_result_spec, statCheck_result_spec, pushRoll_result_spec.
  unfold resolve.
  change (100 <=? 1) with false. change (100 >=? 100) with true. cbv iota.
  destruct (Z.ltb_spec target 100).
  - rewrite (proj2 (Z.leb_gt 100 (target / 5))) by (apply Z.div_lt_upper_bound; lia).
    rewrite (proj2 (Z.leb_gt 100 (target / 2))) by (apply Z.div_lt_upper_bound; lia).
    rewrite (proj2 (Z.leb_gt 100 target)) by lia. reflexivity.
  - destruct (Z.ltb_spec target 200).
    + rewrite (proj2 (Z.leb_gt 100 (target / 5))) by (apply Z.div_lt_upper_bound; lia).
      rewrite (proj2 (Z.leb_gt 100 (target / 2))) by (apply Z.div_lt_upper_bound; lia).
      rewrite (proj2 (Z.leb_le 100 target)) by lia. reflexivity.
    + destruct (Z.ltb_spec target 500).
      * rewrite (proj2 (Z.leb_gt 100 (target / 5))) by (apply Z.div_lt_upper_bound; lia).
        rewrite (proj2 (Z.leb_le 100 (target / 2))) by (apply Z.div_le_lower_bound; lia).
        reflexivity.
      * rewrite (proj2 (Z.leb_le 100 (target / 5))) by (apply Z.div_le_lower_bound; lia).
        reflexivity.
Qed.

(** C3, as the specification states it, fails: in a STR×5 check of an
    investigator with STR 20 the target is 100 and a roll of 100 is a
    Regular success, which is sent to the narrator as a success. *)
Lemma roll_100_on_target_100_is_regular_success :
  exists s1,
    after_roll (handleStatCheck Sample.table STR mult_undefined "扉を破る" "c2") 100
    = Some s1
    /\ reported s1 = Some (100, 100, "レギュラー成功")
    /\ lastFailedSkillCheck s1 = None
    /\ "レギュラー成功" <> label Fumble00.
Proof.
  eexists. split; [reflexivity|]. split; [reflexivity|]. split; [reflexivity|].
  discriminate.
Qed.

(** C10.  A skill check for a skill the character does not have is
    resolved against the target 0.  A roll of 1 is Critical all the same
    and goes to the narrator as a success; the rolls 2 to 95 are
    Failures, 96 to 99 Fumbles and 100 Fumble(00), and these are kept
    for the push-roll offer and not sent. *)
Theorem absent_skill_resolves_against_zero
    (s : State) (c : Character) (cid skill : string) (roll : Z) :
  chatSession s = true ->
  find_character (characters s) cid = Some c ->
  skills c !! remove_brackets skill = None ->
  exists s1,
    after_roll (handleSkillCheck s skill cid) roll = Some s1
    /\ reported s1 = Some (roll, 0, label (resolve roll 0))
    /\ (roll = 1 ->
          resolve roll 0 = Critical
          /\ is_success (resolve roll 0) = true
          /\ lastFailedSkillCheck s1 = None
          /\ exists text,
               sent s1 = sent s ++
                 [mkRequest text (characters s)
                    (Some (mkRollResult (name c) (remove_brackets skill) 0
                             (label Critical) 1))])
    /\ (2 <= roll <= 95 -> resolve roll 0 = Failure)
    /\ (96 <= roll <= 99 -> resolve roll 0 = Fumble)
    /\ (roll = 100 -> resolve roll 0 = Fumble00)
    /\ (2 <= roll <= 100 ->
          is_success (resolve roll 0) = false
          /\ sent s1 = sent s
          /\ lastFailedSkillCheck s1
             = Some (mkFailedCheck cid (remove_brackets skill) 0 roll
                       (label (resolve roll 0)))).
Proof.
  intros Hc Hfind Hnone.
  assert (Hres : forall r, 2 <= r <= 100 ->
            resolve r 0 = if r >=? 100 then Fumble00
                          else if r >=? 96 then Fumble else Failure).
  { intros r Hr. unfold resolve. change (0 / 5) with 0. change (0 / 2) with 0.
    rewrite (proj2 (Z.leb_gt r 1)) by lia.
    rewrite (proj2 (Z.leb_gt r 0)) by lia.
    change (0 <? 50) with true. rewrite andb_true_r. reflexivity. }
  eexists. split; [apply after_skillCheck, Hfind|].
  rewrite Hnone. change (default 0 None) with 0.
  split; [apply skillCheck_onComplete_reported; [exact Hc|reflexivity]|].
  unfold skillCheck_onComplete.
  rewrite skillCheck_result_spec, isSuccess_label, Hc.
  split; [|split; [|split; [|split]]].
  - intros ->. repeat split. simpl. eexists. reflexivity.
  - intros Hr. rewrite Hres by lia.
    destruct (Z.geb_spec roll 100); [lia|].
    destruct (Z.geb_spec roll 96); [lia|]. reflexivity.
  - intros Hr. rewrite Hres by lia.
    destruct (Z.geb_spec roll 100); [lia|].
    destruct (Z.geb_spec roll 96); [|lia]. reflexivity.
  - intros ->. reflexivity.
  - intros Hr. rewrite Hres by lia.
    destruct (roll >=? 100); [|destruct (roll >=? 96)]; repeat split.
Qed.

Lemma absent_skill_resolves_against_zero_witness :
  chatSession Sample.table = true
  /\ find_character (characters Sample.table) "c1" = Some Sample.investigator
  /\ skills Sample.investigator !! remove_brackets "〈図書館〉" = None
  /\ exists s1,
       after_roll (handleSkillCheck Sample.table "〈図書館〉" "c1") 1 = Some s1
       /\ reported s1 = Some (1, 0, "クリティカル (01)").
Proof.
  split; [reflexivity|split; [reflexivity|split; [reflexivity|]]].
  destruct (absent_skill_resolves_against_zero Sample.table Sample.investigator
              "c1" "〈図書館〉" 1 eq_refl eq_refl eq_refl)
    as (s1 & H1 & H2 & _).
  exists s1. split; [exact H1|exact H2].
Defined.

End TierProofs.

(** * The push-roll protocol *)

Module PushProofs.
Import Js GamePlay Spec Observe TierProofs.

Lemma find_character_map (g : Character -> Character) cs cid :
  (forall c, id (g c) = id c) ->
  find_character (map g cs) cid = option_map g (find_character cs cid).
Proof.
  intros Hg. unfold find_character.
  induction cs as [|c cs IH]; simpl; [reflexivity|].
  rewrite Hg. destruct (String.eqb (id c) cid); [reflexivity|exact IH].
Qed.

(** The passing of a round changes neither the id nor the name. *)
Lemma tick_id c : id (tick c) = id c.
Proof.
  unfold tick.
  destruct (madness c) as [[[[]|] ? [d|]]|]; simpl; try reflexivity.
  destruct (d >? 0); [|reflexivity]. destruct (d - 1 <=? 0); reflexivity.
Qed.

Lemma tick_name c : name (tick c) = name c.
Proof.
  unfold tick.
  destruct (madness c) as [[[[]|] ? [d|]]|]; simpl; try reflexivity.
  destruct (d >? 0); [|reflexivity]. destruct (d - 1 <=? 0); reflexivity.
Qed.

Lemma find_after_decrement cs cid c :
  find_character cs cid = Some c ->
  find_character (decrementMadnessDuration cs) cid = Some (tick c).
Proof.
  intros H. unfold decrementMadnessDuration.
  rewrite find_character_map by apply tick_id.
  rewrite H. reflexivity.
Qed.

Lemma processKeeperResponse_lastFailed response s :
  lastFailedSkillCheck (processKeeperResponse response s)
  = lastFailedSkillCheck s.
Proof.
  unfold processKeeperResponse.
  destruct (madnessRecovery response), (gameClear response), (gameOver response);
    reflexivity.
Qed.

Lemma no_offer_after_response response s :
  lastFailedSkillCheck s = None ->
  pushOffered (processKeeperResponse response s) = false.
Proof.
  intros H. unfold pushOffered.
  rewrite processKeeperResponse_lastFailed, H. reflexivity.
Qed.

(** What declining and accepting do in a state that holds a failed
    check. *)
Lemma decline_forwards (s : State) (f : FailedCheck) (c : Character) :
  lastFailedSkillCheck s = Some f -> chatSession s = true ->
  find_character (characters s) (fc_characterId f) = Some c ->
  exists s2 text,
    handleDeclinePushRoll s = Some s2
    /\ sent s2 = sent s ++
         [mkRequest text (characters s)
            (Some (mkRollResult (name c) (fc_skill f) (fc_value f)
                     (fc_result f) (fc_dice f)))]
    /\ lastFailedSkillCheck s2 = None.
Proof.
  intros Hf Hc Hfind. unfold handleDeclinePushRoll.
  rewrite Hf, Hc, Hfind. simpl. do 2 eexists. repeat split.
Qed.

Lemma accept_rerolls_once (s : State) (f : FailedCheck) (c : Character) :
  lastFailedSkillCheck s = Some f -> chatSession s = true ->
  find_character (characters s) (fc_characterId f) = Some c ->
  exists reason onComplete,
    handlePushRoll s = Some (Roll "1d100" reason onComplete)
    /\ forall r1, exists s2 text,
         onComplete r1 = Ret s2
         /\ sent s2 = sent s ++
              [mkRequest text (characters s)
                 (Some (mkRollResult (name c) (fc_skill f) (fc_value f)
                          (label (resolve r1 (fc_value f))) r1))]
         /\ lastFailedSkillCheck s2 = None.
Proof.
  intros Hf Hc Hfind. unfold handlePushRoll.
  rewrite Hf, Hc, Hfind. simpl. do 2 eexists. split; [reflexivity|].
  intros r1. do 2 eexists. split; [reflexivity|].
  unfold pushRoll_onComplete. rewrite pushRoll_result_spec. simpl.
  split; reflexivity.
Qed.

(** C7.  After a skill or stat check that is not a success the failed
    result is kept, with its dice value, target and tier label, and
    nothing is sent.  Declining the push-roll sends exactly that result
    to the narrator.  Accepting opens one roll dialog for 1d100; whatever
    it shows is resolved against the same target and sent as the only
    request, success or not.  Either way no failed check is kept, so no
    further push-roll is offered, also not after the narrator's answer. *)
Theorem push_roll_protocol
    (s0 : State) (c : Character) (cid skill reason : string)
    (stat : StatName) (m : Multiplier) (viaStat : bool) (r0 : Z) :
  chatSession s0 = true ->
  find_character (characters s0) cid = Some c ->
  let target :=
    if viaStat then times_multiplier (get_stat (stats c) stat) (multiplier_param m)
    else default 0 (skills c !! remove_brackets skill) in
  let check :=
    if viaStat then handleStatCheck s0 stat m reason cid
    else handleSkillCheck s0 skill cid in
  is_success (resolve r0 target) = false ->
  exists s1 checkName,
    after_roll check r0 = Some s1
    /\ lastFailedSkillCheck s1
       = Some (mkFailedCheck cid checkName target r0 (label (resolve r0 target)))
    /\ sent s1 = sent s0
    /\ (exists s2 text,
          handleDeclinePushRoll s1 = Some s2
          /\ sent s2 = sent s1 ++
               [mkRequest text (characters s1)
                  (Some (mkRollResult (name c) checkName target
                           (label (resolve r0 target)) r0))]
          /\ lastFailedSkillCheck s2 = None
          /\ forall response,
               pushOffered (processKeeperResponse response s2) = false)
    /\ (exists reason' onComplete,
          handlePushRoll s1 = Some (Roll "1d100" reason' onComplete)
          /\ forall r1, exists s2 text,
               onComplete r1 = Ret s2
               /\ sent s2 = sent s1 ++
                    [mkRequest text (characters s1)
                       (Some (mkRollResult (name c) checkName target
                                (label (resolve r1 target)) r1))]
               /\ lastFailedSkillCheck s2 = None
               /\ pushOffered s2 = false
               /\ forall response,
                    pushOffered (processKeeperResponse response s2) = false).
Proof.
  intros Hc Hfind target check Hfail.
  assert (Hkept : exists s1 checkName,
            after_roll check r0 = Some s1
            /\ lastFailedSkillCheck s1
               = Some (mkFailedCheck cid checkName target r0
                         (label (resolve r0 target)))
            /\ sent s1 = sent s0
            /\ chatSession s1 = true
            /\ characters s1 = decrementMadnessDuration (characters s0)).
  { subst check target. destruct viaStat.
    - eexists. eexists. split; [apply after_statCheck, Hfind|].
      unfold statCheck_onComplete.
      rewrite statCheck_result_spec, isSuccess_label, Hfail. simpl.
      repeat split. exact Hc.
    - eexists. eexists. split; [apply after_skillCheck, Hfind|].
      unfold skillCheck_onComplete.
      rewrite skillCheck_result_spec, isSuccess_label, Hfail. simpl.
      repeat split. exact Hc. }
  destruct Hkept as (s1 & checkName & Hafter & Hkept & Hsent & Hc1 & Hcs1).
  assert (Hfind1 : find_character (characters s1) cid = Some (tick c)).
  { rewrite Hcs1. apply find_after_decrement, Hfind. }
  exists s1, checkName. split; [exact Hafter|]. split; [exact Hkept|].
  split; [exact Hsent|]. split.
  - destruct (decline_forwards s1 _ (tick c) Hkept Hc1 Hfind1)
      as (s2 & text & Hd & Hs & Hl).
    exists s2, text. simpl in Hs. rewrite tick_name in Hs.
    repeat split; try assumption.
    intros response. apply no_offer_after_response, Hl.
  - destruct (accept_rerolls_once s1 _ (tick c) Hkept Hc1 Hfind1)
      as (reason' & onComplete & Hp & Hall).
    exists reason', onComplete. split; [exact Hp|].
    intros r1. destruct (Hall r1) as (s2 & text & Hk & Hs & Hl).
    exists s2, text. simpl in Hs. rewrite tick_name in Hs.
    repeat split; try assumption.
    + unfold pushOffered. rewrite Hl. reflexivity.
    + intros response. apply no_offer_after_response, Hl.
Qed.

Lemma push_roll_protocol_witness :
  chatSession Sample.table = true
  /\ find_character (characters Sample.table) "c1" = Some Sample.investigator
  /\ is_success (resolve 77 60) = false
  /\ exists s1 checkName,
       after_roll (handleSkillCheck Sample.table "〈目星〉" "c1") 77 = Some s1
       /\ lastFailedSkillCheck s1
          = Some (mkFailedCheck "c1" checkName 60 77 "失敗").
Proof.
  split; [reflexivity|split; [reflexivity|split; [reflexivity|]]].
  destruct (push_roll_protocol Sample.table Sample.investigator "c1" "〈目星〉"
              "" STR mult_undefined false 77 eq_refl eq_refl eq_refl)
    as (s1 & checkName & H1 & H2 & _).
  exists s1, checkName. split; [exact H1|exact H2].
Defined.

End PushProofs.

(** * Strings: white space, digits and the dice pattern *)

Module StringProofs.
Import Js Str DiceUtil GamePlay Spec.

(** ** White space *)

Lemma byte_is_plain (x : ascii) (n : nat) :
  byte_is x n = true -> (128 <= n)%nat -> plain_byte x = true.
Proof.
  unfold byte_is, plain_byte. intros H Hn. apply Nat.eqb_eq in H.
  rewrite H, (proj2 (Nat.leb_le 128 n) Hn). apply orb_true_r.
Qed.

Lemma tail_plain (c : ascii) :
  is_general_space_tail c = true -> plain_byte c = true.
Proof.
  unfold is_general_space_tail. intros H.
  repeat (apply orb_true_iff in H; destruct H as [H|H]).
  - apply andb_true_iff in H. destruct H as [H _].
    unfold plain_byte. rewrite H. apply orb_true_r.
  - apply (byte_is_plain c 168 H). lia.
  - apply (byte_is_plain c 169 H). lia.
  - apply (byte_is_plain c 175 H). lia.
Qed.

(** The bytes of a white-space character are plain. *)
Lemma space_width_plain (a : ascii) (r : string) (k : nat) :
  space_width (String a r) = S k ->
  plain_byte a = true /\ plain_prefix k r = true.
Proof.
  unfold space_width. destruct (is_space a) eqn:Ea.
  - intros H. injection H as <-. split; [|reflexivity].
    unfold plain_byte. rewrite Ea. rewrite orb_true_r. reflexivity.
  - destruct r as [|b r']; [discriminate|].
    destruct (byte_is a 194 && byte_is b 160) eqn:E2.
    + intros H. injection H as <-.
      apply andb_true_iff in E2. destruct E2 as [Ha Hb].
      split; [apply (byte_is_plain a 194 Ha); lia|].
      simpl. rewrite (byte_is_plain b 160 Hb) by lia. reflexivity.
    + destruct r' as [|c r'']; [discriminate|].
      match goal with |- (if ?b then _ else _) = _ -> _ => destruct b eqn:E3 end;
        [|discriminate].
      intros H. injection H as <-.
      assert (Hall : plain_byte a = true /\ plain_byte b = true
                     /\ plain_byte c = true).
      { repeat (apply orb_true_iff in E3; destruct E3 as [E3|E3]);
          apply andb_true_iff in E3; destruct E3 as [E3 Hc];
          apply andb_true_iff in E3; destruct E3 as [Ha Hb];
          (split; [eapply byte_is_plain; [exact Ha|lia]|]);
          (split; [eapply byte_is_plain; [exact Hb|lia]|]);
          first [apply tail_plain; exact Hc
                | eapply byte_is_plain; [exact Hc|lia]]. }
      destruct Hall as (Ha & Hb & Hc).
      split; [exact Ha|]. simpl. rewrite Hb, Hc. reflexivity.
Qed.

(** No white-space character begins with an ASCII byte that is not white
    space itself. *)
Lemma space_width_ascii (a : ascii) (r : string) :
  is_space a = false -> (nat_of_ascii a < 128)%nat ->
  space_width (String a r) = 0%nat.
Proof.
  intros Hs Hlt. unfold space_width. rewrite Hs.
  assert (Hb : forall n, (128 <= n)%nat -> byte_is a n = false).
  { intros n Hn. unfold byte_is. apply Nat.eqb_neq. lia. }
  destruct r as [|b [|c r'']]; [reflexivity| |];
    rewrite !Hb by lia; reflexivity.
Qed.

Lemma digit_byte (c : ascii) :
  is_digit c = true ->
  is_space c = false /\ (nat_of_ascii c < 128)%nat /\ plain_byte c = true
  /\ 0 <= digit_value c.
Proof.
  unfold is_digit, is_space, plain_byte, digit_value, is_digit. intros H.
  rewrite H. apply andb_true_iff in H. destruct H as [H1 H2].
  apply Nat.leb_le in H1. apply Nat.leb_le in H2.
  split; [|split; [lia|split; [reflexivity|lia]]].
  apply orb_false_iff. split.
  - apply andb_false_iff. right. apply Nat.leb_gt. lia.
  - apply Nat.eqb_neq. lia.
Qed.

Lemma digit_no_width (c : ascii) (r : string) :
  is_digit c = true -> space_width (String c r) = 0%nat.
Proof.
  intros H. destruct (digit_byte c H) as (Hs & Hlt & _).
  apply space_width_ascii; assumption.
Qed.

Lemma all_space_plain (s : string) : forall k,
  all_space_from k s = true -> plain_prefix k s = true -> all_plain s = true.
Proof.
  induction s as [|c r IH]; intros k Hsp Hpre; [reflexivity|].
  destruct k as [|k].
  - cbn [all_space_from] in Hsp.
    destruct (space_width (String c r)) as [|k] eqn:W; [discriminate|].
    destruct (space_width_plain c r k W) as [Hc Hr].
    cbn [all_plain]. rewrite Hc. exact (IH k Hsp Hr).
  - cbn [all_space_from] in Hsp. cbn [plain_prefix] in Hpre.
    apply andb_true_iff in Hpre. destruct Hpre as [Hc Hr].
    cbn [all_plain]. rewrite Hc. exact (IH k Hsp Hr).
Qed.

Lemma plain_prefix_0 (s : string) : plain_prefix 0 s = true.
Proof. destruct s; reflexivity. Qed.

Lemma trimEnd_plain (s : string) :
  all_digits (trimEnd s) = true -> all_plain s = true.
Proof.
  induction s as [|c r IH]; intros H; [reflexivity|].
  cbn [trimEnd] in H.
  destruct (all_space_from 0 (String c r)) eqn:E.
  - exact (all_space_plain _ 0%nat E (plain_prefix_0 _)).
  - cbn [all_digits] in H. apply andb_true_iff in H. destruct H as [Hc Hr].
    cbn [all_plain]. destruct (digit_byte c Hc) as (_ & _ & -> & _).
    exact (IH Hr).
Qed.

Lemma trimStart_plain (s : string) : forall k,
  all_plain (trimStart_from k s) = true -> plain_prefix k s = true ->
  all_plain s = true.
Proof.
  induction s as [|c r IH]; intros k H Hpre; [reflexivity|].
  destruct k as [|k].
  - cbn [trimStart_from] in H.
    destruct (space_width (String c r)) as [|k] eqn:W; [exact H|].
    destruct (space_width_plain c r k W) as [Hc Hr].
    cbn [all_plain]. rewrite Hc. exact (IH k H Hr).
  - cbn [trimStart_from] in H. cbn [plain_prefix] in Hpre.
    apply andb_true_iff in Hpre. destruct Hpre as [Hc Hr].
    cbn [all_plain]. rewrite Hc. exact (IH k H Hr).
Qed.

(** A string that is digits only once trimmed holds digits and white
    space only. *)
Lemma trim_digits_plain (s : string) :
  all_digits (trim s) = true -> all_plain s = true.
Proof.
  intros H. unfold trim in H.
  apply (trimStart_plain s 0%nat); [|apply plain_prefix_0].
  apply trimEnd_plain, H.
Qed.

Lemma plain_no_d (s : string) : all_plain s = true -> has_d s = false.
Proof.
  induction s as [|c r IH]; intros H; [reflexivity|].
  cbn [all_plain] in H. apply andb_true_iff in H. destruct H as [Hc Hr].
  cbn [has_d]. rewrite (IH Hr), orb_false_r.
  destruct (Ascii.eqb_spec c "d") as [->|_]; [discriminate Hc|].
  destruct (Ascii.eqb_spec c "D") as [->|_]; [discriminate Hc|reflexivity].
Qed.

(** ** Digits *)

Lemma span_all_digits (s : string) :
  all_digits s = true -> span_digits s = (s, EmptyString).
Proof.
  induction s as [|c r IH]; intros H; [reflexivity|].
  simpl in H. apply andb_true_iff in H. destruct H as [Hc Hr].
  simpl. rewrite Hc, (IH Hr). reflexivity.
Qed.

Lemma span_digits_append (s : string) : forall g r,
  span_digits s = (g, r) -> s = (g ++ r)%string.
Proof.
  induction s as [|c s IH]; intros g r H.
  - injection H as <- <-. reflexivity.
  - cbn [span_digits] in H. destruct (is_digit c).
    + pose proof (IH _ _ (surjective_pairing (span_digits s))) as Hs.
      destruct (span_digits s) as [d rest]. injection H as <- <-.
      change (String c s = String c (d ++ rest)%string). f_equal. exact Hs.
    + injection H as <- <-. reflexivity.
Qed.

Lemma span_digits_head (s : string) c g r :
  span_digits s = (String c g, r) ->
  exists x, s = String c x /\ is_digit c = true.
Proof.
  destruct s as [|a s]; [discriminate|].
  cbn [span_digits]. destruct (is_digit a) eqn:E; [|discriminate].
  destruct (span_digits s) as [d rest]. intros H. injection H as <- _ _.
  exists s. split; [reflexivity|exact E].
Qed.

Lemma digits_value_nonneg (s : string) : forall acc,
  0 <= acc -> all_digits s = true -> 0 <= digits_value acc s.
Proof.
  induction s as [|c r IH]; intros acc Hacc H; [exact Hacc|].
  simpl in H. apply andb_true_iff in H. destruct H as [Hc Hr].
  simpl. apply IH; [|exact Hr].
  destruct (digit_byte c Hc) as (_ & _ & _ & Hv). lia.
Qed.

(** [parseInt] of a non-empty string of digits is its decimal value. *)
Lemma parseInt_digits (s : string) :
  s <> EmptyString -> all_digits s = true ->
  parseInt s = Some (digits_value 0 s).
Proof.
  intros Hne H. destruct s as [|c r]; [congruence|].
  pose proof H as H'. simpl in H'. apply andb_true_iff in H'.
  destruct H' as [Hc _].
  unfold parseInt, trimStart. cbn [trimStart_from].
  rewrite (digit_no_width c r Hc).
  assert (Hspan := span_all_digits _ H).
  destruct c as [[] [] [] [] [] [] [] []]; try discriminate Hc;
    rewrite Hspan; reflexivity.
Qed.

(** ** Fixed values *)

(** [parseFixedOrRoll] returns the fixed value of a notation that has
    one, and [-1] for every other. *)
Lemma parseFixedOrRoll_spec (notation : string) :
  parseFixedOrRoll notation
  = match fixed_value notation with Some n => n | None => -1 end.
Proof.
  unfold parseFixedOrRoll, isFixedValue, fixed_value.
  destruct (trim notation) as [|c r] eqn:E; [reflexivity|].
  destruct (all_digits (String c r)) eqn:H; [|reflexivity].
  rewrite (parseInt_digits (String c r) ltac:(discriminate) H). reflexivity.
Qed.

Lemma fixed_value_nonneg (notation : string) (n : Z) :
  fixed_value notation = Some n -> 0 <= n.
Proof.
  unfold fixed_value. destruct (trim notation) as [|c r]; [discriminate|].
  destruct (all_digits (String c r)) eqn:H; [|discriminate].
  intros E. injection E as <-.
  apply (digits_value_nonneg (String c r) 0); [lia|exact H].
Qed.

Lemma fixed_value_no_d (notation : string) (n : Z) :
  fixed_value notation = Some n -> has_d notation = false.
Proof.
  unfold fixed_value. intros H. apply plain_no_d, trim_digits_plain.
  destruct (trim notation) as [|c r]; [discriminate|].
  destruct (all_digits (String c r)); [reflexivity|discriminate].
Qed.

(** ** The dice pattern *)

Lemma has_die_after_digits (g1 : string) (c2 : ascii) (x : string) :
  is_digit c2 = true ->
  has_die (g1 ++ String "d" (String c2 x)) = true.
Proof.
  intros H. induction g1 as [|c g1 IH].
  - change (has_die (String "d" (String c2 x)) = true).
    cbn [has_die]. rewrite H. reflexivity.
  - change (has_die (String c (g1 ++ String "d" (String c2 x))) = true).
    cbn [has_die]. rewrite IH. apply orb_true_r.
Qed.

(** Where the pattern matches, a d is followed by a digit. *)
Lemma match_here_die (s : string) m :
  match_here s = Some m -> has_die s = true.
Proof.
  unfold match_here. destruct (span_digits s) as [g1 r1] eqn:E1.
  destruct r1 as [|c r2]; [discriminate|].
  destruct (Ascii.eqb c "d") eqn:Ec.
  - apply Ascii.eqb_eq in Ec. subst c.
    destruct (span_digits r2) as [g2 r3] eqn:E2.
    destruct g2 as [|c2 g2]; [discriminate|].
    intros _. destruct (span_digits_head _ _ _ _ E2) as (x & -> & Hd).
    rewrite (span_digits_append _ _ _ E1).
    apply has_die_after_digits, Hd.
  - destruct c as [[] [] [] [] [] [] [] []]; try discriminate Ec; discriminate.
Qed.

Lemma has_die_tail (c : ascii) (r : string) :
  has_die (String c r) = false -> has_die r = false.
Proof. cbn [has_die]. intros H. apply orb_false_iff in H. apply H. Qed.

(** Without a d followed by a digit the pattern matches nowhere. *)
Lemma no_die_no_match (s : string) :
  has_die s = false -> regex_match s = None.
Proof.
  induction s as [|c r IH]; intros H.
  - reflexivity.
  - cbn [regex_match].
    destruct (match_here (String c r)) as [m|] eqn:E.
    + rewrite (match_here_die _ _ E) in H. discriminate H.
    + apply IH, (has_die_tail c r H).
Qed.

Lemma has_die_has_d (s : string) : has_die s = true -> has_d s = true.
Proof.
  induction s as [|c r IH]; intros H; [discriminate|].
  cbn [has_die] in H. cbn [has_d].
  apply orb_true_iff in H. destruct H as [H|H].
  - apply andb_true_iff in H. destruct H as [-> _]. reflexivity.
  - rewrite (IH H). apply orb_true_r.
Qed.

Lemma remove_spaces_has_d (s : string) : forall k,
  has_d (remove_spaces_from k s) = true -> has_d s = true.
Proof.
  induction s as [|c r IH]; intros k H; [exact H|].
  cbn [has_d].
  assert (Hskip : forall j, has_d (remove_spaces_from j r) = true ->
                    Ascii.eqb c "d" || Ascii.eqb c "D" || has_d r = true).
  { intros j Hj. rewrite (IH j Hj). apply orb_true_r. }
  destruct k as [|k]; cbn [remove_spaces_from] in H; [|exact (Hskip k H)].
  destruct (space_width (String c r)) as [|j]; [|exact (Hskip j H)].
  cbn [has_d] in H. apply orb_true_iff in H. destruct H as [H|H].
  - rewrite H. reflexivity.
  - exact (Hskip 0%nat H).
Qed.

Lemma lower_d (c : ascii) :
  Ascii.eqb (lower c) "d" || Ascii.eqb (lower c) "D"
  = Ascii.eqb c "d" || Ascii.eqb c "D".
Proof. destruct c as [[] [] [] [] [] [] [] []]; reflexivity. Qed.

Lemma toLowerCase_has_d (s : string) : has_d (toLowerCase s) = has_d s.
Proof.
  induction s as [|c r IH]; [reflexivity|].
  cbn [toLowerCase has_d]. rewrite lower_d, IH. reflexivity.
Qed.

(** A notation without the letter d holds no die once sanitized. *)
Lemma no_d_no_die (notation : string) :
  has_d notation = false ->
  has_die (remove_spaces (toLowerCase notation)) = false.
Proof.
  intros H. destruct (has_die _) eqn:E; [|reflexivity].
  apply has_die_has_d in E. apply remove_spaces_has_d in E.
  rewrite toLowerCase_has_d in E. congruence.
Qed.

Lemma parseAndRoll_unrecognized (notation : string) (g : Rng) :
  has_die (remove_spaces (toLowerCase notation)) = false ->
  parseAndRoll notation g = (0, g).
Proof.
  intros H. unfold parseAndRoll. rewrite (no_die_no_match _ H). reflexivity.
Qed.

End StringProofs.

(** * Sanity checks: the dialogs and the party afterwards *)

Module SanityProofs.
Import Js GamePlay Spec Observe PushProofs StringProofs.

Lemma update_lookup charId upd (cs : list Character) i c0 :
  cs !! i = Some c0 ->
  updateCharacterState charId upd cs !! i
  = Some (if String.eqb (id c0) charId then upd c0 else c0).
Proof.
  intros H. unfold updateCharacterState. rewrite list_lookup_fmap, H. reflexivity.
Qed.

Lemma decrement_lookup (cs : list Character) i c0 :
  cs !! i = Some c0 -> decrementMadnessDuration cs !! i = Some (tick c0).
Proof.
  intros H. unfold decrementMadnessDuration. rewrite list_lookup_fmap, H.
  reflexivity.
Qed.

Lemma apply_san_result_id newSan m c : id (apply_san_result newSan m c) = id c.
Proof. reflexivity. Qed.

(** The draws left after [checkForMadness] are draws in [0,1). *)
Lemma checkForMadness_rng (c : Character) (sanLoss : Z) (g : Rng) :
  rng_ok g -> rng_ok (snd (checkForMadness c sanLoss g)).
Proof.
  intros Hg. unfold checkForMadness.
  destruct (sanLoss >=? _); [intros n; apply Hg|].
  destruct (sanLoss >=? 5); intros n; apply Hg.
Qed.

(** ** The dialogs *)

Lemma fixed_geb (notation : string) :
  (parseFixedOrRoll notation >=? 0) = is_some (fixed_value notation).
Proof.
  rewrite parseFixedOrRoll_spec.
  destruct (fixed_value notation) as [n|] eqn:E; [|reflexivity].
  apply Z.geb_le, (fixed_value_nonneg _ _ E).
Qed.

Lemma fixed_known (notation : string) (n : Z) :
  fixed_value notation = Some n -> parseFixedOrRoll notation = n.
Proof. intros H. rewrite parseFixedOrRoll_spec, H. reflexivity. Qed.

(** The check of a single character: what the callback of the 1d100 does
    is read off the side of the notation that applies. *)
Lemma single_answer s s' c cid roll reason currentSan sanRoll (vs : list Z) :
  answer (sanCheck_onComplete s s' c cid roll reason currentSan sanRoll) vs
  = match side_loss (loss_side roll (sanRoll <=? currentSan)) vs with
    | Some (sanLoss, ns, _) =>
        Some (sanLoss_known s s' c cid reason sanRoll currentSan
                (sanRoll <=? currentSan) sanLoss, ns)
    | None => None
    end.
Proof.
  unfold sanCheck_onComplete, loss_side, side_loss. cbv zeta.
  set (side := match Str.split "/" roll with
               | [p0; p1] => if sanRoll <=? currentSan then p0 else p1
               | _ => roll
               end).
  rewrite fixed_geb.
  destruct (fixed_value side) as [n|] eqn:E; cbn [is_some].
  - rewrite (fixed_known _ _ E). reflexivity.
  - destruct vs as [|v vs]; reflexivity.
Qed.

Lemma anySuccess_results (cs : list Character) (sanCheckRoll : Z) :
  existsb (fun r => snd r) (san_results cs sanCheckRoll)
  = anySuccess cs sanCheckRoll.
Proof.
  unfold san_results, anySuccess.
  induction cs as [|c cs IH]; [reflexivity|]. simpl. rewrite IH. reflexivity.
Qed.

Lemma anyFailure_results (cs : list Character) (sanCheckRoll : Z) :
  existsb (fun r => negb (snd r)) (san_results cs sanCheckRoll)
  = anyFailure cs sanCheckRoll.
Proof.
  unfold san_results, anyFailure.
  induction cs as [|c cs IH]; [reflexivity|]. simpl. rewrite IH. reflexivity.
Qed.

Ltac side_step :=
  match goal with
  | |- context [parseFixedOrRoll ?p >=? 0] =>
      rewrite (fixed_geb p);
      let n := fresh "n" in let E := fresh "E" in
      destruct (fixed_value p) as [n|] eqn:E; cbn [is_some];
      [rewrite ?(fixed_known p n E)|]
  end.

(** The party-wide check: what the callback of the shared 1d100 does is
    read off the two sides of the notation. *)
Lemma party_answer s s' roll reason firstRoll (vs : list Z) :
  answer (sanCheckAll_onComplete s s' roll reason firstRoll) vs
  = match party_losses roll (anySuccess (characters s) firstRoll)
            (anyFailure (characters s) firstRoll) vs with
    | Some (successLoss, failureLoss, ns) =>
        Some (processAllCharactersSanCheck s s'
                (san_results (characters s) firstRoll)
                successLoss failureLoss reason, ns)
    | None => None
    end.
Proof.
  unfold sanCheckAll_onComplete, party_losses, side_loss. cbv zeta.
  rewrite anySuccess_results, anyFailure_results.
  destruct (Str.split "/" roll) as [|p0 [|p1 [|p2 rest]]]; cbv iota beta.
  3: destruct (anySuccess (characters s) firstRoll),
              (anyFailure (characters s) firstRoll); cbn [andb orb negb].
  all: repeat side_step.
  all: try reflexivity.
  all: destruct vs as [|v1 vs]; try reflexivity; cbn [answer].
  all: repeat side_step.
  all: try reflexivity.
  all: destruct vs as [|v2 vs]; reflexivity.
Qed.

(** ** The party afterwards *)

Lemma sanLoss_known_characters s s' c cid reason sanRoll currentSan isSuccess
    sanLoss g :
  characters (fst (sanLoss_known s s' c cid reason sanRoll currentSan
                     isSuccess sanLoss g))
  = updateCharacterState cid
      (apply_san_result (Z.max 0 (current (san c) - sanLoss))
         (fst (checkForMadness c sanLoss g)))
      (characters s').
Proof.
  unfold sanLoss_known, bind.
  destruct (checkForMadness c sanLoss g) as [madnessResult g'].
  cbn [fst]. unfold Math_max.
  destruct (Z.max 0 (current (san c) - sanLoss) <=? 0); [reflexivity|].
  unfold handleSystemAction, ret, fst.
  destruct (chatSession s); reflexivity.
Qed.

(** After the check of a single character every member is a round
    older, and those with the id of the check carry the new SAN and the
    madness that set in. *)
Lemma single_member s s' c cid reason sanRoll currentSan isSuccess sanLoss g
    i c0 :
  characters s' = decrementMadnessDuration (characters s) ->
  characters s !! i = Some c0 ->
  characters (fst (sanLoss_known s s' c cid reason sanRoll currentSan
                     isSuccess sanLoss g)) !! i
  = Some (if String.eqb (id c0) cid
          then apply_san_result (Z.max 0 (current (san c) - sanLoss))
                 (fst (checkForMadness c sanLoss g)) (tick c0)
          else tick c0).
Proof.
  intros Hs' Hi. rewrite sanLoss_known_characters, Hs'.
  rewrite (update_lookup _ _ _ _ _ (decrement_lookup _ _ _ Hi)).
  rewrite tick_id. reflexivity.
Qed.

(** The madness a member of the party gets for a loss: none is looked
    for when nothing is lost. *)
Local Abbreviation party_madness c loss g :=
  (if loss >? 0 then fst (checkForMadness c loss g) else no_madness).

Lemma party_madness_rng (c : Character) (loss : Z) (g : Rng) :
  rng_ok g ->
  rng_ok (snd ((if loss >? 0 then checkForMadness c loss else ret no_madness) g)).
Proof.
  intros Hg. destruct (loss >? 0); [apply checkForMadness_rng, Hg|exact Hg].
Qed.

Lemma party_madness_fst (c : Character) (loss : Z) (g : Rng) :
  fst ((if loss >? 0 then checkForMadness c loss else ret no_madness) g)
  = party_madness c loss g.
Proof. destruct (loss >? 0); reflexivity. Qed.

(** The loop over the results, seen from one position of the party.  A
    character whose id no result carries stays as they are; when the ids
    of the results differ from one another, the character whose id a
    result carries is updated once, by that result. *)
Lemma process_results_member rs : forall sL fL cur am go g i c0,
  cur !! i = Some c0 ->
  ((forall c r b, In (c, r, b) rs -> id c <> id c0) ->
   (fst (process_results rs sL fL cur am go g)).1.1 !! i = Some c0)
  /\ (NoDup (map (fun x => id x.1.1) rs) ->
      forall c r b, In (c, r, b) rs -> id c = id c0 ->
      exists gi,
        (rng_ok g -> rng_ok gi)
        /\ (fst (process_results rs sL fL cur am go g)).1.1 !! i
           = Some (apply_san_result
                     (Z.max 0 (current (san c) - (if b : bool then sL else fL)))
                     (party_madness c (if b : bool then sL else fL) gi) c0)).
Proof.
  induction rs as [|[[ch r1] b1] rest IH]; intros sL fL cur am go g i c0 Hi.
  - split; [intros _; exact Hi|]. intros _ c r b [].
  - cbn [process_results]. unfold bind at 1. unfold bind at 1.
    pose proof (party_madness_rng ch (if b1 then sL else fL) g) as Hg'.
    pose proof (party_madness_fst ch (if b1 then sL else fL) g) as Hm.
    destruct ((if (if b1 then sL else fL) >? 0
               then checkForMadness ch (if b1 then sL else fL)
               else ret no_madness) g) as [madnessResult g'].
    cbn [fst snd] in Hg', Hm.
    pose proof (update_lookup (id ch)
                  (apply_san_result
                     (Math_max 0 (current (san ch) - (if b1 then sL else fL)))
                     madnessResult) cur i c0 Hi) as Hi'.
    split.
    + intros Hno.
      assert (Hne : id ch <> id c0) by (apply (Hno ch r1 b1); left; reflexivity).
      destruct (String.eqb_spec (id c0) (id ch)) as [E|_]; [congruence|].
      match goal with
      | |- context [process_results rest sL fL ?cur' ?am' ?go' g'] =>
          destruct (IH sL fL cur' am' go' g' i c0 Hi') as [Hkeep _]
      end.
      apply Hkeep. intros c r b Hin. apply (Hno c r b). right. exact Hin.
    + intros Hnd c r b [Heq|Hin] Hidc.
      * injection Heq as -> -> ->.
        rewrite <- Hidc, String.eqb_refl in Hi'.
        match goal with
        | |- context [process_results rest sL fL ?cur' ?am' ?go' g'] =>
            destruct (IH sL fL cur' am' go' g' i _ Hi') as [Hkeep _]
        end.
        exists g. split; [exact (fun H => H)|]. rewrite Hkeep.
        -- rewrite Hm. reflexivity.
        -- inversion Hnd as [|? ? Hnotin _]; subst.
           intros c2 r2 b2 Hin2 Hid2. apply Hnotin. cbn [fst].
           apply list_elem_of_In, in_map_iff. exists (c2, r2, b2).
           split; [|exact Hin2]. cbn [fst].
           rewrite apply_san_result_id in Hid2. congruence.
      * inversion Hnd as [|? ? Hnotin Hnd']; subst.
        assert (Hne : id ch <> id c0).
        { intros E. apply Hnotin. cbn [fst].
          apply list_elem_of_In, in_map_iff. exists (c, r, b).
          split; [|exact Hin]. cbn [fst]. congruence. }
        destruct (String.eqb_spec (id c0) (id ch)) as [E|_]; [congruence|].
        match goal with
        | |- context [process_results rest sL fL ?cur' ?am' ?go' g'] =>
            destruct (IH sL fL cur' am' go' g' i c0 Hi') as [_ Hset]
        end.
        destruct (Hset Hnd' c r b Hin Hidc) as (gi & Hgi & Hc).
        exists gi. split; [intros Hg; apply Hgi, Hg', Hg|exact Hc].
Qed.

Lemma processAll_characters s s' results sL fL reason g :
  characters (fst (processAllCharactersSanCheck s s' results sL fL reason g))
  = (fst (process_results results sL fL (characters s') false None g)).1.1.
Proof.
  unfold processAllCharactersSanCheck, bind.
  destruct (process_results _ _ _ _ _ _ g) as [[[cs am] go] g'].
  destruct go; simpl; [reflexivity|].
  unfold handleSystemAction. destruct (chatSession s); reflexivity.
Qed.

(** After the party-wide check every member is a round older and
    carries the new SAN of their branch and the madness that set in. *)
Lemma party_member s s' sanCheckRoll sL fL reason g i c :
  NoDup (map id (characters s)) ->
  characters s' = decrementMadnessDuration (characters s) ->
  characters s !! i = Some c ->
  let loss := if sanCheckRoll <=? current (san c) then sL else fL in
  exists gi,
    (rng_ok g -> rng_ok gi)
    /\ characters (fst (processAllCharactersSanCheck s s'
                          (san_results (characters s) sanCheckRoll)
                          sL fL reason g)) !! i
       = Some (apply_san_result (Z.max 0 (current (san c) - loss))
                 (party_madness c loss gi) (tick c)).
Proof.
  intros Hnd Hs' Hi loss. rewrite processAll_characters, Hs'.
  destruct (process_results_member (san_results (characters s) sanCheckRoll)
              sL fL _ false None g i (tick c) (decrement_lookup _ _ _ Hi))
    as [_ Hset].
  apply (Hset) with (r := sanCheckRoll)
                    (b := sanCheckRoll <=? current (san c)).
  - unfold san_results. rewrite map_map. simpl. exact Hnd.
  - unfold san_results. apply in_map_iff. exists c. split; [reflexivity|].
    apply list_elem_of_In, list_elem_of_lookup. exists i. exact Hi.
  - symmetry. apply tick_id.
Qed.

(** With two results at hand the dialogs of a party-wide check never
    run out; at most two open, for the sides of the notation in their
    order. *)
Lemma party_losses_total roll (hasSuccess hasFailure : bool) (vs : list Z) :
  (2 <= length vs)%nat ->
  exists successLoss failureLoss ns,
    party_losses roll hasSuccess hasFailure vs
    = Some (successLoss, failureLoss, ns)
    /\ (length ns <= 2)%nat
    /\ match Str.split "/" roll with
       | [successRoll; failureRoll] => sublist ns [successRoll; failureRoll]
       | _ => sublist ns [roll]
       end.
Proof.
  intros Hvs. destruct vs as [|v1 [|v2 vs]]; simpl in Hvs; try lia.
  unfold party_losses, side_loss.
  destruct (Str.split "/" roll) as [|p0 [|p1 [|p2 rest]]]; cbv iota beta.
  3: destruct hasSuccess, hasFailure; cbn [orb negb];
     destruct (fixed_value p0), (fixed_value p1).
  all: try destruct (fixed_value roll).
  all: do 3 eexists; split; [reflexivity|].
  all: split; [simpl; lia|repeat constructor].
Qed.

(** The SAN and the id of a member after the party-wide check. *)
Lemma party_member_san s s' sanCheckRoll sL fL reason g i c :
  NoDup (map id (characters s)) ->
  characters s' = decrementMadnessDuration (characters s) ->
  characters s !! i = Some c ->
  exists c',
    characters (fst (processAllCharactersSanCheck s s'
                       (san_results (characters s) sanCheckRoll)
                       sL fL reason g)) !! i = Some c'
    /\ id c' = id c
    /\ current (san c')
       = Z.max 0 (current (san c)
                  - (if sanCheckRoll <=? current (san c) then sL else fL)).
Proof.
  intros Hnd Hs' Hi.
  destruct (party_member s s' sanCheckRoll sL fL reason g i c Hnd Hs' Hi)
    as (gi & _ & Hc).
  eexists. split; [exact Hc|]. split; [apply tick_id|reflexivity].
Qed.

(** ** Fixed sides *)

Lemma side_loss_fixed (side : string) (n : Z) (vs : list Z) :
  fixed_value side = Some n -> side_loss side vs = Some (n, [], vs).
Proof. intros H. unfold side_loss. rewrite H. reflexivity. Qed.

(** A dialog opens for a side without a fixed value only. *)
Lemma side_loss_rolled (side : string) (vs : list Z) loss ns rest :
  side_loss side vs = Some (loss, ns, rest) ->
  forall x, In x ns -> fixed_value x = None.
Proof.
  unfold side_loss. destruct (fixed_value side) as [n|] eqn:E.
  - intros H. injection H as _ <- _. intros x [].
  - destruct vs as [|v vs]; [discriminate|].
    intros H. injection H as _ <- _. intros x [<-|[]]. exact E.
Qed.

Lemma party_losses_rolled roll (hasSuccess hasFailure : bool) (vs : list Z)
    successLoss failureLoss ns :
  party_losses roll hasSuccess hasFailure vs
  = Some (successLoss, failureLoss, ns) ->
  forall x, In x ns -> fixed_value x = None.
Proof.
  unfold party_losses.
  assert (Hnone : forall (ws : list Z) l m rest,
            Some (0, @nil string, ws) = Some (l, m, rest) ->
            forall x, In x m -> fixed_value x = None).
  { intros ws l m rest H. injection H as _ <- _. intros x []. }
  assert (Hone : forall side,
            match side_loss side vs with
            | Some (loss, ns0, _) => Some (loss, loss, ns0)
            | None => None
            end = Some (successLoss, failureLoss, ns) ->
            forall x, In x ns -> fixed_value x = None).
  { intros side H.
    destruct (side_loss side vs) as [[[l m] rest]|] eqn:E; [|discriminate].
    injection H as _ _ <-. exact (side_loss_rolled _ _ _ _ _ E). }
  destruct (Str.split "/" roll) as [|p0 [|p1 [|p2 rest]]]; try apply Hone.
  destruct (if hasSuccess then side_loss p0 vs else Some (0, [], vs))
    as [[[l1 m1] vs1]|] eqn:E1; [|discriminate].
  destruct (if hasFailure || negb hasSuccess
            then side_loss p1 vs1 else Some (0, [], vs1))
    as [[[l2 m2] vs2]|] eqn:E2; [|discriminate].
  intros H. injection H as _ _ <-. intros x Hx.
  apply in_app_or in Hx. destruct Hx as [Hx|Hx].
  - destruct hasSuccess;
      [exact (side_loss_rolled _ _ _ _ _ E1 x Hx)|exact (Hnone _ _ _ _ E1 x Hx)].
  - destruct (hasFailure || negb hasSuccess);
      [exact (side_loss_rolled _ _ _ _ _ E2 x Hx)|exact (Hnone _ _ _ _ E2 x Hx)].
Qed.

Lemma anySuccess_member (cs : list Character) (sanCheckRoll : Z) c :
  In c cs -> (sanCheckRoll <=? current (san c)) = true ->
  anySuccess cs sanCheckRoll = true.
Proof.
  intros Hin H. unfold anySuccess. apply existsb_exists. exists c.
  split; [exact Hin|exact H].
Qed.

Lemma anyFailure_member (cs : list Character) (sanCheckRoll : Z) c :
  In c cs -> (sanCheckRoll <=? current (san c)) = false ->
  anyFailure cs sanCheckRoll = true.
Proof.
  intros Hin H. unfold anyFailure. apply existsb_exists. exists c.
  split; [exact Hin|]. rewrite H. reflexivity.
Qed.

(** A member whose side of the notation is a fixed value loses that
    value. *)
Lemma party_losses_member (cs : list Character) roll (sanCheckRoll : Z)
    (vs : list Z) successLoss failureLoss ns c n :
  party_losses roll (anySuccess cs sanCheckRoll) (anyFailure cs sanCheckRoll) vs
  = Some (successLoss, failureLoss, ns) ->
  In c cs ->
  fixed_value (loss_side roll (sanCheckRoll <=? current (san c))) = Some n ->
  (if sanCheckRoll <=? current (san c) then successLoss else failureLoss) = n.
Proof.
  intros H Hin Hfix. unfold party_losses in H. unfold loss_side in Hfix.
  assert (Hone : match side_loss roll vs with
                 | Some (loss, ns0, _) => Some (loss, loss, ns0)
                 | None => None
                 end = Some (successLoss, failureLoss, ns) ->
                 fixed_value roll = Some n ->
                 (if sanCheckRoll <=? current (san c)
                  then successLoss else failureLoss) = n).
  { intros H1 H2. rewrite (side_loss_fixed _ _ vs H2) in H1.
    injection H1 as <- <- _. destruct (_ <=? _); reflexivity. }
  destruct (Str.split "/" roll) as [|p0 [|p1 [|p2 rest]]];
    try exact (Hone H Hfix).
  destruct (sanCheckRoll <=? current (san c)) eqn:Ec.
  - rewrite (anySuccess_member cs sanCheckRoll c Hin Ec) in H.
    rewrite (side_loss_fixed _ _ vs Hfix) in H.
    destruct (if anyFailure cs sanCheckRoll || negb true
              then side_loss p1 vs else Some (0, [], vs))
      as [[[l2 m2] vs2]|]; [|discriminate].
    injection H as <- _ _. reflexivity.
  - rewrite (anyFailure_member cs sanCheckRoll c Hin Ec) in H.
    cbn [orb] in H.
    destruct (if anySuccess cs sanCheckRoll
              then side_loss p0 vs else Some (0, [], vs))
      as [[[l1 m1] vs1]|]; [|discriminate].
    rewrite (side_loss_fixed _ _ vs1 Hfix) in H.
    injection H as _ <- _. reflexivity.
Qed.

End SanityProofs.

(** * Sanity loss and madness *)

Module MadnessProofs.
Import Js GamePlay Spec Observe.

(** A fifth, rounded up, in integers. *)
Lemma ceil_fifth (n : Z) : Math_ceil (inject_Z n * 0.2) = (n + 4) / 5.
Proof.
  unfold Math_ceil, Qceiling, Qfloor, Qopp, Qmult, inject_Z. simpl.
  Z.div_mod_to_equations. lia.
Qed.

(** The doubles agree: for every SAN maximum from 1 to 4000 the double
    product [n * 0.2] has the ceiling that the rational product has. *)
Lemma ceil_fifth_in_doubles :
  forallb (fun n => double_ceil_fifth_is n (Math_ceil (inject_Z n * 0.2)))
    (map Z.of_nat (seq 1 4000)) = true.
Proof. vm_compute. reflexivity. Qed.

(** In doubles too a draw times the number of sides stays below it, for
    up to 1000 sides: a die, a duration and a symptom index stay in
    range. *)
Lemma draws_stay_in_range_in_doubles :
  forallb double_top_draw_below (map Z.of_nat (seq 1 1000)) = true.
Proof. vm_compute. reflexivity. Qed.

(** [Math.floor(u * n)] for a draw [u] and a positive [n]. *)
Lemma floor_draw_range (u : Q) (n : Z) :
  (0 <= u)%Q -> (u < 1)%Q -> 0 < n ->
  0 <= Math_floor (u * inject_Z n) < n.
Proof.
  intros H0 H1 Hn. unfold Math_floor.
  assert (Hn' : (0 < inject_Z n)%Q) by (change 0%Q with (inject_Z 0); rewrite <- Zlt_Qlt; exact Hn).
  split.
  - change 0 with (Qfloor 0). apply Qfloor_resp_le.
    apply Qmult_le_0_compat; [exact H0|apply Qlt_le_weak, Hn'].
  - rewrite Zlt_Qlt.
    apply Qle_lt_trans with (u * inject_Z n)%Q; [apply Qfloor_le|].
    rewrite <- (Qmult_1_l (inject_Z n)) at 2.
    apply Qmult_lt_compat_r; assumption.
Qed.

Lemma floor_bounds (x : Q) :
  (inject_Z (Math_floor x) <= x)%Q /\ (x < inject_Z (Math_floor x + 1))%Q.
Proof. split; [apply Qfloor_le|apply Qlt_floor]. Qed.

Lemma pick_in (arr : list string) (g : Rng) :
  rng_ok g -> arr <> [] -> In (fst (pick arr g)) arr.
Proof.
  intros Hg Harr. unfold pick, bind, Math_random, ret. cbv beta iota. unfold fst.
  destruct (Hg 0%nat) as [H0 H1].
  assert (Hlen : 0 < Z.of_nat (length arr)) by (destruct arr; [congruence|simpl; lia]).
  pose proof (floor_draw_range _ _ H0 H1 Hlen) as Hr.
  apply nth_In. lia.
Qed.

Lemma pick_rng (arr : list string) (g : Rng) :
  snd (pick arr g) = fun n => g (S n).
Proof. reflexivity. Qed.

Lemma geb_ge a b : (a >=? b) = true <-> b <= a.
Proof. rewrite Z.geb_leb. apply Z.leb_le. Qed.

Lemma geb_lt a b : (a >=? b) = false <-> a < b.
Proof. rewrite Z.geb_leb. apply Z.leb_gt. Qed.

(** The result of [checkForMadness] in closed form: the symptom is the
    first draw, the duration comes from the second. *)
Lemma checkForMadness_result (c : Character) (sanLoss : Z) (g : Rng) :
  fst (checkForMadness c sanLoss g)
  = if sanLoss >=? Math_ceil (inject_Z (max (san c)) * 0.2) then
      mkMadness (Some indefinite) (fst (pick INDEFINITE_MADNESS_SYMPTOMS g)) None
    else if sanLoss >=? 5 then
      mkMadness (Some temporary) (fst (pick TEMPORARY_MADNESS_SYMPTOMS g))
        (Some (Math_floor (g 1%nat * 6) + 1))
    else no_madness.
Proof.
  unfold checkForMadness.
  destruct (sanLoss >=? _); [reflexivity|].
  destruct (sanLoss >=? 5); reflexivity.
Qed.

(** C4.  [checkForMadness] compares the loss with a fifth of the SAN
    maximum, rounded up.  At or above it the result is indefinite
    madness without a duration, and applying it replaces whatever
    madness the character had.  Below it, a loss of 5 or more gives
    temporary madness with the duration [floor (6u) + 1] for the draw
    [u] in [0,1): an integer from 1 to 6, each for an interval of [u] of
    length one sixth.  Otherwise nothing sets in and applying the result
    keeps the madness the character had.

    The sanity check applies the result in this way.  After the check
    of a single character, with the loss read off the side of the
    notation that applies (a fixed value, or what the dialog returns),
    the members with the id of the check are a round older and carry the
    new SAN and this result, the others are a round older and nothing
    else.  After a party-wide check of a party with ids that differ, the
    member whose branch costs this loss is a round older and carries the
    new SAN and the result of [checkForMadness] for their own draws;
    there the function is called for a loss above 0 only. *)
Theorem madness_onset_by_thresholds
    (c : Character) (sanLoss : Z) (g : Rng) :
  rng_ok g ->
  let threshold := Math_ceil (inject_Z (max (san c)) * 0.2) in
  let result := fst (checkForMadness c sanLoss g) in
  threshold = (max (san c) + 4) / 5
  /\ (threshold <= sanLoss ->
        m_type result = Some indefinite
        /\ duration result = None
        /\ In (m_description result) INDEFINITE_MADNESS_SYMPTOMS
        /\ forall newSan c0,
             madness (apply_san_result newSan result c0) = Some result)
  /\ (sanLoss < threshold -> 5 <= sanLoss ->
        m_type result = Some temporary
        /\ In (m_description result) TEMPORARY_MADNESS_SYMPTOMS
        /\ (exists d,
              duration result = Some d /\ 1 <= d <= 6
              /\ (inject_Z (d - 1) <= g 1%nat * 6)%Q
              /\ (g 1%nat * 6 < inject_Z d)%Q)
        /\ forall newSan c0,
             madness (apply_san_result newSan result c0) = Some result)
  /\ (sanLoss < threshold -> sanLoss < 5 ->
        m_type result = None
        /\ forall newSan c0,
             madness (apply_san_result newSan result c0) = madness c0)
  /\ (forall s cid roll reason sanRoll vs ns rest i c0,
        String.eqb cid "all" = false ->
        find_character (characters s) cid = Some c ->
        side_loss (loss_side roll (sanRoll <=? current (san c))) vs
        = Some (sanLoss, ns, rest) ->
        characters s !! i = Some c0 ->
        exists reason1 onComplete leaf,
          handleSanityCheck s roll reason cid
          = Some (Roll "1d100" reason1 onComplete)
          /\ answer (onComplete sanRoll) vs = Some (leaf, ns)
          /\ characters (fst (leaf g)) !! i
             = Some (if String.eqb (id c0) cid
                     then apply_san_result
                            (Z.max 0 (current (san c) - sanLoss)) result
                            (tick c0)
                     else tick c0))
  /\ (forall s roll reason firstRoll vs successLoss failureLoss ns i,
        NoDup (map id (characters s)) ->
        party_losses roll (anySuccess (characters s) firstRoll)
          (anyFailure (characters s) firstRoll) vs
        = Some (successLoss, failureLoss, ns) ->
        characters s !! i = Some c ->
        (if firstRoll <=? current (san c) then successLoss else failureLoss)
        = sanLoss ->
        exists reason1 onComplete leaf gi,
          handleSanityCheck s roll reason "all"
          = Some (Roll "1d100" reason1 onComplete)
          /\ answer (onComplete firstRoll) vs = Some (leaf, ns)
          /\ rng_ok gi
          /\ characters (fst (leaf g)) !! i
             = Some (apply_san_result (Z.max 0 (current (san c) - sanLoss))
                       (if sanLoss >? 0
                        then fst (checkForMadness c sanLoss gi)
                        else no_madness)
                       (tick c))).
Proof.
  intros Hg threshold result.
  split; [apply ceil_fifth|].
  assert (Hres := checkForMadness_result c sanLoss g).
  fold threshold result in Hres.
  pose proof (pick_in INDEFINITE_MADNESS_SYMPTOMS g Hg ltac:(discriminate)) as Hin1.
  pose proof (pick_in TEMPORARY_MADNESS_SYMPTOMS g Hg ltac:(discriminate)) as Hin2.
  split; [|split; [|split; [|split]]].
  - intros Hle. rewrite (proj2 (geb_ge sanLoss threshold) Hle) in Hres.
    rewrite Hres. repeat split. exact Hin1.
  - intros Hlt H5. rewrite (proj2 (geb_lt sanLoss threshold) Hlt) in Hres.
    rewrite (proj2 (geb_ge sanLoss 5) H5) in Hres.
    rewrite Hres.
    destruct (Hg 1%nat) as [H0 H1].
    pose proof (floor_draw_range _ 6 H0 H1 ltac:(lia)) as Hr.
    change (inject_Z 6) with 6%Q in Hr.
    destruct (floor_bounds (g 1%nat * 6)) as [Hlo Hhi].
    split; [reflexivity|]. split; [exact Hin2|].
    split; [|reflexivity].
    eexists. split; [reflexivity|]. split; [lia|].
    split; [|exact Hhi].
    replace (Math_floor (g 1%nat * 6) + 1 - 1) with (Math_floor (g 1%nat * 6)) by lia.
    exact Hlo.
  - intros Hlt H5. rewrite (proj2 (geb_lt sanLoss threshold) Hlt) in Hres.
    rewrite (proj2 (geb_lt sanLoss 5) H5) in Hres.
    rewrite Hres. split; reflexivity.
  - intros s cid roll reason sanRoll vs ns rest i c0 Hall Hfind Hside Hi.
    clear Hres. subst result.
    unfold handleSanityCheck. rewrite Hall, Hfind.
    do 3 eexists. split; [reflexivity|].
    rewrite SanityProofs.single_answer, Hside.
    split; [reflexivity|].
    apply SanityProofs.single_member; [reflexivity|exact Hi].
  - intros s roll reason firstRoll vs successLoss failureLoss ns i
      Hnd Hlosses Hi Hloss.
    unfold handleSanityCheck. simpl String.eqb. cbv iota.
    set (s' := set_characters (set_lastFailedSkillCheck s None)
                 (decrementMadnessDuration (characters s))).
    destruct (SanityProofs.party_member s s' firstRoll successLoss failureLoss
                reason g i c Hnd eq_refl Hi) as (gi & Hgi & Hc).
    rewrite Hloss in Hc.
    do 3 eexists. exists gi. split; [reflexivity|].
    rewrite SanityProofs.party_answer, Hlosses.
    split; [reflexivity|]. split; [exact (Hgi Hg)|exact Hc].
Qed.

Lemma madness_onset_by_thresholds_witness :
  rng_ok (const_rng (1 # 2))
  /\ m_type (fst (checkForMadness Sample.veteran 6 (const_rng (1 # 2))))
     = Some temporary
  /\ duration (fst (checkForMadness Sample.veteran 6 (const_rng (1 # 2))))
     = Some 4
  /\ m_type (fst (checkForMadness Sample.veteran 20 (const_rng (1 # 2))))
     = Some indefinite
  /\ (exists reason1 onComplete leaf,
        handleSanityCheck Sample.table "1/6" "怪物を見た" "c2"
        = Some (Roll "1d100" reason1 onComplete)
        /\ answer (onComplete 51) [] = Some (leaf, [])
        /\ option_map (fun c' => (current (san c'), madness c'))
             (characters (fst (leaf (const_rng (1 # 2)))) !! 1%nat)
           = Some (24, Some (fst (checkForMadness Sample.veteran 6
                                    (const_rng (1 # 2))))))
  /\ (exists reason1 onComplete leaf gi,
        handleSanityCheck Sample.table "1/1d6" "怪物を見た" "all"
        = Some (Roll "1d100" reason1 onComplete)
        /\ answer (onComplete 40) [6] = Some (leaf, ["1d6"%string])
        /\ option_map (fun c' => (current (san c'), madness c'))
             (characters (fst (leaf (const_rng (1 # 2)))) !! 1%nat)
           = Some (24, Some (fst (checkForMadness Sample.veteran 6 gi)))).
Proof.
  assert (Hg : rng_ok (const_rng (1 # 2))).
  { intros n. split; unfold const_rng; [discriminate|reflexivity]. }
  assert (Hnd : NoDup (map id (characters Sample.table))).
  { apply (bool_decide_unpack _). vm_compute. exact I. }
  split; [exact Hg|].
  destruct (madness_onset_by_thresholds Sample.veteran 6 (const_rng (1 # 2)) Hg)
    as (_ & _ & Ht & _ & Hsingle & Hparty).
  destruct (madness_onset_by_thresholds Sample.veteran 20 (const_rng (1 # 2)) Hg)
    as (_ & Hi & _).
  split; [apply Ht; [reflexivity|discriminate]|].
  split; [reflexivity|]. split; [apply Hi; discriminate|]. split.
  - destruct (Hsingle Sample.table "c2" "1/6" "怪物を見た" 51 [] [] [] 1%nat
                Sample.veteran eq_refl eq_refl eq_refl eq_refl)
      as (reason1 & onComplete & leaf & H1 & H2 & H3).
    exists reason1, onComplete, leaf. split; [exact H1|]. split; [exact H2|].
    rewrite H3. reflexivity.
  - destruct (Hparty Sample.table "1/1d6" "怪物を見た" 40 [6] 1 6 ["1d6"%string]
                1%nat Hnd eq_refl eq_refl eq_refl)
      as (reason1 & onComplete & leaf & gi & H1 & H2 & _ & H3).
    exists reason1, onComplete, leaf, gi. split; [exact H1|].
    split; [exact H2|]. rewrite H3. reflexivity.
Defined.

(** Single checks of the first investigator (SAN 50 of 65, threshold 13)
    with every draw at one half: the 1d100 shows 51, a failure.  A loss
    of 6 leaves SAN 44 and temporary madness for 4 rounds; a loss of 20
    leaves SAN 30 and indefinite madness; "1/1d6" rolls the failure side,
    a 4, and no madness sets in; a loss of 50 ends the game without a
    request to the narrator. *)
Example single_check_samples :
  played_check Sample.table "6" "c1" (const_rng (1 # 2))
  = Some (Some (44, Some temporary, Some 4), [("1d100"%string, 51)], false, 1%nat)
  /\ played_check Sample.table "20" "c1" (const_rng (1 # 2))
     = Some (Some (30, Some indefinite, None), [("1d100"%string, 51)], false, 1%nat)
  /\ played_check Sample.table "1/1d6" "c1" (const_rng (1 # 2))
     = Some (Some (46, None, None),
             [("1d100"%string, 51); ("1d6"%string, 4)], false, 1%nat)
  /\ played_check Sample.table "50" "c1" (const_rng (1 # 2))
     = Some (Some (0, Some indefinite, None), [("1d100"%string, 51)], true, 0%nat).
Proof. repeat split; vm_compute; reflexivity. Qed.

End MadnessProofs.

(** * The party-wide sanity check *)

Module PartyProofs.
Import Js GamePlay Spec Observe PushProofs.

(** C5.  A party-wide check opens one dialog for 1d100 and uses its
    result for every member: a member succeeds exactly when the roll is
    at most their current SAN.  After it at most two more dialogs open,
    whatever the size of the party: the notations rolled are taken, in
    order and each at most once, from the two sides of the loss notation
    (or are the notation itself when it has no two sides).  There is one
    loss for the members who succeeded and one for those who failed, and
    they are the losses of the notation: each side that applies to
    someone is evaluated once, as its fixed value or else as the result
    of its dialog.  Every member ends with the larger of 0 and their
    current SAN minus the loss of their branch.  The ids of the party
    are assumed to differ from one another. *)
Theorem party_check_shares_roll_and_losses
    (s : State) (roll reason : string) (firstRoll : Z) (vs : list Z) :
  NoDup (map id (characters s)) ->
  (2 <= length vs)%nat ->
  exists reason1 onComplete leaf ns successLoss failureLoss,
    handleSanityCheck s roll reason "all"
    = Some (Roll "1d100" reason1 onComplete)
    /\ answer (onComplete firstRoll) vs = Some (leaf, ns)
    /\ party_losses roll (anySuccess (characters s) firstRoll)
         (anyFailure (characters s) firstRoll) vs
       = Some (successLoss, failureLoss, ns)
    /\ (length ns <= 2)%nat
    /\ match Str.split "/" roll with
       | [successRoll; failureRoll] => sublist ns [successRoll; failureRoll]
       | _ => sublist ns [roll]
       end
    /\ forall (g : Rng) i c,
         characters s !! i = Some c ->
         exists c',
           characters (fst (leaf g)) !! i = Some c'
           /\ id c' = id c
           /\ current (san c')
              = Z.max 0 (current (san c)
                         - (if firstRoll <=? current (san c)
                            then successLoss else failureLoss)).
Proof.
  intros Hnd Hvs.
  unfold handleSanityCheck. simpl String.eqb. cbv iota.
  destruct (SanityProofs.party_losses_total roll
              (anySuccess (characters s) firstRoll)
              (anyFailure (characters s) firstRoll) vs Hvs)
    as (sL & fL & ns & Hlosses & Hlen & Hsub).
  do 3 eexists. exists ns, sL, fL. split; [reflexivity|].
  rewrite SanityProofs.party_answer, Hlosses.
  split; [reflexivity|]. split; [reflexivity|].
  split; [exact Hlen|]. split; [exact Hsub|].
  intros g i c Hi.
  apply SanityProofs.party_member_san; [exact Hnd|reflexivity|exact Hi].
Qed.

Lemma party_check_shares_roll_and_losses_witness :
  NoDup (map id (characters Sample.table))
  /\ (2 <= length [4; 9])%nat
  /\ exists reason1 onComplete leaf,
       handleSanityCheck Sample.table "1/1d6" "怪物を見た" "all"
       = Some (Roll "1d100" reason1 onComplete)
       /\ answer (onComplete 40) [4; 9] = Some (leaf, ["1d6"%string])
       /\ forall g,
            option_map (fun c => current (san c))
              (characters (fst (leaf g)) !! 0%nat) = Some 49
            /\ option_map (fun c => current (san c))
                 (characters (fst (leaf g)) !! 1%nat) = Some 26.
Proof.
  assert (Hnd : NoDup (map id (characters Sample.table))).
  { apply (bool_decide_unpack _). vm_compute. exact I. }
  assert (Hlen : (2 <= length [4; 9])%nat) by (simpl; lia).
  split; [exact Hnd|]. split; [exact Hlen|].
  destruct (party_check_shares_roll_and_losses Sample.table "1/1d6" "怪物を見た"
              40 [4; 9] Hnd Hlen)
    as (reason1 & onComplete & leaf & ns & sL & fL & H1 & H2 & H3 & _ & _ & H6).
  injection H3 as <- <- <-.
  exists reason1, onComplete, leaf.
  split; [exact H1|]. split; [exact H2|].
  intros g.
  destruct (H6 g 0%nat Sample.investigator eq_refl) as (c1 & Hc1 & _ & Hs1).
  destruct (H6 g 1%nat Sample.veteran eq_refl) as (c2 & Hc2 & _ & Hs2).
  rewrite Hc1, Hc2. simpl option_map. rewrite Hs1, Hs2.
  split; reflexivity.
Defined.

(** The sample party, loss "1/1d6", shared roll 40 and a 4 on the d6: the
    first investigator succeeds and loses 1, the second fails and
    loses 4; only the failure side is rolled. *)
Example party_check_sample :
  match handleSanityCheck Sample.table "1/1d6" "怪物を見た" "all" with
  | Some (Roll _ _ onComplete) =>
      match answer (onComplete 40) [4; 9] with
      | Some (leaf, ns) =>
          (map (fun c => current (san c))
             (characters (fst (leaf (const_rng (1 # 2))))), ns)
      | None => ([], [])
      end
  | _ => ([], [])
  end = ([49; 26], ["1d6"]).
Proof. vm_compute. reflexivity. Qed.

End PartyProofs.

(** * Character creation *)

Module CreationProofs.
Import Js Creation Observe.

(** Half, rounded up, in integers. *)
Lemma ceil_half (n : Z) : Math_ceil (inject_Z n / 2) = (n + 1) / 2.
Proof.
  unfold Math_ceil, Qceiling, Qfloor, Qopp, Qdiv, Qmult, Qinv, inject_Z. simpl.
  Z.div_mod_to_equations. lia.
Qed.

Lemma updateCharacter_lookup idv upd (cs : list Character) i c :
  cs !! i = Some c ->
  updateCharacter idv upd cs !! i
  = Some (if String.eqb (id c) idv then upd c else c).
Proof.
  intros H. unfold updateCharacter. rewrite list_lookup_fmap, H. reflexivity.
Qed.

(** A loop that writes [f k] under every key [k] of a list. *)
Lemma fold_insert_lookup (f : string -> Z) (l : list string) :
  forall (m : gmap string Z) (k : string),
    fold_left (fun acc x => <[x := f x]> acc) l m !! k
    = if decide (k ∈ l) then Some (f k) else m !! k.
Proof.
  induction l as [|x l IH]; intros m k; simpl.
  - destruct (decide (k ∈ [])) as [H|H]; [inversion H|reflexivity].
  - rewrite IH. destruct (decide (k ∈ l)) as [H|H].
    + rewrite decide_True by (right; exact H). reflexivity.
    + destruct (decide (k = x)) as [->|Hne].
      * rewrite decide_True by left. apply lookup_insert_eq.
      * rewrite decide_False by (intros Hin; inversion Hin; subst; contradiction).
        apply lookup_insert_ne. congruence.
Qed.

Section WithConstants.

Variable INITIAL_SKILLS : gmap string Z.
Variable DYNAMIC_BASE_SKILLS : gmap string (Stats -> Z).
Variable ALL_SKILLS : list string.

Local Abbreviation getBase := (getBaseSkillValue INITIAL_SKILLS DYNAMIC_BASE_SKILLS).
Local Abbreviation statUpd := (statUpdate INITIAL_SKILLS DYNAMIC_BASE_SKILLS ALL_SKILLS).
Local Abbreviation rollUpd := (rollAllUpdate INITIAL_SKILLS DYNAMIC_BASE_SKILLS ALL_SKILLS).
Local Abbreviation hStatUpdate := (handleStatUpdate INITIAL_SKILLS DYNAMIC_BASE_SKILLS ALL_SKILLS).


Lemma statUpdate_resources allocs idv statName value c :
  resources_reset c (statUpd allocs idv statName value c)
  /\ stats (statUpd allocs idv statName value c) = set_stat (stats c) statName value
  /\ id (statUpd allocs idv statName value c) = id c.
Proof.
  unfold resources_reset, statUpdate. simpl.
  repeat split.
  destruct (Z.gtb_spec (current (san c))
              (st_POW (set_stat (stats c) statName value) * 5)); lia.
Qed.

Lemma rollAllUpdate_resources allocs newStats c :
  resources_reset c (rollUpd allocs newStats c)
  /\ stats (rollUpd allocs newStats c) = newStats
  /\ id (rollUpd allocs newStats c) = id c.
Proof.
  unfold resources_reset, rollAllUpdate. simpl.
  repeat split.
  destruct (Z.gtb_spec (current (san c)) (st_POW newStats * 5)); lia.
Qed.

Lemma rollAll_map_cons allocs a c0 cs :
  rollAll_map INITIAL_SKILLS DYNAMIC_BASE_SKILLS ALL_SKILLS allocs a (c0 :: cs)
  = if String.eqb (id c0) a then
      bind (roll_stats stat_keys (stats c0)) (fun newStats =>
        bind (rollAll_map INITIAL_SKILLS DYNAMIC_BASE_SKILLS ALL_SKILLS allocs a cs)
          (fun rest' => ret (rollUpd allocs newStats c0 :: rest')))
    else
      bind (rollAll_map INITIAL_SKILLS DYNAMIC_BASE_SKILLS ALL_SKILLS allocs a cs)
        (fun rest' => ret (c0 :: rest')).
Proof. reflexivity. Qed.

(** [handleRollAllStats] seen from one position of the roster. *)
Lemma rollAll_map_lookup allocs a cs : forall g i c,
  cs !! i = Some c ->
  exists newStats,
    fst (rollAll_map INITIAL_SKILLS DYNAMIC_BASE_SKILLS ALL_SKILLS allocs a cs g) !! i
    = Some (if String.eqb (id c) a then rollUpd allocs newStats c else c).
Proof.
  induction cs as [|c0 cs IH]; intros g i c Hi; [destruct i; discriminate|].
  rewrite rollAll_map_cons. destruct (String.eqb (id c0) a) eqn:E.
  - unfold bind at 1. destruct (roll_stats stat_keys (stats c0) g) as [newStats g1].
    unfold bind at 1.
    destruct i as [|i]; cbn [lookup list_lookup] in Hi.
    + injection Hi as <-. exists newStats.
      destruct (rollAll_map INITIAL_SKILLS DYNAMIC_BASE_SKILLS ALL_SKILLS allocs a cs g1)
        as [rest' g2].
      unfold ret, fst. cbn [lookup list_lookup]. rewrite E. reflexivity.
    + destruct (IH g1 i c Hi) as (ns & Hns). exists ns.
      destruct (rollAll_map INITIAL_SKILLS DYNAMIC_BASE_SKILLS ALL_SKILLS allocs a cs g1)
        as [rest' g2].
      unfold ret, fst in *. cbn [lookup list_lookup]. exact Hns.
  - unfold bind at 1.
    destruct i as [|i]; cbn [lookup list_lookup] in Hi.
    + injection Hi as <-. exists (stats c0).
      destruct (rollAll_map INITIAL_SKILLS DYNAMIC_BASE_SKILLS ALL_SKILLS allocs a cs g)
        as [rest' g2].
      unfold ret, fst. cbn [lookup list_lookup]. rewrite E. reflexivity.
    + destruct (IH g i c Hi) as (ns & Hns). exists ns.
      destruct (rollAll_map INITIAL_SKILLS DYNAMIC_BASE_SKILLS ALL_SKILLS allocs a cs g)
        as [rest' g2].
      unfold ret, fst in *. cbn [lookup list_lookup]. exact Hns.
Qed.

Lemma find_character_id cs idv i c :
  cs !! i = Some c -> id c = idv ->
  exists a, find_character cs idv = Some a /\ id a = idv.
Proof.
  intros Hi Hid. unfold find_character.
  destruct (List.find _ cs) as [a|] eqn:E.
  - exists a. split; [reflexivity|]. apply find_some in E.
    apply String.eqb_eq, E.
  - exfalso.
    assert (Hin : In c cs).
    { apply list_elem_of_In, list_elem_of_lookup. exists i. exact Hi. }
    pose proof (find_none _ _ E c Hin) as Hf. simpl in Hf.
    rewrite (proj2 (String.eqb_eq _ _) Hid) in Hf. discriminate Hf.
Qed.


(** C9.  Every update of the attributes on the creation screen, be it a
    value typed in ([handleStatUpdate]), one rolled attribute
    ([handleStatRollRequest]) or all of them rolled
    ([handleRollAllStats]), leaves the character with current HP and MP
    equal to the new maxima, whatever they were before, and with the
    smaller of the old current SAN and the new SAN maximum: the SAN is cut
    down and never raised. *)
Theorem attribute_update_resets_hp_mp
    (s : Screen) (idv : string) (statName : StatName) (value : Z)
    (i : nat) (c : Character) :
  characters s !! i = Some c ->
  id c = idv ->
  (exists c',
     characters (hStatUpdate s idv statName value) !! i = Some c'
     /\ stats c' = set_stat (stats c) statName value
     /\ resources_reset c c'
     /\ current (san c') <= current (san c))
  /\ (activeCharacterId s = Some idv ->
      forall g, exists c',
        characters
          (fst (handleStatRollRequest INITIAL_SKILLS DYNAMIC_BASE_SKILLS
                  ALL_SKILLS s statName g)) !! i = Some c'
        /\ resources_reset c c'
        /\ current (san c') <= current (san c))
  /\ (activeCharacterId s = Some idv ->
      forall g, exists c',
        characters
          (fst (handleRollAllStats INITIAL_SKILLS DYNAMIC_BASE_SKILLS
                  ALL_SKILLS s g)) !! i = Some c'
        /\ resources_reset c c'
        /\ current (san c') <= current (san c)).
Proof.
  intros Hi Hid.
  assert (Hupd : forall v,
            characters (hStatUpdate s idv statName v) !! i
            = Some (statUpd (allocations s) idv statName v c)).
  { intros v. unfold handleStatUpdate. simpl.
    rewrite (updateCharacter_lookup _ _ _ _ _ Hi).
    rewrite (proj2 (String.eqb_eq _ _) Hid). reflexivity. }
  assert (Hle : forall c', resources_reset c c' ->
                           current (san c') <= current (san c)).
  { intros c' (_ & _ & _ & _ & _ & H). rewrite H. lia. }
  split; [|split].
  - eexists. split; [apply Hupd|].
    destruct (statUpdate_resources (allocations s) idv statName value c)
      as (Hr & Hst & _).
    split; [exact Hst|]. split; [exact Hr|apply Hle, Hr].
  - intros Hact g. unfold handleStatRollRequest, find_active. rewrite Hact.
    destruct (find_character_id _ _ _ _ Hi Hid) as (a & Ha & Hida).
    rewrite Ha. unfold bind.
    destruct (DiceUtil.parseAndRoll (getStatRollNotation statName) g) as [v g'].
    simpl. rewrite Hida. eexists. split; [apply Hupd|].
    destruct (statUpdate_resources (allocations s) idv statName v c)
      as (Hr & _ & _).
    split; [exact Hr|apply Hle, Hr].
  - intros Hact g. unfold handleRollAllStats. rewrite Hact. unfold bind.
    destruct (rollAll_map_lookup (allocations s) idv (characters s) g i c Hi)
      as (newStats & Hns).
    destruct (rollAll_map INITIAL_SKILLS DYNAMIC_BASE_SKILLS ALL_SKILLS (allocations s) idv (characters s) g) as [cs g'].
    simpl in *. rewrite (proj2 (String.eqb_eq _ _) Hid) in Hns.
    eexists. split; [exact Hns|].
    destruct (rollAllUpdate_resources (allocations s) newStats c) as (Hr & _ & _).
    split; [exact Hr|apply Hle, Hr].
Qed.

Lemma fold_totals_lookup (total : string -> Z) (l : list string)
    (m : gmap string Z) (k : string) :
  k ∈ l ->
  fold_left (fun (acc : gmap string Z) x => <[x := total x]> acc) l m !! k
  = Some (total k).
Proof.
  intros Hk. rewrite fold_insert_lookup. rewrite decide_True by exact Hk.
  reflexivity.
Qed.

(** C1, as the code has it.  [handleSkillAllocation] stores base +
    occupation points + interest points as it is, and so does the
    recomputation [handleStatUpdate] makes for DEX and EDU: a sum above 99
    is stored above 99.  Only [handleRollAllStats] (like the import and
    the automatic allocation) cuts the total down to 99.  The total is
    not below the base value when the points are not negative. *)
Theorem skill_allocation_stores_uncapped_total
    (s : Screen) (charId skillName : string) (type : AllocType) (value : Z)
    (i : nat) (c : Character)
    (charAllocs : gmap string SkillAllocation) (old : SkillAllocation) :
  characters s !! i = Some c ->
  id c = charId ->
  allocations s !! charId = Some charAllocs ->
  charAllocs !! skillName = Some old ->
  0 <= value ->
  let base := getBase skillName (stats c) (customSkills c) in
  let entry := set_alloc old type value in
  (exists s' c',
     handleSkillAllocation INITIAL_SKILLS DYNAMIC_BASE_SKILLS s charId skillName
       type value = Some s'
     /\ characters s' !! i = Some c'
     /\ skills c' !! skillName = Some (base + occ entry + int entry)
     /\ (0 <= occ old -> 0 <= int old -> base <= base + occ entry + int entry))
  /\ (forall statName v skill,
        statName = DEX \/ statName = EDU ->
        skill ∈ allSkillNames ALL_SKILLS c ->
        let a := alloc_or_zero (allocations s) charId skill in
        skills (statUpd (allocations s) charId statName v c) !! skill
        = Some (getBase skill (set_stat (stats c) statName v) (customSkills c)
                + occ a + int a))
  /\ (forall newStats skill,
        skill ∈ allSkillNames ALL_SKILLS c ->
        let a := alloc_or_zero (allocations s) charId skill in
        skills (rollUpd (allocations s) newStats c) !! skill
        = Some (Z.min 99 (getBase skill newStats (customSkills c)
                          + occ a + int a))).
Proof.
  intros Hi Hid Hallocs Hold Hv base entry.
  split; [|split].
  - unfold handleSkillAllocation.
    rewrite (proj2 (Z.ltb_ge value 0) Hv), Hallocs. simpl default.
    rewrite Hold. fold entry.
    eexists. eexists. split; [reflexivity|]. simpl characters.
    rewrite (updateCharacter_lookup _ _ _ _ _ Hi).
    rewrite (proj2 (String.eqb_eq _ _) Hid).
    split; [reflexivity|]. simpl skills.
    split; [apply lookup_insert_eq|].
    subst entry. destruct type; simpl; lia.
  - intros statName v skill Hst Hin a. unfold statUpdate.
    destruct Hst as [-> | ->]; simpl skills;
      rewrite (fold_totals_lookup
                 (fun k => getBase k _ (customSkills c)
                           + occ (alloc_or_zero (allocations s) charId k)
                           + int (alloc_or_zero (allocations s) charId k)))
        by exact Hin; reflexivity.
  - intros newStats skill Hin a. unfold rollAllUpdate. simpl skills. subst charId.
    rewrite (fold_totals_lookup
               (fun k =>
                  if getBase k newStats (customSkills c)
                     + occ (alloc_or_zero (allocations s) (id c) k)
                     + int (alloc_or_zero (allocations s) (id c) k) >? 99
                  then 99
                  else getBase k newStats (customSkills c)
                       + occ (alloc_or_zero (allocations s) (id c) k)
                       + int (alloc_or_zero (allocations s) (id c) k)))
      by exact Hin.
    f_equal. subst a.
    destruct (Z.gtb_spec
                (getBase skill newStats (customSkills c)
                 + occ (alloc_or_zero (allocations s) (id c) skill)
                 + int (alloc_or_zero (allocations s) (id c) skill)) 99); lia.
Qed.

End WithConstants.


(** A new character with each attribute set to 13 in turn. *)
Example all_thirteen :
  let set := handleStatUpdate Sample.initial_skills Sample.dynamic_base_skills
               Sample.all_skills in
  let s := fold_left (fun s statName => set s "c1" statName 13) stat_keys
             Sample.fresh in
  (option_map (fun c => (max (hp c), max (mp c), max (san c)))
     (characters s !! 0%nat),
   option_map (fun d => (occupationPoints d, interestPoints d)) (derivedData s))
  = (Some (13, 13, 65), Some (260, 130)).
Proof. vm_compute. reflexivity. Qed.

Lemma attribute_update_resets_hp_mp_witness :
  characters Sample.roster !! 0%nat = Some Sample.investigator
  /\ id Sample.investigator = "c1"
  /\ exists c',
       characters
         (handleStatUpdate Sample.initial_skills Sample.dynamic_base_skills
            Sample.all_skills Sample.roster "c1" POW 8) !! 0%nat = Some c'
       /\ resources_reset Sample.investigator c'
       /\ current (san c') <= current (san Sample.investigator).
Proof.
  split; [reflexivity|]. split; [reflexivity|].
  destruct (attribute_update_resets_hp_mp Sample.initial_skills
              Sample.dynamic_base_skills Sample.all_skills Sample.roster "c1"
              POW 8 0%nat Sample.investigator eq_refl eq_refl)
    as ((c' & H1 & _ & H2 & H3) & _).
  exists c'. split; [exact H1|]. split; [exact H2|exact H3].
Defined.

(** POW 8 gives SAN max 40: the current SAN of 50 is cut down to 40, and HP
    and MP are full again. *)
Example pow_drop_sample :
  option_map (fun c => (hp c, mp c, san c))
    (characters
       (handleStatUpdate Sample.initial_skills Sample.dynamic_base_skills
          Sample.all_skills Sample.roster "c1" POW 8) !! 0%nat)
  = Some (mkResource 13 13, mkResource 8 8, mkResource 40 40).
Proof. vm_compute. reflexivity. Qed.

Lemma skill_allocation_stores_uncapped_total_witness :
  characters Sample.fresh !! 0%nat = Some (createNewCharacter "c1")
  /\ 0 <= 100
  /\ exists s' c',
       handleSkillAllocation Sample.initial_skills Sample.dynamic_base_skills
         Sample.fresh "c1" "目星" t_occ 100 = Some s'
       /\ characters s' !! 0%nat = Some c'
       /\ skills c' !! "目星" = Some (25 + 100 + 0).
Proof.
  split; [reflexivity|]. split; [discriminate|].
  assert (Ha : allocations Sample.fresh !! "c1"
               = Some (default ∅ (allocations Sample.fresh !! "c1")))
    by (vm_compute; reflexivity).
  assert (Hb : default ∅ (allocations Sample.fresh !! "c1") !! "目星"
               = Some (mkAlloc 0 0))
    by (vm_compute; reflexivity).
  destruct (skill_allocation_stores_uncapped_total Sample.initial_skills
              Sample.dynamic_base_skills Sample.all_skills Sample.fresh "c1"
              "目星" t_occ 100 0%nat (createNewCharacter "c1")
              (default ∅ (allocations Sample.fresh !! "c1")) (mkAlloc 0 0)
              eq_refl eq_refl Ha Hb ltac:(discriminate))
    as ((s' & c' & H1 & H2 & H3 & _) & _).
  exists s', c'. split; [exact H1|]. split; [exact H2|exact H3].
Defined.

(** The failing input of C1: 100 occupation points on a skill of base 25
    of a new character give the stored total 125. *)
Example allocation_above_cap :
  option_map (fun s' => option_map (fun c' => skills c' !! "目星")
                          (characters s' !! 0%nat))
    (handleSkillAllocation Sample.initial_skills Sample.dynamic_base_skills
       Sample.fresh "c1" "目星" t_occ 100)
  = Some (Some (Some 125)).
Proof. vm_compute. reflexivity. Qed.

End CreationProofs.

(** * Dice notation *)

Module NotationProofs.
Import Js Str DiceUtil GamePlay Spec Observe StringProofs.

(** C8, as the code has it.  The evaluator [parseAndRoll] knows no
    fixed values: a notation without the letter d, and more generally
    one in which, once lower-cased and freed of white space, no d is
    directly followed by a digit, evaluates to 0 without a draw; a bare
    integer is such a notation.  Fixed values are the business of
    [parseFixedOrRoll], which returns the value of a bare integer (white
    space around it allowed) and [-1] for every other notation.  The
    sanity check, of a single character and of the party alike, asks it
    first and opens a roll dialog only for a notation, or a side of
    ["success/failure"], without a fixed value.  A side with a fixed
    value costs that value: after the check of a single character, with
    no dialog but the 1d100, the members with the id of the check carry
    the larger of 0 and the SAN less the value; after a party-wide check
    the member to whom the side applies does. *)
Theorem fixed_loss_is_not_rolled_and_unrecognized_is_zero
    (notation : string) (g : Rng) :
  (has_d notation = false -> parseAndRoll notation g = (0, g))
  /\ (has_die (remove_spaces (toLowerCase notation)) = false ->
      parseAndRoll notation g = (0, g))
  /\ parseFixedOrRoll notation
     = match fixed_value notation with Some n => n | None => -1 end
  /\ (forall s roll reason cid firstRoll vs reason1 onComplete leaf ns,
        handleSanityCheck s roll reason cid
        = Some (Roll "1d100" reason1 onComplete) ->
        answer (onComplete firstRoll) vs = Some (leaf, ns) ->
        In notation ns -> fixed_value notation = None)
  /\ (forall n, fixed_value notation = Some n ->
        0 <= n
        /\ parseAndRoll notation g = (0, g)
        /\ (forall s c cid roll reason sanRoll vs i c0,
              String.eqb cid "all" = false ->
              find_character (characters s) cid = Some c ->
              loss_side roll (sanRoll <=? current (san c)) = notation ->
              characters s !! i = Some c0 ->
              exists reason1 onComplete leaf,
                handleSanityCheck s roll reason cid
                = Some (Roll "1d100" reason1 onComplete)
                /\ answer (onComplete sanRoll) vs = Some (leaf, [])
                /\ forall g',
                     characters (fst (leaf g')) !! i
                     = Some (if String.eqb (id c0) cid
                             then apply_san_result
                                    (Z.max 0 (current (san c) - n))
                                    (fst (checkForMadness c n g')) (tick c0)
                             else tick c0))
        /\ (forall s roll reason firstRoll vs i c,
              NoDup (map id (characters s)) ->
              (2 <= length vs)%nat ->
              characters s !! i = Some c ->
              loss_side roll (firstRoll <=? current (san c)) = notation ->
              exists reason1 onComplete leaf ns,
                handleSanityCheck s roll reason "all"
                = Some (Roll "1d100" reason1 onComplete)
                /\ answer (onComplete firstRoll) vs = Some (leaf, ns)
                /\ ~ In notation ns
                /\ forall g', exists c',
                     characters (fst (leaf g')) !! i = Some c'
                     /\ id c' = id c
                     /\ current (san c')
                        = Z.max 0 (current (san c) - n))).
Proof.
  split; [intros H; apply parseAndRoll_unrecognized, no_d_no_die, H|].
  split; [apply parseAndRoll_unrecognized|].
  split; [apply parseFixedOrRoll_spec|].
  split.
  - intros s roll reason cid firstRoll vs reason1 onComplete leaf ns Hh Ha Hin.
    unfold handleSanityCheck in Hh.
    destruct (String.eqb cid "all").
    + injection Hh as _ <-. rewrite SanityProofs.party_answer in Ha.
      destruct (party_losses _ _ _ vs) as [[[sL fL] ns']|] eqn:E; [|discriminate].
      injection Ha as _ <-.
      exact (SanityProofs.party_losses_rolled _ _ _ _ _ _ _ E _ Hin).
    + destruct (find_character (characters s) cid) as [c|]; [|discriminate].
      injection Hh as _ <-. rewrite SanityProofs.single_answer in Ha.
      destruct (side_loss _ vs) as [[[l ns'] rest]|] eqn:E; [|discriminate].
      injection Ha as _ <-.
      exact (SanityProofs.side_loss_rolled _ _ _ _ _ E _ Hin).
  - intros n Hfix. split; [exact (fixed_value_nonneg _ _ Hfix)|].
    split; [apply parseAndRoll_unrecognized, no_d_no_die,
            (fixed_value_no_d _ _ Hfix)|].
    split.
    + intros s c cid roll reason sanRoll vs i c0 Hall Hfind Hside Hi.
      unfold handleSanityCheck. rewrite Hall, Hfind.
      do 3 eexists. split; [reflexivity|].
      rewrite SanityProofs.single_answer, Hside,
        (SanityProofs.side_loss_fixed _ _ vs Hfix).
      split; [reflexivity|]. intros g'.
      apply SanityProofs.single_member; [reflexivity|exact Hi].
    + intros s roll reason firstRoll vs i c Hnd Hvs Hi Hside.
      unfold handleSanityCheck. simpl String.eqb. cbv iota.
      destruct (SanityProofs.party_losses_total roll
                  (anySuccess (characters s) firstRoll)
                  (anyFailure (characters s) firstRoll) vs Hvs)
        as (sL & fL & ns & Hlosses & _).
      do 3 eexists. exists ns. split; [reflexivity|].
      rewrite SanityProofs.party_answer, Hlosses.
      split; [reflexivity|]. split.
      * intros Hin.
        rewrite (SanityProofs.party_losses_rolled _ _ _ _ _ _ _ Hlosses _ Hin)
          in Hfix.
        discriminate Hfix.
      * intros g'.
        assert (Hin : In c (characters s)).
        { apply list_elem_of_In, list_elem_of_lookup. exists i. exact Hi. }
        rewrite <- Hside in Hfix.
        rewrite <- (SanityProofs.party_losses_member _ _ _ _ _ _ _ _ _
                      Hlosses Hin Hfix).
        apply SanityProofs.party_member_san; [exact Hnd|reflexivity|exact Hi].
Qed.

Lemma fixed_loss_is_not_rolled_and_unrecognized_is_zero_witness :
  fixed_value "3　" = Some 3
  /\ parseFixedOrRoll "3　" = 3
  /\ parseAndRoll "3　" (const_rng (1 # 2)) = (0, const_rng (1 # 2))
  /\ (exists reason1 onComplete leaf,
        handleSanityCheck Sample.table "3　/1d6" "怪物を見た" "c1"
        = Some (Roll "1d100" reason1 onComplete)
        /\ answer (onComplete 20) [] = Some (leaf, [])
        /\ option_map (fun c' => current (san c'))
             (characters (fst (leaf (const_rng (1 # 2)))) !! 0%nat)
           = Some 47)
  /\ (exists reason1 onComplete leaf,
        handleSanityCheck Sample.table "3　/1d6" "怪物を見た" "all"
        = Some (Roll "1d100" reason1 onComplete)
        /\ answer (onComplete 40) [4; 9] = Some (leaf, ["1d6"%string])
        /\ option_map (fun c' => current (san c'))
             (characters (fst (leaf (const_rng (1 # 2)))) !! 0%nat)
           = Some 47).
Proof.
  assert (Hnd : NoDup (map id (characters Sample.table))).
  { apply (bool_decide_unpack _). vm_compute. exact I. }
  assert (Hlen : (2 <= length [4; 9])%nat) by (simpl; lia).
  destruct (fixed_loss_is_not_rolled_and_unrecognized_is_zero "3　"
              (const_rng (1 # 2))) as (_ & _ & Hp & _ & Hfixed).
  destruct (Hfixed 3 eq_refl) as (_ & Hzero & Hsingle & Hparty).
  split; [reflexivity|]. split; [exact Hp|]. split; [exact Hzero|]. split.
  - destruct (Hsingle Sample.table Sample.investigator "c1" "3　/1d6"
                "怪物を見た" 20 [] 0%nat Sample.investigator
                eq_refl eq_refl eq_refl eq_refl)
      as (reason1 & onComplete & leaf & H1 & H2 & H3).
    exists reason1, onComplete, leaf. split; [exact H1|]. split; [exact H2|].
    rewrite H3. reflexivity.
  - destruct (Hparty Sample.table "3　/1d6" "怪物を見た" 40 [4; 9] 0%nat
                Sample.investigator Hnd Hlen eq_refl eq_refl)
      as (reason1 & onComplete & leaf & ns & H1 & H2 & _ & H3).
    exists reason1, onComplete, leaf. split; [exact H1|].
    destruct (H3 (const_rng (1 # 2))) as (c' & Hc' & _ & Hsan).
    rewrite Hc'. simpl option_map. rewrite Hsan.
    split; [|reflexivity].
    injection H1 as _ <-. cbn in H2. injection H2 as <- <-. reflexivity.
Defined.

(** White space is that of JavaScript: a bare integer followed by the
    ideographic space U+3000 or preceded by a no-break space is a fixed
    value, and white space of any kind inside a dice notation is
    dropped. *)
Example wide_white_space :
  parseFixedOrRoll "3　" = 3
  /\ parseFixedOrRoll " 12" = 12
  /\ parseFixedOrRoll "１" = -1
  /\ parseFixedOrRoll "1d6" = -1
  /\ parseFixedOrRoll "" = -1
  /\ remove_spaces "2　d 6" = "2d6"%string
  /\ fst (parseAndRoll "2　D 6" (const_rng (1 # 2))) = 8.
Proof. repeat split; vm_compute; reflexivity. Qed.

(** C8, as the specification states it, fails for the evaluator: the
    bare integer 5 given to the roll dialog, as a generic dice request
    does, evaluates to 0. *)
Lemma bare_integer_evaluates_to_zero :
  fst (parseAndRoll "5" (const_rng (1 # 2))) = 0
  /\ snd (fst (run (handleGenericDiceRoll Sample.table "5" "鍵の数")
                 (const_rng (1 # 2)))) = [("5"%string, 0)]
  /\ 0 <> 5.
Proof. split; [reflexivity|]. split; [reflexivity|]. discriminate. Qed.

(** The notations of the grammar are rolled: with every draw at one half
    2d6+6 gives 4 + 4 + 6, and 1d100 ranges over 1 to 100. *)
Example parseAndRoll_samples :
  fst (parseAndRoll "2D6 + 6" (const_rng (1 # 2))) = 14
  /\ fst (parseAndRoll "d6" (const_rng 0)) = 1
  /\ fst (parseAndRoll "1d100" (const_rng (999 # 1000))) = 100
  /\ fst (parseAndRoll "3d6-5" (const_rng 0)) = -2.
Proof. repeat split. Qed.

(** A die shows a value from 1 to its number of sides, and the 1d100 of
    the checks one from 1 to 100. *)
Lemma rollDie_range (sides : Z) (g : Rng) :
  rng_ok g -> 0 < sides -> 1 <= fst (rollDie sides g) <= sides.
Proof.
  intros Hg Hs. unfold rollDie, bind, Math_random, ret. cbv beta iota. unfold fst.
  destruct (Hg 0%nat) as [H0 H1].
  pose proof (MadnessProofs.floor_draw_range _ _ H0 H1 Hs). lia.
Qed.

Lemma parseAndRoll_d100 (g : Rng) :
  fst (parseAndRoll "1d100" g) = fst (rollDie 100 g) + 0.
Proof. reflexivity. Qed.

Lemma d100_range (g : Rng) :
  rng_ok g -> 1 <= fst (parseAndRoll "1d100" g) <= 100.
Proof.
  intros Hg. rewrite parseAndRoll_d100.
  pose proof (rollDie_range 100 g Hg ltac:(lia)). lia.
Qed.

End NotationProofs.

(** * Rounds of madness *)

Module RoundProofs.
Import Js GamePlay Observe.

Lemma tick_temporary c desc d :
  madness c = Some (mkMadness (Some temporary) desc (Some d)) -> 1 <= d ->
  tick c = with_madness c
             (Some (if d <=? 1 then no_madness
                    else mkMadness (Some temporary) desc (Some (d - 1)))).
Proof.
  intros Hm Hd. unfold tick. rewrite Hm. simpl.
  rewrite (proj2 (Z.gtb_lt d 0)) by lia.
  destruct (Z.leb_spec (d - 1) 0), (Z.leb_spec d 1); try lia; reflexivity.
Qed.

Lemma tick_sane c : has_madness c = false -> tick c = c.
Proof.
  unfold has_madness, tick.
  destruct (madness c) as [[[t|] desc dur]|]; simpl; [discriminate| |]; reflexivity.
Qed.

Lemma iter_tick_fix n c : tick c = c -> Nat.iter n tick c = c.
Proof. intros H. induction n as [|n IH]; simpl; [reflexivity|]. rewrite IH. exact H. Qed.

Lemma with_madness_twice c m1 m2 :
  with_madness (with_madness c m1) m2 = with_madness c m2.
Proof. reflexivity. Qed.

(** X1.  A temporary madness of [d] rounds, [d] at least 1, lasts exactly
    [d] actions: after [n < d] rounds [d - n] rounds are left, with the
    same symptom, and from the [d]-th round on the character is sane.
    Nothing else of the character changes.  Indefinite madness, and a
    character without madness, are not touched by any number of rounds. *)
Theorem temporary_madness_lasts_its_duration
    (c : Character) (desc : string) (d : Z) (n : nat) :
  madness c = Some (mkMadness (Some temporary) desc (Some d)) ->
  1 <= d ->
  Nat.iter n tick c
  = with_madness c
      (Some (if d <=? Z.of_nat n then no_madness
             else mkMadness (Some temporary) desc (Some (d - Z.of_nat n))))
  /\ (forall c' desc' dur',
        madness c' = Some (mkMadness (Some indefinite) desc' dur')
        \/ has_madness c' = false ->
        Nat.iter n tick c' = c').
Proof.
  intros Hm Hd. split.
  - revert c d Hm Hd. induction n as [|n IH]; intros c d Hm Hd.
    + change (Nat.iter 0 tick c) with c. change (Z.of_nat 0) with 0.
      rewrite (proj2 (Z.leb_gt d 0)) by lia.
      replace (d - 0) with d by lia.
      destruct c; simpl in *; subst; reflexivity.
    + rewrite Nat.iter_succ_r.
      rewrite (tick_temporary c desc d Hm Hd).
      destruct (Z.leb_spec d 1) as [H1|H1].
      * rewrite iter_tick_fix by reflexivity.
        rewrite (proj2 (Z.leb_le d (Z.of_nat (S n)))) by lia. reflexivity.
      * rewrite (IH _ (d - 1)) by (reflexivity || lia).
        rewrite with_madness_twice.
        replace (d - 1 - Z.of_nat n) with (d - Z.of_nat (S n)) by lia.
        destruct (Z.leb_spec (d - 1) (Z.of_nat n)), (Z.leb_spec d (Z.of_nat (S n)));
          try lia; reflexivity.
  - intros c' desc' dur' [Hi|Hs]; apply iter_tick_fix.
    + unfold tick. rewrite Hi. reflexivity.
    + apply tick_sane, Hs.
Qed.

Lemma temporary_madness_lasts_its_duration_witness :
  madness Sample.veteran
  = Some (mkMadness (Some temporary)
            "パニック状態となり、その場から逃げ出そうとする" (Some 3))
  /\ 1 <= 3
  /\ madness (Nat.iter 2 tick Sample.veteran)
     = Some (mkMadness (Some temporary)
               "パニック状態となり、その場から逃げ出そうとする" (Some 1))
  /\ madness (Nat.iter 3 tick Sample.veteran) = Some no_madness.
Proof.
  split; [reflexivity|]. split; [discriminate|].
  pose proof (proj1 (temporary_madness_lasts_its_duration Sample.veteran _ 3 2
                       eq_refl ltac:(discriminate))) as H2.
  pose proof (proj1 (temporary_madness_lasts_its_duration Sample.veteran _ 3 3
                       eq_refl ltac:(discriminate))) as H3.
  split; [rewrite H2|rewrite H3]; reflexivity.
Defined.

End RoundProofs.

(** * The narrator's answer and free actions *)

Module AnswerProofs.
Import Js GamePlay Observe Turn.

(** The answer offers a check or a roll. *)
Local Abbreviation offers r :=
  (truthy (skillCheck r) || is_some (statCheck r)
   || is_some (sanityCheck r) || is_some (diceRollRequired r)).

(** X2.  [processKeeperResponse] decides the next interaction by
    priority.  A game clear ends the cycle and wins over a game over in
    the same answer; a game over ends it otherwise; in both cases nothing
    is pending and no button is shown.  Otherwise the answer is pending:
    when it offers a check or a roll, the check buttons are shown, the text
    field is disabled and the suggested actions are hidden; when it does
    not, the text field is open and the suggested actions are shown.  No
    request is sent and a kept failed check is not touched. *)
Theorem answer_sets_next_interaction (response : KeeperResponse) (s : State) :
  let s' := processKeeperResponse response s in
  let terminal := gameClear response || gameOver response in
  isLoading s' = false
  /\ sent s' = sent s
  /\ lastFailedSkillCheck s' = lastFailedSkillCheck s
  /\ gameClearCalled s' = (gameClearCalled s || gameClear response)
  /\ gameOverCalled s'
     = (gameOverCalled s || (negb (gameClear response) && gameOver response))
  /\ pendingAction s' = (if terminal then None else Some response)
  /\ checksShown s' = (negb terminal && offers response)
  /\ inputDisabled s' = (negb terminal && offers response)
  /\ suggestedShown s'
     = (if terminal || offers response then [] else suggestedActions response).
Proof.
  intros s' terminal. subst s' terminal. unfold processKeeperResponse.
  unfold checksShown, inputDisabled, suggestedShown, hasPendingChoice.
  destruct (madnessRecovery response) as [mr|];
    destruct (gameClear response), (gameOver response); simpl;
    rewrite ?orb_true_r, ?orb_false_r;
    repeat split;
    try (destruct (truthy (skillCheck response) || is_some (statCheck response)
                   || is_some (sanityCheck response)
                   || is_some (diceRollRequired response)); reflexivity).
Qed.

Lemma find_character_NoDup cs i c :
  NoDup (map id cs) -> cs !! i = Some c -> find_character cs (id c) = Some c.
Proof.
  unfold find_character. revert i. induction cs as [|c0 cs IH]; intros i Hnd Hi.
  - destruct i; discriminate.
  - simpl. destruct (String.eqb_spec (id c0) (id c)) as [E|E].
    + destruct i as [|i]; simpl in Hi; [congruence|].
      exfalso. simpl in Hnd. apply NoDup_cons in Hnd. destruct Hnd as [Hn _].
      apply Hn. rewrite E. apply list_elem_of_fmap. exists c. split; [reflexivity|].
      apply list_elem_of_lookup. exists i. exact Hi.
    + destruct i as [|i]; simpl in Hi; [congruence|].
      simpl in Hnd. apply NoDup_cons in Hnd. apply (IH i); [apply Hnd|exact Hi].
Qed.

(** X3.  A recovery ordered by the narrator ends the madness of the named
    character exactly when the character is in a madness of the ordered
    type ([both] covers either type).  A character who is sane, in the
    other type of madness, or has another id stays as is, and an unknown
    id changes nobody.  Whoever recovers keeps SAN, HP and everything
    else.  The ids of the party are assumed to differ from one another. *)
Theorem recovery_needs_matching_madness
    (response : KeeperResponse) (mr : MadnessRecovery) (s : State)
    (i : nat) (c : Character) :
  madnessRecovery response = Some mr ->
  NoDup (map id (characters s)) ->
  characters s !! i = Some c ->
  characters (processKeeperResponse response s) !! i
  = Some (if String.eqb (id c) (mr_characterId mr)
             && (has_madness c && shouldRecover (mr_type mr) c)
          then with_madness c (Some no_madness) else c)
  /\ (find_character (characters s) (mr_characterId mr) = None ->
      characters (processKeeperResponse response s) = characters s)
  /\ (forall c', characters (processKeeperResponse response s) !! i = Some c' ->
        san c' = san c /\ hp c' = hp c /\ mp c' = mp c /\ skills c' = skills c
        /\ id c' = id c).
Proof.
  intros Hmr Hnd Hi.
  assert (Hcs : characters (processKeeperResponse response s)
                = recover mr (characters s)).
  { unfold processKeeperResponse. rewrite Hmr.
    destruct (gameClear response), (gameOver response); reflexivity. }
  rewrite Hcs.
  assert (H1 : recover mr (characters s) !! i
               = Some (if String.eqb (id c) (mr_characterId mr)
                          && (has_madness c && shouldRecover (mr_type mr) c)
                       then with_madness c (Some no_madness) else c)).
  { unfold recover.
    destruct (String.eqb_spec (id c) (mr_characterId mr)) as [E|E].
    - rewrite <- E, (find_character_NoDup _ _ _ Hnd Hi). simpl andb.
      destruct (has_madness c && shouldRecover (mr_type mr) c); [|exact Hi].
      rewrite list_lookup_fmap, Hi. simpl. rewrite String.eqb_refl. reflexivity.
    - simpl andb.
      destruct (find_character (characters s) (mr_characterId mr)) as [ch|];
        [|exact Hi].
      destruct (has_madness ch && shouldRecover (mr_type mr) ch); [|exact Hi].
      rewrite list_lookup_fmap, Hi. simpl.
      rewrite (proj2 (String.eqb_neq _ _) E). reflexivity. }
  split; [exact H1|]. split.
  - intros Hnone. unfold recover. rewrite Hnone. reflexivity.
  - intros c' Hc'. rewrite H1 in Hc'. injection Hc' as <-.
    destruct (_ && _); repeat split.
Qed.

Lemma recovery_needs_matching_madness_witness :
  NoDup (map id (characters Sample.table))
  /\ characters Sample.table !! 1%nat = Some Sample.veteran
  /\ characters
       (processKeeperResponse
          (mkKeeperResponse "" None None None None
             (Some (mkMadnessRecovery "c2" "休息" rec_indefinite)) [] false false)
          Sample.table) !! 1%nat = Some Sample.veteran
  /\ characters
       (processKeeperResponse
          (mkKeeperResponse "" None None None None
             (Some (mkMadnessRecovery "c2" "休息" rec_both)) [] false false)
          Sample.table) !! 1%nat
     = Some (with_madness Sample.veteran (Some no_madness)).
Proof.
  assert (Hnd : NoDup (map id (characters Sample.table))).
  { apply (bool_decide_unpack _). vm_compute. exact I. }
  split; [exact Hnd|]. split; [reflexivity|]. split.
  - exact (proj1 (recovery_needs_matching_madness
                    (mkKeeperResponse "" None None None None
                       (Some (mkMadnessRecovery "c2" "休息" rec_indefinite))
                       [] false false)
                    (mkMadnessRecovery "c2" "休息" rec_indefinite)
                    Sample.table 1%nat Sample.veteran eq_refl Hnd eq_refl)).
  - exact (proj1 (recovery_needs_matching_madness
                    (mkKeeperResponse "" None None None None
                       (Some (mkMadnessRecovery "c2" "休息" rec_both))
                       [] false false)
                    (mkMadnessRecovery "c2" "休息" rec_both)
                    Sample.table 1%nat Sample.veteran eq_refl Hnd eq_refl)).
Defined.

(** X4.  A text that is blank after trimming, or a missing session, makes
    [handleSubmit] and [handlePlayerAction] do nothing.  Otherwise one
    round passes for the party and exactly one request goes out, with the
    text and without a check result, also when a failed check was waiting
    for the decision on a push-roll: that check is dropped and never
    reaches the narrator.  The screen then waits with the text field
    disabled. *)
Theorem free_action_sends_text_and_drops_failed_check
    (s : State) (text : string) :
  Str.trim text <> EmptyString ->
  chatSession s = true ->
  let s' := handleSubmit s text in
  sent s' = sent s ++ [mkRequest text (characters s) None]
  /\ characters s' = decrementMadnessDuration (characters s)
  /\ lastFailedSkillCheck s' = None
  /\ pushOffered s' = false
  /\ pendingAction s' = None
  /\ inputDisabled s' = true
  /\ handleSuggestedActionClick s text = s'
  /\ (forall blank, Str.trim blank = EmptyString ->
        handleSubmit s blank = s /\ handlePlayerAction s blank None = s)
  /\ (forall s0, chatSession s0 = false ->
        handleSubmit s0 text = s0).
Proof.
  intros Htrim Hc s'. subst s'.
  unfold handleSuggestedActionClick, handleSubmit, handlePlayerAction.
  destruct (Str.trim text) as [|ch rest] eqn:E; [congruence|].
  rewrite Hc. simpl.
  split; [reflexivity|]. split; [reflexivity|]. split; [reflexivity|].
  split; [reflexivity|]. split; [reflexivity|]. split; [reflexivity|].
  split; [simpl; rewrite Hc; reflexivity|]. split.
  - intros blank Hb. rewrite Hb. split; reflexivity.
  - intros s0 H0. rewrite H0. reflexivity.
Qed.

Lemma free_action_sends_text_and_drops_failed_check_witness :
  Str.trim " 逃げる " <> EmptyString
  /\ chatSession Sample.table = true
  /\ sent (handleSubmit
             (set_lastFailedSkillCheck Sample.table (Some Sample.failed_spot))
             " 逃げる ")
     = [mkRequest " 逃げる " (characters Sample.table) None]
  /\ lastFailedSkillCheck
       (handleSubmit
          (set_lastFailedSkillCheck Sample.table (Some Sample.failed_spot))
          " 逃げる ") = None.
Proof.
  assert (Ht : Str.trim " 逃げる " <> EmptyString) by discriminate.
  split; [exact Ht|]. split; [reflexivity|].
  destruct (free_action_sends_text_and_drops_failed_check
              (set_lastFailedSkillCheck Sample.table (Some Sample.failed_spot))
              " 逃げる " Ht eq_refl) as (H1 & _ & H3 & _).
  split; [exact H1|exact H3].
Defined.

(** Blank is what [trim] empties: a text of ideographic spaces (U+3000)
    and a no-break space does nothing either. *)
Example wide_blank_text_does_nothing :
  Str.trim "　 　" = EmptyString
  /\ handleSubmit Sample.table "　 　" = Sample.table
  /\ Str.trim "　逃げる　" = "逃げる"%string.
Proof. repeat split; vm_compute; reflexivity. Qed.

(** X22.  The answer to the opening of the game is handled like every
    later answer, game clear before game over before a pending answer,
    except that a madness recovery in it is not carried out: the party
    stays as it is. *)
Theorem opening_answer_ignores_recovery (response : KeeperResponse) (s : State) :
  startGame_onResponse response s
  = set_characters (processKeeperResponse response s) (characters s)
  /\ characters (startGame_onResponse response s) = characters s
  /\ match madnessRecovery response with
     | None => startGame_onResponse response s = processKeeperResponse response s
     | Some mr =>
         characters (processKeeperResponse response s) = recover mr (characters s)
     end.
Proof.
  unfold startGame_onResponse, processKeeperResponse.
  destruct (madnessRecovery response) as [mr|];
    destruct (gameClear response); try destruct (gameOver response);
    destruct s; repeat split.
Qed.

End AnswerProofs.

(** * Outcomes of sanity checks *)

Module OutcomeProofs.
Import Js GamePlay Observe Turn.

Lemma tick_frame c :
  id (tick c) = id c /\ san (tick c) = san c /\ hp (tick c) = hp c
  /\ mp (tick c) = mp c /\ skills (tick c) = skills c.
Proof.
  unfold tick.
  destruct (madness c) as [[[[]|] ? [d|]]|]; simpl; try (repeat split; fail).
  destruct (d >? 0); [|repeat split]. destruct (d - 1 <=? 0); repeat split.
Qed.

(** The state after the loss of a single character's check is known. *)
Lemma sanLoss_known_final s s' c cid reason sanRoll currentSan isSuccess loss g :
  let newSan := Z.max 0 (current (san c) - loss) in
  let m := fst (checkForMadness c loss g) in
  let final := fst (sanLoss_known s s' c cid reason sanRoll currentSan
                      isSuccess loss g) in
  characters final
  = updateCharacterState cid (apply_san_result newSan m) (characters s')
  /\ gameOverCalled final = (gameOverCalled s' || (newSan <=? 0))
  /\ (exists text,
        sent final
        = if (newSan <=? 0) || negb (chatSession s) then sent s'
          else sent s' ++ [mkRequest text (characters s) None])
  /\ isLoading final
     = (if newSan <=? 0 then false
        else if chatSession s then true else isLoading s').
Proof.
  intros newSan m final. subst final m. unfold sanLoss_known, bind.
  destruct (checkForMadness c loss g) as [madnessResult g'].
  change (Math_max 0 (current (san c) - loss)) with newSan.
  cbn [fst]. unfold ret.
  destruct (newSan <=? 0).
  - cbn [fst]. split; [reflexivity|]. split; [simpl; now rewrite orb_true_r|].
    split; [exists EmptyString; reflexivity|reflexivity].
  - cbn [fst]. unfold handleSystemAction.
    destruct (chatSession s); simpl.
    + split; [reflexivity|]. split; [now rewrite orb_false_r|].
      split; [eexists; reflexivity|reflexivity].
    + split; [reflexivity|]. split; [now rewrite orb_false_r|].
      split; [exists EmptyString; reflexivity|reflexivity].
Qed.

Lemma max0_le a b : (Z.max 0 (a - b) <=? 0) = (a <=? b).
Proof.
  destruct (Z.leb_spec a b), (Z.leb_spec (Z.max 0 (a - b)) 0); try reflexivity; lia.
Qed.

(** With a result at hand the dialog of a single check never runs
    out; at most one opens. *)
Lemma side_loss_total (side : string) (vs : list Z) :
  (1 <= length vs)%nat ->
  exists loss ns rest,
    side_loss side vs = Some (loss, ns, rest) /\ (length ns <= 1)%nat.
Proof.
  intros Hvs. destruct vs as [|v vs]; simpl in Hvs; [lia|].
  unfold side_loss. destruct (Spec.fixed_value side);
    do 3 eexists; (split; [reflexivity|simpl; lia]).
Qed.

(** X5.  A sanity check of one character opens the dialog for 1d100 and
    at most one more, for the loss.  The loss is that of the side of the
    notation that applies: its fixed value, or else the result of the
    dialog opened for it.  The character ends with the larger of 0 and
    the current SAN minus the loss; SAN maximum and HP stay, and every
    other member of the party keeps their SAN.  The game is over exactly
    when the loss is at least the current SAN, and then nothing is sent
    to the narrator; otherwise one request without a check result goes
    out (none without a session), and it carries the party as it was
    when the check began, before the loss. *)
Theorem single_check_outcome
    (s : State) (c : Character) (cid roll reason : string)
    (sanRoll : Z) (vs : list Z) (g : Rng) :
  String.eqb cid "all" = false ->
  find_character (characters s) cid = Some c ->
  (1 <= length vs)%nat ->
  exists reason1 onComplete leaf ns loss rest,
    handleSanityCheck s roll reason cid = Some (Roll "1d100" reason1 onComplete)
    /\ answer (onComplete sanRoll) vs = Some (leaf, ns)
    /\ side_loss (loss_side roll (sanRoll <=? current (san c))) vs
       = Some (loss, ns, rest)
    /\ (length ns <= 1)%nat
    /\ (forall j cj, characters s !! j = Some cj ->
          exists cj',
            characters (fst (leaf g)) !! j = Some cj'
            /\ id cj' = id cj
            /\ max (san cj') = max (san cj)
            /\ hp cj' = hp cj
            /\ current (san cj')
               = if String.eqb (id cj) cid
                 then Z.max 0 (current (san c) - loss)
                 else current (san cj))
    /\ gameOverCalled (fst (leaf g))
       = (gameOverCalled s || (current (san c) <=? loss))
    /\ (exists text,
          sent (fst (leaf g))
          = if (current (san c) <=? loss) || negb (chatSession s) then sent s
            else sent s ++ [mkRequest text (characters s) None]).
Proof.
  intros Hall Hfind Hvs.
  destruct (side_loss_total (loss_side roll (sanRoll <=? current (san c))) vs Hvs)
    as (loss & ns & rest & Hside & Hlen).
  unfold handleSanityCheck. rewrite Hall, Hfind.
  set (s' := set_characters (set_lastFailedSkillCheck s None)
               (decrementMadnessDuration (characters s))).
  do 3 eexists. exists ns, loss, rest. split; [reflexivity|].
  rewrite SanityProofs.single_answer, Hside.
  split; [reflexivity|]. split; [reflexivity|]. split; [exact Hlen|].
  destruct (sanLoss_known_final s s' c cid reason sanRoll (current (san c))
              (sanRoll <=? current (san c)) loss g)
    as (Hcs & Hgo & (text & Hsent) & _).
  rewrite max0_le in Hgo, Hsent.
  split; [|split; [exact Hgo|exists text; exact Hsent]].
  intros j cj Hj. rewrite Hcs.
  assert (Hj' : characters s' !! j = Some (tick cj)).
  { subst s'. simpl. unfold decrementMadnessDuration.
    rewrite list_lookup_fmap, Hj. reflexivity. }
  unfold updateCharacterState. rewrite list_lookup_fmap, Hj'. simpl.
  destruct (tick_frame cj) as (Hid & Hsan & Hhp & _).
  rewrite Hid. eexists. split; [reflexivity|].
  destruct (String.eqb (id cj) cid); simpl; rewrite ?Hid, ?Hsan, ?Hhp;
    repeat split.
Qed.

Lemma single_check_outcome_witness :
  String.eqb "c1" "all" = false
  /\ find_character (characters Sample.table) "c1" = Some Sample.investigator
  /\ (1 <= length [4])%nat
  /\ exists reason1 onComplete leaf,
       handleSanityCheck Sample.table "1/1d6" "怪物を見た" "c1"
       = Some (Roll "1d100" reason1 onComplete)
       /\ answer (onComplete 80) [4] = Some (leaf, ["1d6"%string])
       /\ option_map (fun c' => current (san c'))
            (characters (fst (leaf (const_rng (1 # 2)))) !! 0%nat)
          = Some 46.
Proof.
  split; [reflexivity|]. split; [reflexivity|].
  assert (Hlen : (1 <= length [4])%nat) by (simpl; lia).
  split; [exact Hlen|].
  destruct (single_check_outcome Sample.table Sample.investigator "c1" "1/1d6"
              "怪物を見た" 80 [4] (const_rng (1 # 2)) eq_refl eq_refl Hlen)
    as (reason1 & onComplete & leaf & ns & loss & rest
        & H1 & H2 & H3 & _ & H5 & _).
  injection H3 as <- <- _.
  exists reason1, onComplete, leaf.
  split; [exact H1|]. split; [exact H2|].
  destruct (H5 0%nat Sample.investigator eq_refl) as (c' & Hc' & _ & _ & _ & Hs).
  rewrite Hc'. simpl option_map. rewrite Hs. reflexivity.
Defined.

(** Whether a loss takes a member of the party, by the shared roll, to 0. *)
Local Abbreviation lost_to firstRoll sL fL :=
  (fun c : Character =>
     current (san c) <=? (if firstRoll <=? current (san c) then sL else fL)).

Lemma process_results_over cs firstRoll sL fL : forall cur am go g,
  is_some (fst (process_results (san_results cs firstRoll) sL fL cur am go g)).2
  = (is_some go || existsb (lost_to firstRoll sL fL) cs).
Proof.
  induction cs as [|c cs IH]; intros cur am go g.
  - simpl. now rewrite orb_false_r.
  - simpl. unfold bind at 1.
    destruct (if _ >? 0 then _ else _) as [madnessResult g'].
    rewrite IH. unfold Math_max. rewrite max0_le.
    destruct (current (san c) <=? _); destruct go; reflexivity.
Qed.

Lemma processAll_over s s' cs firstRoll sL fL reason g :
  let final := fst (processAllCharactersSanCheck s s'
                      (san_results cs firstRoll) sL fL reason g) in
  let lost := existsb (lost_to firstRoll sL fL) cs in
  gameOverCalled final = (gameOverCalled s' || lost)
  /\ exists text,
       sent final
       = if lost || negb (chatSession s) then sent s'
         else sent s' ++ [mkRequest text (characters s) None].
Proof.
  intros final lost. subst final.
  pose proof (process_results_over cs firstRoll sL fL (characters s') false None g)
    as Hover.
  fold lost in Hover. clearbody lost. unfold processAllCharactersSanCheck, bind.
  destruct (process_results _ _ _ _ _ _ g) as [[[cs' am] go] g'].
  simpl in Hover. destruct go as [ch|]; simpl in Hover; subst lost.
  - cbn [fst]. simpl. rewrite orb_true_r. split; [reflexivity|].
    exists EmptyString. reflexivity.
  - cbn [fst]. unfold handleSystemAction. simpl.
    destruct (chatSession s); simpl; rewrite ?orb_false_r;
      (split; [reflexivity|]);
      first [exists EmptyString; reflexivity | eexists; reflexivity].
Qed.

(** X6.  A party-wide check ends the game exactly when the loss of their
    branch is at least the current SAN of some member; the two losses
    are those of the notation, each side that applies to someone being
    evaluated once, as its fixed value or else as the result of its
    dialog.  Then nothing is sent to the narrator; otherwise one request
    without a check result goes out (none without a session), carrying
    the party as it was before the check. *)
Theorem party_check_game_over
    (s : State) (roll reason : string) (firstRoll : Z) (vs : list Z) (g : Rng) :
  (2 <= length vs)%nat ->
  exists reason1 onComplete leaf ns successLoss failureLoss,
    handleSanityCheck s roll reason "all" = Some (Roll "1d100" reason1 onComplete)
    /\ answer (onComplete firstRoll) vs = Some (leaf, ns)
    /\ party_losses roll (anySuccess (characters s) firstRoll)
         (anyFailure (characters s) firstRoll) vs
       = Some (successLoss, failureLoss, ns)
    /\ gameOverCalled (fst (leaf g))
       = (gameOverCalled s
          || existsb (lost_to firstRoll successLoss failureLoss) (characters s))
    /\ exists text,
         sent (fst (leaf g))
         = if existsb (lost_to firstRoll successLoss failureLoss) (characters s)
              || negb (chatSession s)
           then sent s
           else sent s ++ [mkRequest text (characters s) None].
Proof.
  intros Hvs.
  unfold handleSanityCheck. simpl String.eqb. cbv iota.
  destruct (SanityProofs.party_losses_total roll
              (anySuccess (characters s) firstRoll)
              (anyFailure (characters s) firstRoll) vs Hvs)
    as (sL & fL & ns & Hlosses & _).
  do 3 eexists. exists ns, sL, fL. split; [reflexivity|].
  rewrite SanityProofs.party_answer, Hlosses.
  split; [reflexivity|]. split; [reflexivity|].
  exact (processAll_over s
           (set_characters (set_lastFailedSkillCheck s None)
              (decrementMadnessDuration (characters s)))
           (characters s) firstRoll sL fL reason g).
Qed.

Lemma party_check_game_over_witness :
  (2 <= length [4; 9])%nat
  /\ exists reason1 onComplete leaf,
       handleSanityCheck Sample.table "0/40" "怪物を見た" "all"
       = Some (Roll "1d100" reason1 onComplete)
       /\ answer (onComplete 40) [4; 9] = Some (leaf, [])
       /\ gameOverCalled (fst (leaf (const_rng (1 # 2)))) = true.
Proof.
  assert (Hlen : (2 <= length [4; 9])%nat) by (simpl; lia).
  split; [exact Hlen|].
  destruct (party_check_game_over Sample.table "0/40" "怪物を見た" 40 [4; 9]
              (const_rng (1 # 2)) Hlen)
    as (reason1 & onComplete & leaf & ns & sL & fL & H1 & H2 & H3 & H4 & _).
  injection H3 as <- <- <-.
  exists reason1, onComplete, leaf.
  split; [exact H1|]. split; [exact H2|]. rewrite H4. reflexivity.
Defined.

(** The sample party, loss "0/40" and shared roll 40: the first
    investigator succeeds and loses nothing, the second fails, falls from
    30 to 0, and the game is over without a request. *)
Example party_game_over_sample :
  match handleSanityCheck Sample.table "0/40" "怪物を見た" "all" with
  | Some (Roll _ _ onComplete) =>
      match answer (onComplete 40) [] with
      | Some (leaf, ns) =>
          let final := fst (leaf (const_rng (1 # 2))) in
          (map (fun c => current (san c)) (characters final),
           gameOverCalled final, length (sent final), ns)
      | None => ([], false, 0%nat, [])
      end
  | _ => ([], false, 0%nat, [])
  end = ([50; 0], true, 0%nat, []).
Proof. vm_compute. reflexivity. Qed.

End OutcomeProofs.

(** * Dice *)

Module DiceProofs.
Import Js Str DiceUtil Creation.

(** The generator after [n] draws. *)
Local Abbreviation after n g := (fun k : nat => g (n + k)%nat).

Lemma rng_ok_after (n : nat) (g : Rng) : rng_ok g -> rng_ok (after n g).
Proof. intros Hg k. apply Hg. Qed.

(** A die of no sides shows 1: [Math.floor(u * 0) + 1]. *)
Lemma rollDie_bounds (sides : Z) (g : Rng) :
  rng_ok g -> 0 <= sides ->
  1 <= fst (rollDie sides g) <= Z.max 1 sides
  /\ snd (rollDie sides g) = after 1 g.
Proof.
  intros Hg Hs. split; [|reflexivity].
  unfold rollDie, bind, Math_random, ret. cbv beta iota. unfold fst.
  destruct (Hg 0%nat) as [H0 H1].
  destruct (Z.eq_dec sides 0) as [->|Hne].
  - assert (Hz : Math_floor (g 0%nat * inject_Z 0) = 0).
    { unfold Math_floor. change 0 with (Qfloor 0) at 2.
      apply Qfloor_comp. change (inject_Z 0) with 0%Q. ring. }
    rewrite Hz. lia.
  - assert (Hpos : 0 < sides) by lia.
    pose proof (MadnessProofs.floor_draw_range _ _ H0 H1 Hpos). lia.
Qed.

Lemma roll_loop_bounds (sides : Z) (n : nat) : forall (total : Z) (g : Rng),
  rng_ok g -> 0 <= sides ->
  total + Z.of_nat n <= fst (roll_loop n sides total g)
    <= total + Z.of_nat n * Z.max 1 sides
  /\ snd (roll_loop n sides total g) = after n g.
Proof.
  induction n as [|n IH]; intros total g Hg Hs.
  - simpl. split; [lia|reflexivity].
  - cbn [roll_loop]. unfold bind.
    destruct (rollDie_bounds sides g Hg Hs) as [Hr Hnext].
    destruct (rollDie sides g) as [r g1]. simpl in Hr, Hnext. cbv beta iota.
    assert (Hg1 : rng_ok g1) by (rewrite Hnext; exact (rng_ok_after 1 g Hg)).
    destruct (IH (total + r) g1 Hg1 Hs) as [Hb Hn].
    split; [|rewrite Hn, Hnext; reflexivity].
    set (x := fst (roll_loop n sides (total + r) g1)) in *.
    rewrite Nat2Z.inj_succ. nia.
Qed.

(** X7.  [rollDice] of [count] dice of [sides] sides, [sides] not
    negative, consumes one draw per die and returns a total from the
    number of dice to that number times the sides; a count that is not
    positive rolls nothing and gives 0, and a die of no sides counts 1. *)
Theorem dice_total_between_count_and_count_times_sides
    (count sides : Z) (g : Rng) :
  rng_ok g -> 0 <= sides ->
  Z.max 0 count <= fst (rollDice count sides g)
    <= Z.max 0 count * Z.max 1 sides
  /\ snd (rollDice count sides g) = after (Z.to_nat count) g
  /\ (1 <= sides -> 1 <= fst (rollDie sides g) <= sides).
Proof.
  intros Hg Hs. unfold rollDice.
  destruct (roll_loop_bounds sides (Z.to_nat count) 0 g Hg Hs) as [Hb Hn].
  split; [|split; [exact Hn|]].
  - replace (Z.max 0 count) with (Z.of_nat (Z.to_nat count)) by lia. lia.
  - intros H1. destruct (rollDie_bounds sides g Hg Hs) as [Hr _]. lia.
Qed.

Lemma dice_total_between_count_and_count_times_sides_witness :
  rng_ok (const_rng (1 # 2)) /\ 0 <= 6
  /\ 3 <= fst (rollDice 3 6 (const_rng (1 # 2))) <= 18.
Proof.
  assert (Hg : rng_ok (const_rng (1 # 2))).
  { intros n. split; unfold const_rng; [discriminate|reflexivity]. }
  split; [exact Hg|]. split; [lia|].
  destruct (dice_total_between_count_and_count_times_sides 3 6
              (const_rng (1 # 2)) Hg ltac:(lia)) as [H _].
  exact H.
Defined.

Lemma span_digits_all (s : string) : all_digits (fst (span_digits s)) = true.
Proof.
  induction s as [|c r IH]; [reflexivity|].
  simpl. destruct (is_digit c) eqn:E; [|reflexivity].
  destruct (span_digits r) as [d rest]. simpl in *. rewrite E. exact IH.
Qed.

Lemma int_of_digits (s : string) : all_digits s = true -> 0 <= int_of s.
Proof.
  intros H. unfold int_of. destruct s as [|c r]; [reflexivity|].
  rewrite (StringProofs.parseInt_digits (String c r) ltac:(discriminate) H).
  change (0 <= digits_value 0 (String c r)).
  apply StringProofs.digits_value_nonneg; [lia|exact H].
Qed.

(** The count and the sides the pattern captures are strings of digits. *)
Lemma match_here_groups (s : string) m1 m2 m3 :
  match_here s = Some (m1, m2, m3) ->
  all_digits (default EmptyString m1) = true /\ all_digits m2 = true.
Proof.
  unfold match_here. pose proof (span_digits_all s) as H1.
  destruct (span_digits s) as [g1 r1]. simpl in H1.
  destruct r1 as [|c r2]; [discriminate|].
  destruct (Ascii.eqb c "d") eqn:Ec.
  - apply Ascii.eqb_eq in Ec. subst c.
    pose proof (span_digits_all r2) as H2.
    destruct (span_digits r2) as [g2 r3]. simpl in H2.
    destruct g2 as [|c2 g2]; [discriminate|].
    intros H. injection H as <- <- _. split; [|exact H2].
    destruct g1; [reflexivity|exact H1].
  - destruct c as [[] [] [] [] [] [] [] []]; try discriminate Ec; discriminate.
Qed.

Lemma regex_match_groups (s : string) m1 m2 m3 :
  regex_match s = Some (m1, m2, m3) ->
  all_digits (default EmptyString m1) = true /\ all_digits m2 = true.
Proof.
  induction s as [|c r IH]; [discriminate|].
  cbn [regex_match].
  destruct (match_here (String c r)) as [m|] eqn:E; [|exact IH].
  intros H. injection H as ->. exact (match_here_groups _ _ _ _ E).
Qed.

(** X8.  [parseAndRoll]: when the pattern does not occur in the notation
    the result is 0 and nothing is drawn.  When it occurs, with [n] dice
    of [m] sides and modifier [k], one draw per die is consumed and the
    result lies from [n + k] to [n * m + k] (a die of no sides counts 1). *)
Theorem parseAndRoll_between_bounds (notation : string) (g : Rng) :
  rng_ok g ->
  match regex_match (remove_spaces (toLowerCase notation)) with
  | None => parseAndRoll notation g = (0, g)
  | Some (m1, m2, m3) =>
      let numDice := match m1 with Some d => int_of d | None => 1 end in
      let numSides := int_of m2 in
      let modifier := match m3 with Some m => int_of m | None => 0 end in
      0 <= numDice /\ 0 <= numSides
      /\ numDice + modifier <= fst (parseAndRoll notation g)
           <= numDice * Z.max 1 numSides + modifier
      /\ snd (parseAndRoll notation g) = after (Z.to_nat numDice) g
  end.
Proof.
  intros Hg. unfold parseAndRoll.
  destruct (regex_match (remove_spaces (toLowerCase notation)))
    as [[[m1 m2] m3]|] eqn:E; [|reflexivity].
  destruct (regex_match_groups _ _ _ _ E) as [H1 H2].
  cbv zeta.
  set (numDice := match m1 with Some d => int_of d | None => 1 end).
  set (modifier := match m3 with Some m => int_of m | None => 0 end).
  assert (Hn : 0 <= numDice).
  { subst numDice. destruct m1 as [d|]; [apply int_of_digits, H1|lia]. }
  pose proof (int_of_digits m2 H2) as Hm.
  destruct (roll_loop_bounds (int_of m2) (Z.to_nat numDice) 0 g Hg Hm) as [Hb Hs].
  unfold bind. destruct (roll_loop (Z.to_nat numDice) (int_of m2) 0 g) as [total g1].
  simpl in *. rewrite Z2Nat.id in Hb by exact Hn.
  repeat split; try lia. exact Hs.
Qed.

Lemma parseAndRoll_between_bounds_witness :
  rng_ok (const_rng (1 # 2))
  /\ 2 + 6 <= fst (parseAndRoll "2D6 + 6" (const_rng (1 # 2))) <= 2 * 6 + 6.
Proof.
  assert (Hg : rng_ok (const_rng (1 # 2))).
  { intros n. split; unfold const_rng; [discriminate|reflexivity]. }
  split; [exact Hg|].
  pose proof (parseAndRoll_between_bounds "2D6 + 6" (const_rng (1 # 2)) Hg) as H.
  simpl in H. destruct H as (_ & _ & H & _). exact H.
Defined.

(** The attributes a roll can give. *)
Local Abbreviation rolled_in_range statName v :=
  (match statName with
   | SIZ | INT => 8 <= v <= 18
   | EDU => 6 <= v <= 21
   | STR | CON | POW | DEX | APP => 3 <= v <= 18
   end).

Lemma stat_roll_range (statName : StatName) (g : Rng) :
  rng_ok g ->
  rolled_in_range statName (fst (parseAndRoll (getStatRollNotation statName) g))
  /\ rng_ok (snd (parseAndRoll (getStatRollNotation statName) g)).
Proof.
  intros Hg.
  pose proof (parseAndRoll_range_aux := fun n =>
    roll_loop_bounds 6 n 0 g Hg ltac:(lia)).
  destruct statName; simpl getStatRollNotation.
  all: match goal with
       | |- context [parseAndRoll "3d6"] =>
           change (parseAndRoll "3d6" g)
             with (bind (roll_loop 3 6 0) (fun total => ret (total + 0)) g);
           pose proof (parseAndRoll_range_aux 3%nat) as [Hb Hs]
       | |- context [parseAndRoll "2d6+6"] =>
           change (parseAndRoll "2d6+6" g)
             with (bind (roll_loop 2 6 0) (fun total => ret (total + 6)) g);
           pose proof (parseAndRoll_range_aux 2%nat) as [Hb Hs]
       | |- context [parseAndRoll "3d6+3"] =>
           change (parseAndRoll "3d6+3" g)
             with (bind (roll_loop 3 6 0) (fun total => ret (total + 3)) g);
           pose proof (parseAndRoll_range_aux 3%nat) as [Hb Hs]
       end.
  all: unfold bind; destruct (roll_loop _ 6 0 g) as [total g1];
    simpl in Hb, Hs; subst g1; simpl fst; simpl snd;
    (split; [lia|intros k; apply Hg]).
Qed.


Lemma get_set_stat (st : Stats) (n : StatName) (v : Z) :
  get_stat (set_stat st n v) n = v.
Proof. destruct n; reflexivity. Qed.

(** All eight attributes within the ranges of their dice. *)
Local Abbreviation in_ranges st :=
  (3 <= st_STR st <= 18 /\ 3 <= st_CON st <= 18 /\ 3 <= st_POW st <= 18
   /\ 3 <= st_DEX st <= 18 /\ 3 <= st_APP st <= 18 /\ 8 <= st_SIZ st <= 18
   /\ 8 <= st_INT st <= 18 /\ 6 <= st_EDU st <= 21).

Ltac roll_step Hg :=
  match goal with
  | |- context [bind (parseAndRoll (getStatRollNotation ?n)) _ ?g] =>
      let Hv := fresh "Hv" in
      let Hg' := fresh "Hg" in
      let v := fresh "v" in
      let g' := fresh "g" in
      unfold bind at 1;
      destruct (stat_roll_range n g Hg) as [Hv Hg'];
      destruct (parseAndRoll (getStatRollNotation n) g) as [v g'];
      cbn [fst snd] in Hv, Hg'; cbv beta iota;
      cbn [roll_stats]
  end.

Lemma roll_stats_range (st0 : Stats) (g : Rng) :
  rng_ok g ->
  in_ranges (fst (roll_stats stat_keys st0 g))
  /\ rng_ok (snd (roll_stats stat_keys st0 g)).
Proof.
  intros Hg.
  assert (H : exists st g', roll_stats stat_keys st0 g = (st, g')
                            /\ in_ranges st /\ rng_ok g').
  { unfold stat_keys. cbn [roll_stats].
    roll_step Hg. roll_step Hg0. roll_step Hg1. roll_step Hg2.
    roll_step Hg3. roll_step Hg4. roll_step Hg5. roll_step Hg6.
    unfold ret. do 2 eexists. split; [reflexivity|]. split; [|exact Hg7].
    simpl. repeat split; lia. }
  destruct H as (st & g' & -> & Hr & Hg'). split; [exact Hr|exact Hg'].
Qed.

Section WithConstants.

Variable INITIAL_SKILLS : gmap string Z.
Variable DYNAMIC_BASE_SKILLS : gmap string (Stats -> Z).
Variable ALL_SKILLS : list string.

Local Abbreviation rollAll := (rollAll_map INITIAL_SKILLS DYNAMIC_BASE_SKILLS ALL_SKILLS).
Local Abbreviation rollUpd := (rollAllUpdate INITIAL_SKILLS DYNAMIC_BASE_SKILLS ALL_SKILLS).

(** [handleRollAllStats] seen from one position of the roster, with the
    ranges of the rolled attributes. *)
Lemma rollAll_map_ranges allocs a cs : forall g i c,
  rng_ok g ->
  exists cs' g',
    rollAll allocs a cs g = (cs', g')
    /\ rng_ok g'
    /\ (cs !! i = Some c ->
        exists newStats,
          in_ranges newStats
          /\ cs' !! i
             = Some (if String.eqb (id c) a then rollUpd allocs newStats c
                     else c)).
Proof.
  induction cs as [|c0 cs IH]; intros g i c Hg.
  - exists [], g. split; [reflexivity|]. split; [exact Hg|].
    destruct i; discriminate.
  - rewrite CreationProofs.rollAll_map_cons. destruct (String.eqb (id c0) a) eqn:E.
    + unfold bind at 1. destruct (roll_stats_range (stats c0) g Hg) as [Hr Hg1].
      destruct (roll_stats stat_keys (stats c0) g) as [newStats g1].
      cbn [fst snd] in Hr, Hg1. unfold bind at 1.
      destruct i as [|i]; cbn [lookup list_lookup].
      * destruct (IH g1 0%nat c Hg1) as (rest' & g2 & -> & Hg2 & _).
        do 2 eexists. split; [reflexivity|]. split; [exact Hg2|].
        intros Hi. injection Hi as <-.
        exists newStats. split; [exact Hr|].
        cbn [lookup list_lookup]. rewrite E. reflexivity.
      * destruct (IH g1 i c Hg1) as (rest' & g2 & -> & Hg2 & Hlook).
        do 2 eexists. split; [reflexivity|]. split; [exact Hg2|].
        intros Hi. exact (Hlook Hi).
    + unfold bind at 1.
      destruct i as [|i]; cbn [lookup list_lookup].
      * destruct (IH g 0%nat c Hg) as (rest' & g2 & -> & Hg2 & _).
        do 2 eexists. split; [reflexivity|]. split; [exact Hg2|].
        intros Hi. injection Hi as <-.
        exists (mkStats 3 3 3 3 3 8 8 6). split; [simpl; lia|].
        cbn [lookup list_lookup]. rewrite E. reflexivity.
      * destruct (IH g i c Hg) as (rest' & g2 & -> & Hg2 & Hlook).
        do 2 eexists. split; [reflexivity|]. split; [exact Hg2|].
        intros Hi. exact (Hlook Hi).
Qed.

(** X9.  Rolled attributes stay within the ranges of their dice: a single
    roll replaces the attribute of the active character by a value of 8
    to 18 for SIZ and INT, 6 to 21 for EDU and 3 to 18 for the others;
    after the roll of all attributes every attribute is within its
    range, and so HP is 6 to 18, MP 3 to 18 and the SAN maximum a
    multiple of 5 from 15 to 90. *)
Theorem rolled_attributes_within_dice_ranges
    (s : Screen) (a : string) (i : nat) (c : Character) (statName : StatName)
    (g : Rng) :
  rng_ok g ->
  activeCharacterId s = Some a ->
  characters s !! i = Some c ->
  id c = a ->
  (exists c',
     characters (fst (handleStatRollRequest INITIAL_SKILLS DYNAMIC_BASE_SKILLS
                        ALL_SKILLS s statName g)) !! i = Some c'
     /\ rolled_in_range statName (get_stat (stats c') statName))
  /\ (exists c',
        characters (fst (handleRollAllStats INITIAL_SKILLS DYNAMIC_BASE_SKILLS
                           ALL_SKILLS s g)) !! i = Some c'
        /\ in_ranges (stats c')
        /\ 6 <= max (hp c') <= 18
        /\ 3 <= max (mp c') <= 18
        /\ 15 <= max (san c') <= 90
        /\ max (san c') = 5 * st_POW (stats c')).
Proof.
  intros Hg Ha Hi Hid. split.
  - unfold handleStatRollRequest, find_active. rewrite Ha.
    destruct (CreationProofs.find_character_id _ _ _ _ Hi Hid) as (act & -> & Hact).
    unfold bind. destruct (stat_roll_range statName g Hg) as [Hv _].
    destruct (parseAndRoll (getStatRollNotation statName) g) as [v g1].
    cbn [fst] in Hv. unfold ret, fst, handleStatUpdate. cbn [characters with_characters].
    rewrite (CreationProofs.updateCharacter_lookup _ _ _ _ _ Hi).
    rewrite Hact, <- Hid, String.eqb_refl.
    eexists. split; [reflexivity|].
    unfold statUpdate. cbn [stats]. rewrite get_set_stat. exact Hv.
  - unfold handleRollAllStats. rewrite Ha. unfold bind.
    destruct (rollAll_map_ranges (allocations s) a (characters s) g i c Hg)
      as (cs & g1 & -> & _ & Hlook).
    destruct (Hlook Hi) as (newStats & Hr & Hl).
    unfold ret, fst. cbn [characters with_characters].
    rewrite Hl, Hid, String.eqb_refl.
    eexists. split; [reflexivity|].
    unfold rollAllUpdate. cbn [stats hp mp san max].
    rewrite CreationProofs.ceil_half.
    split; [exact Hr|].
    destruct Hr as (_ & Hcon & Hpow & _ & _ & Hsiz & _).
    pose proof (Z.div_mod (st_CON newStats + st_SIZ newStats + 1) 2 ltac:(lia)).
    pose proof (Z.mod_pos_bound (st_CON newStats + st_SIZ newStats + 1) 2 ltac:(lia)).
    repeat split; lia.
Qed.

End WithConstants.

Lemma rolled_attributes_within_dice_ranges_witness :
  rng_ok (const_rng (1 # 2))
  /\ activeCharacterId Sample.roster = Some "c1"%string
  /\ characters Sample.roster !! 0%nat = Some Sample.investigator
  /\ exists c',
       characters (fst (handleStatRollRequest Sample.initial_skills
                          Sample.dynamic_base_skills Sample.all_skills
                          Sample.roster EDU (const_rng (1 # 2)))) !! 0%nat
       = Some c'
       /\ 6 <= st_EDU (stats c') <= 21.
Proof.
  assert (Hg : rng_ok (const_rng (1 # 2))).
  { intros n. split; unfold const_rng; [discriminate|reflexivity]. }
  split; [exact Hg|]. split; [reflexivity|]. split; [reflexivity|].
  destruct (rolled_attributes_within_dice_ranges Sample.initial_skills
              Sample.dynamic_base_skills Sample.all_skills Sample.roster
              "c1" 0 Sample.investigator EDU (const_rng (1 # 2))
              Hg eq_refl eq_refl eq_refl) as [H _].
  exact H.
Defined.

End DiceProofs.

(** * The roster of the creation screen *)

Module RosterProofs.
Import Js Creation Roster.

(** X10.  Whatever is typed into the field of an attribute, the value
    passed on when the field loses the focus lies from 1 to 99: the number
    read by [parseInt], raised to 1 or lowered to 99, and 1 when no number
    can be read.  That value becomes the attribute of the character. *)
Theorem typed_attribute_is_clamped
    (INITIAL_SKILLS : gmap string Z) (DYNAMIC_BASE_SKILLS : gmap string (Stats -> Z))
    (ALL_SKILLS : list string)
    (allocs : gmap string (gmap string SkillAllocation))
    (displayValue idv : string) (statName : StatName) (c : Character) :
  handleBlur displayValue
  = match Str.parseInt displayValue with
    | Some n => Z.min 99 (Z.max 1 n)
    | None => 1
    end
  /\ 1 <= handleBlur displayValue <= 99
  /\ 1 <= get_stat (stats (statUpdate INITIAL_SKILLS DYNAMIC_BASE_SKILLS ALL_SKILLS
                            allocs idv statName (handleBlur displayValue) c))
                   statName <= 99.
Proof.
  assert (H : handleBlur displayValue
              = match Str.parseInt displayValue with
                | Some n => Z.min 99 (Z.max 1 n)
                | None => 1
                end).
  { unfold handleBlur. destruct (Str.parseInt displayValue) as [n|]; [|reflexivity].
    destruct (Z.ltb_spec n 1).
    - change (1 >? 99) with false. cbv iota. lia.
    - destruct (Z.gtb_spec n 99); lia. }
  assert (Hr : 1 <= handleBlur displayValue <= 99).
  { rewrite H. destruct (Str.parseInt displayValue); lia. }
  split; [exact H|]. split; [exact Hr|].
  unfold statUpdate. cbn [stats]. rewrite DiceProofs.get_set_stat. exact Hr.
Qed.

(** A typed number outside of the range, and a text that is no number. *)
Example typed_attribute_samples :
  handleBlur "150" = 99 /\ handleBlur "0" = 1 /\ handleBlur "-7" = 1
  /\ handleBlur "abc" = 1 /\ handleBlur "" = 1 /\ handleBlur " 42" = 42
  /\ handleBlur "12.5" = 12.
Proof. repeat split. Qed.


Lemma includes_elem (l : list string) (x : string) :
  includes l x = true <-> x ∈ l.
Proof.
  unfold includes. rewrite existsb_exists. split.
  - intros (y & Hin & Hy). apply String.eqb_eq in Hy. subst y.
    apply list_elem_of_In, Hin.
  - intros Hin. exists x. split; [apply list_elem_of_In, Hin|apply String.eqb_refl].
Qed.

Lemma includes_ext (l1 l2 : list string) (x : string) :
  (x ∈ l1 <-> x ∈ l2) -> includes l1 x = includes l2 x.
Proof.
  intros H. apply eq_true_iff_eq. rewrite !includes_elem. exact H.
Qed.

Lemma elem_filter_other (l : list string) (x y : string) :
  y ∈ filter (fun z : string => negb (String.eqb z x)) l <-> y <> x /\ y ∈ l.
Proof.
  rewrite list_elem_of_filter. split; intros [H1 H2]; split; try exact H2.
  - intros ->. rewrite String.eqb_refl in H1. exact H1.
  - destruct (String.eqb_spec y x); [contradiction|exact I].
Qed.

(** X11.  The own list of occupational skills of a character never grows
    beyond 8: a click on a skill that is selected takes it out, a click on
    one that is not selected adds it while fewer than 8 are selected and
    does nothing otherwise.  No other skill enters or leaves the list,
    nothing else of the character changes, and the other characters are
    not touched. *)
Theorem custom_occupation_holds_at_most_eight
    (s : Screen) (charId skillName : string) (i : nat) (c : Character) :
  characters s !! i = Some c ->
  exists c',
    characters (handleCustomOccSkillToggle s charId skillName) !! i = Some c'
    /\ if String.eqb (id c) charId then
         let l := customOccupationalSkills c in
         let l' := customOccupationalSkills c' in
         includes l' skillName
         = (if includes l skillName then false else (length l <? 8)%nat)
         /\ (forall x, x <> skillName -> includes l' x = includes l x)
         /\ (length l' <= Nat.max 8 (length l))%nat
         /\ c' = with_customOccupationalSkills c l'
       else c' = c.
Proof.
  intros Hi. unfold handleCustomOccSkillToggle. cbn [characters with_characters].
  rewrite (CreationProofs.updateCharacter_lookup _ _ _ _ _ Hi).
  eexists. split; [reflexivity|].
  destruct (String.eqb (id c) charId); [|reflexivity].
  cbv zeta.
  destruct (includes (customOccupationalSkills c) skillName) eqn:Hin.
  - cbn [customOccupationalSkills with_customOccupationalSkills].
    split; [|split; [|split; [|reflexivity]]].
    + apply not_true_is_false. rewrite includes_elem, elem_filter_other.
      intros [H _]. contradiction.
    + intros x Hx. apply includes_ext. rewrite elem_filter_other. tauto.
    + pose proof (length_filter (fun z : string => negb (String.eqb z skillName))
                    (customOccupationalSkills c)). lia.
  - destruct (Nat.leb_spec 8 (length (customOccupationalSkills c))) as [Hfull|Hroom].
    + split; [|split; [reflexivity|split; [lia|destruct c; reflexivity]]].
      rewrite Hin. symmetry. apply Nat.ltb_ge. exact Hfull.
    + cbn [customOccupationalSkills with_customOccupationalSkills].
      split; [|split; [|split; [|reflexivity]]].
      * rewrite (proj2 (Nat.ltb_lt _ _) Hroom). apply includes_elem.
        apply elem_of_app. right. apply list_elem_of_singleton. reflexivity.
      * intros x Hx. apply includes_ext. rewrite elem_of_app, list_elem_of_singleton.
        tauto.
      * rewrite length_app. simpl. lia.
Qed.

Lemma custom_occupation_holds_at_most_eight_witness :
  characters Sample.roster !! 0%nat = Some Sample.investigator
  /\ exists c',
       characters (handleCustomOccSkillToggle Sample.roster "c1" "目星") !! 0%nat
       = Some c'
       /\ includes (customOccupationalSkills c') "目星" = true.
Proof.
  split; [reflexivity|].
  destruct (custom_occupation_holds_at_most_eight Sample.roster "c1" "目星" 0
              Sample.investigator eq_refl) as (c' & Hc' & H).
  exists c'. split; [exact Hc'|]. simpl in H. destruct H as (H & _). exact H.
Defined.

Lemma find_character_elem (cs : list Character) (a : string) (c : Character) :
  c ∈ cs -> id c = a -> exists c0, find_character cs a = Some c0 /\ id c0 = a.
Proof.
  intros Hin Hid. apply list_elem_of_lookup in Hin. destruct Hin as [i Hi].
  exact (CreationProofs.find_character_id _ _ _ _ Hi Hid).
Qed.

Lemma find_character_in (cs : list Character) (a : string) (c : Character) :
  find_character cs a = Some c -> c ∈ cs /\ id c = a.
Proof.
  unfold find_character. intros H. apply find_some in H. destruct H as [Hin Hid].
  split; [apply list_elem_of_In, Hin|apply String.eqb_eq, Hid].
Qed.

Lemma elem_keep (cs : list Character) (x : string) (c : Character) :
  c ∈ filter (fun c : Character => negb (String.eqb (id c) x)) cs
  <-> c ∈ cs /\ id c <> x.
Proof.
  rewrite list_elem_of_filter. split; intros [H1 H2].
  - split; [exact H2|]. intros E. rewrite E, String.eqb_refl in H1. exact H1.
  - split; [|exact H1]. destruct (String.eqb_spec (id c) x); [contradiction|exact I].
Qed.

Lemma activeEffect_frame (s : Screen) :
  characters (activeEffect s) = characters s
  /\ allocations (activeEffect s) = allocations s.
Proof.
  unfold activeEffect. destruct (characters s) as [|c0 rest] eqn:E.
  - rewrite E. split; reflexivity.
  - destruct (activeCharacterId s) as [[|]|]; cbn [characters allocations];
      rewrite ?E; split; reflexivity.
Qed.

(** X12.  After [removeCharacter], and the effect that follows a change
    of the roster, exactly the characters with another id are left.  The
    removed id is never the active one; when the active id named a
    character of the roster, or was [null], it names one afterwards
    unless the roster is empty.  The points of the removed character stay
    in the allocation table. *)
Theorem removal_keeps_active_character_valid (s : Screen) (idToRemove : string) :
  find_active s <> None \/ activeCharacterId s = None ->
  let s' := activeEffect (removeCharacter s idToRemove) in
  (forall c, c ∈ characters s' <-> c ∈ characters s /\ id c <> idToRemove)
  /\ activeCharacterId (removeCharacter s idToRemove) <> Some idToRemove
  /\ (characters s' <> [] -> find_active s' <> None)
  /\ (characters s' = [] -> activeCharacterId s' = None)
  /\ allocations s' = allocations s.
Proof.
  intros Hvalid s'.
  destruct (activeEffect_frame (removeCharacter s idToRemove)) as [Hcs Hallocs].
  fold s' in Hcs, Hallocs. cbn [removeCharacter characters allocations] in Hcs, Hallocs.
  split; [intros c; rewrite Hcs; apply elem_keep|].
  assert (Hactive : forall a act,
            activeCharacterId s = Some a -> a <> idToRemove ->
            find_character (characters s) a = Some act ->
            exists c1, find_character (characters s') a = Some c1).
  { intros a act Ha Hna Hact. apply find_character_in in Hact.
    destruct Hact as [Hin Hid].
    assert (Hin' : act ∈ characters s').
    { rewrite Hcs. apply elem_keep. split; [exact Hin|congruence]. }
    destruct (find_character_elem _ a act Hin' Hid) as (c1 & Hc1 & _).
    exists c1. exact Hc1. }
  assert (Hfirst : forall c0 rest, characters s' = c0 :: rest ->
            find_character (characters s') (id c0) <> None
            /\ id c0 <> idToRemove).
  { intros c0 rest E.
    assert (Hin : c0 ∈ characters s') by (rewrite E; left).
    destruct (find_character_elem _ (id c0) c0 Hin eq_refl) as (c1 & -> & _).
    split; [discriminate|]. rewrite Hcs in Hin. apply elem_keep in Hin. tauto. }
  rewrite Hcs in Hactive, Hfirst. clear Hcs Hallocs.
  subst s'. unfold activeEffect, find_active, removeCharacter in *.
  cbn [characters activeCharacterId allocations] in *.
  set (kept := filter _ (characters s)) in *. clearbody kept.
  split.
  { destruct (activeCharacterId s) as [a|]; [|discriminate].
    destruct (String.eqb_spec a idToRemove) as [->|Hne].
    - destruct kept as [|c0 rest]; [discriminate|].
      destruct (Hfirst c0 rest eq_refl) as [_ Hid]. congruence.
    - congruence. }
  split; [|split; [|destruct kept as [|c0 rest];
    [|destruct (activeCharacterId s) as [[|]|];
      try destruct (String.eqb _ idToRemove); try destruct (id c0)]; reflexivity]].
  - intros Hne. destruct kept as [|c0 rest]; [cbn [characters] in Hne; congruence|].
    destruct (Hfirst c0 rest eq_refl) as [Hf _].
    destruct (activeCharacterId s) as [a|] eqn:Ha.
    + destruct (String.eqb_spec a idToRemove) as [->|Hna].
      * destruct (id c0) eqn:Eid; cbn [characters activeCharacterId];
          first [exact Hf | rewrite Eid; exact Hf].
      * destruct Hvalid as [Hvalid|Hvalid]; [|discriminate].
        destruct (find_character (characters s) a) as [act|] eqn:Hact; [|congruence].
        destruct (Hactive a act eq_refl Hna Hact) as (c1 & Hc1).
        destruct a; cbn [characters activeCharacterId]; [exact Hf|].
        rewrite Hc1. discriminate.
    + cbn [characters activeCharacterId]. exact Hf.
  - intros Hnil. destruct kept as [|c0 rest]; [|destruct (activeCharacterId s) as [[|]|];
      try destruct (String.eqb _ idToRemove); try destruct (id c0); discriminate Hnil].
    cbn [activeCharacterId].
    destruct (activeCharacterId s) as [a|] eqn:Ha; [|reflexivity].
    destruct (String.eqb_spec a idToRemove) as [->|Hna]; [reflexivity|].
    exfalso. destruct Hvalid as [Hvalid|Hvalid]; [|discriminate].
    destruct (find_character (characters s) a) as [act|] eqn:Hact; [|congruence].
    destruct (Hactive a act eq_refl Hna Hact) as (c1 & Hc1). discriminate Hc1.
Qed.

Lemma removal_keeps_active_character_valid_witness :
  (find_active Sample.roster <> None \/ activeCharacterId Sample.roster = None)
  /\ activeCharacterId (activeEffect (removeCharacter Sample.roster "c1")) = None
  /\ allocations (activeEffect (removeCharacter Sample.roster "c1"))
     = allocations Sample.roster.
Proof.
  assert (H : find_active Sample.roster <> None
              \/ activeCharacterId Sample.roster = None)
    by (left; discriminate).
  split; [exact H|].
  destruct (removal_keeps_active_character_valid Sample.roster "c1" H)
    as (_ & _ & _ & Hnone & Hallocs).
  split; [apply Hnone; reflexivity|exact Hallocs].
Defined.


(** ** Sums of points *)

(** The points of one kind a table holds: the [reduce] of [derivedData]. *)
Local Abbreviation sum_of fld m :=
  (map_fold (fun (_ : string) (a : SkillAllocation) (sum : Z) => sum + fld a) 0 m).

Lemma sum_insert_new (fld : SkillAllocation -> Z)
    (m : gmap string SkillAllocation) (k : string) (v : SkillAllocation) :
  m !! k = None -> sum_of fld (<[k := v]> m) = sum_of fld m + fld v.
Proof.
  intros H.
  apply (map_fold_insert_L (fun (_ : string) (a : SkillAllocation) (sum : Z) =>
                              sum + fld a) 0 k v m); [|exact H].
  intros. lia.
Qed.

Lemma sum_delete (fld : SkillAllocation -> Z)
    (m : gmap string SkillAllocation) (k : string) (old : SkillAllocation) :
  m !! k = Some old -> sum_of fld (delete k m) = sum_of fld m - fld old.
Proof.
  intros H.
  rewrite (map_fold_delete_L (fun _ a sum => sum + fld a) 0 k old m); [lia| |exact H].
  intros. lia.
Qed.

Lemma sum_insert (fld : SkillAllocation -> Z)
    (m : gmap string SkillAllocation) (k : string) (v old : SkillAllocation) :
  m !! k = Some old -> sum_of fld (<[k := v]> m) = sum_of fld m - fld old + fld v.
Proof.
  intros H. rewrite <- insert_delete_eq.
  rewrite sum_insert_new by apply lookup_delete_eq.
  rewrite (sum_delete fld m k old H). reflexivity.
Qed.

Lemma sum_zero (fld : SkillAllocation -> Z) (m : gmap string SkillAllocation) :
  (forall k v, m !! k = Some v -> fld v = 0) -> sum_of fld m = 0.
Proof.
  apply (map_fold_weak_ind
           (fun r m => (forall k v, m !! k = Some v -> fld v = 0) -> r = 0)).
  - reflexivity.
  - intros k v m' r Hk IH Hall.
    assert (Hv : fld v = 0) by (apply (Hall k v), lookup_insert_eq).
    assert (Hr : r = 0).
    { apply IH. intros k' v' Hk'. apply (Hall k' v').
      rewrite lookup_insert_ne; [exact Hk'|]. intros ->. congruence. }
    lia.
Qed.

(** A loop that writes the same entry under every key of a list. *)
Lemma fold_const_lookup (v : SkillAllocation) (l : list string) :
  forall (m : gmap string SkillAllocation) (k : string),
    fold_left (fun acc x => <[x := v]> acc) l m !! k
    = if decide (k ∈ l) then Some v else m !! k.
Proof.
  induction l as [|x l IH]; intros m k; simpl.
  - destruct (decide (k ∈ [])) as [H|H]; [inversion H|reflexivity].
  - rewrite IH. destruct (decide (k ∈ l)) as [H|H].
    + rewrite decide_True by (right; exact H). reflexivity.
    + destruct (decide (k = x)) as [->|Hne].
      * rewrite decide_True by left. apply lookup_insert_eq.
      * rewrite decide_False by (intros Hin; inversion Hin; subst; contradiction).
        apply lookup_insert_ne. congruence.
Qed.

Lemma fold_store_none (f : Character -> gmap string SkillAllocation)
    (a : string) (cs : list Character) :
  a ∉ map id cs ->
  forall al : gmap string (gmap string SkillAllocation),
    fold_left (fun al (char : Character) =>
                 if String.eqb (id char) a then <[id char := f char]> al else al)
      cs al = al.
Proof.
  induction cs as [|c1 cs IH]; intros Hnotin al; [reflexivity|].
  simpl. destruct (String.eqb_spec (id c1) a) as [E|E].
  - exfalso. apply Hnotin. simpl. rewrite E. left.
  - apply IH. intros Hin. apply Hnotin. simpl. right. exact Hin.
Qed.

(** The table of the character with id [a] after a loop over the roster
    that stores a table for each character with that id. *)
Lemma fold_store_lookup (f : Character -> gmap string SkillAllocation)
    (a : string) (cs : list Character) :
  forall (al : gmap string (gmap string SkillAllocation)),
    (forall b, b <> a ->
       fold_left (fun al (char : Character) =>
                    if String.eqb (id char) a then <[id char := f char]> al else al)
         cs al !! b = al !! b)
    /\ (forall i c, NoDup (map id cs) -> cs !! i = Some c -> id c = a ->
          fold_left (fun al (char : Character) =>
                       if String.eqb (id char) a then <[id char := f char]> al
                       else al)
            cs al !! a = Some (f c)).
Proof.
  induction cs as [|c0 cs IH]; intros al.
  - split; [reflexivity|]. intros i c _ Hi. destruct i; discriminate.
  - simpl. split.
    + intros b Hb. rewrite (proj1 (IH _) b Hb).
      destruct (String.eqb_spec (id c0) a) as [E|E]; [|reflexivity].
      apply lookup_insert_ne. congruence.
    + intros i c Hnd Hi Hid. simpl in Hnd. apply NoDup_cons in Hnd.
      destruct Hnd as [Hnotin Hnd].
      destruct i as [|i]; simpl in Hi.
      * injection Hi as ->. rewrite Hid, String.eqb_refl.
        rewrite (fold_store_none f a cs) by (rewrite <- Hid; exact Hnotin).
        apply lookup_insert_eq.
      * exact (proj2 (IH _) i c Hnd Hi Hid).
Qed.

Section WithConstants.

Variable INITIAL_SKILLS : gmap string Z.
Variable DYNAMIC_BASE_SKILLS : gmap string (Stats -> Z).
Variable ALL_SKILLS : list string.

Local Abbreviation getBase := (getBaseSkillValue INITIAL_SKILLS DYNAMIC_BASE_SKILLS).
Local Abbreviation names := (allSkillNames ALL_SKILLS).
Local Abbreviation zeros := (zero_allocations ALL_SKILLS).
Local Abbreviation reset := (handleResetAllPoints INITIAL_SKILLS DYNAMIC_BASE_SKILLS ALL_SKILLS).

Lemma zero_allocations_lookup (char : Character) (k : string) :
  zeros char !! k = if decide (k ∈ names char) then Some (mkAlloc 0 0) else None.
Proof. unfold zero_allocations. rewrite fold_const_lookup. reflexivity. Qed.

Lemma zero_allocations_sum (fld : SkillAllocation -> Z) (char : Character) :
  fld (mkAlloc 0 0) = 0 -> sum_of fld (zeros char) = 0.
Proof.
  intros H0. apply sum_zero. intros k v. rewrite zero_allocations_lookup.
  destruct (decide (k ∈ names char)); [|discriminate].
  intros Hv. injection Hv as <-. exact H0.
Qed.

Lemma updateCharacter_ids idv (upd : Character -> Character) (cs : list Character) :
  (forall c, id (upd c) = id c) ->
  map id (updateCharacter idv upd cs) = map id cs.
Proof.
  intros H. unfold updateCharacter. rewrite map_map. apply map_ext.
  intros c. destruct (String.eqb (id c) idv); [apply H|reflexivity].
Qed.

(** X13.  [handleResetAllPoints] takes every point back: each skill of
    the active character stands at its base value again (a skill outside
    of the list of skill names keeps its total), every entry of the
    character in the allocation table is 0/0, and the points spent, as
    [derivedData] counts them, are 0 of both kinds.  The other characters
    and their tables are not touched.  The ids of the roster are assumed
    to differ from one another. *)
Theorem reset_returns_all_points
    (s : Screen) (a : string) (i : nat) (c : Character) :
  activeCharacterId s = Some a ->
  a <> EmptyString ->
  NoDup (map id (characters s)) ->
  characters s !! i = Some c ->
  id c = a ->
  exists c' d,
    characters (reset s) !! i = Some c'
    /\ c' = with_skills c (skills c')
    /\ (forall k, skills c' !! k
                  = if decide (k ∈ names c)
                    then Some (getBase k (stats c) (customSkills c))
                    else skills c !! k)
    /\ allocations (reset s) !! a = Some (zeros c)
    /\ (forall k, alloc_or_zero (allocations (reset s)) a k = mkAlloc 0 0)
    /\ derivedData (reset s) = Some d
    /\ spentOccPoints d = 0 /\ spentIntPoints d = 0
    /\ (forall b, b <> a -> allocations (reset s) !! b = allocations s !! b)
    /\ (forall j cj, characters s !! j = Some cj -> id cj <> a ->
          characters (reset s) !! j = Some cj).
Proof.
  intros Ha Hne Hnd Hi Hid.
  unfold handleResetAllPoints. rewrite Ha.
  destruct a as [|a0 a']; [congruence|]. set (a := String a0 a') in *.
  cbn [characters allocations].
  destruct (fold_store_lookup zeros a (characters s) (allocations s))
    as [Hother Hmine].
  specialize (Hmine i c Hnd Hi Hid).
  set (upd := fun char : Character =>
                with_skills char
                  (base_skills INITIAL_SKILLS DYNAMIC_BASE_SKILLS ALL_SKILLS char)).
  assert (Hi' : updateCharacter a upd (characters s) !! i = Some (upd c)).
  { rewrite (CreationProofs.updateCharacter_lookup _ _ _ _ _ Hi).
    rewrite Hid, String.eqb_refl. reflexivity. }
  assert (Hnd' : NoDup (map id (updateCharacter a upd (characters s)))).
  { rewrite updateCharacter_ids; [exact Hnd|reflexivity]. }
  pose proof (AnswerProofs.find_character_NoDup _ _ _ Hnd' Hi') as Hfind.
  change (id (upd c)) with (id c) in Hfind. rewrite Hid in Hfind.
  exists (upd c). eexists.
  split; [exact Hi'|]. split; [reflexivity|].
  split.
  { intros k. unfold upd, base_skills. cbn [skills with_skills].
    apply (CreationProofs.fold_insert_lookup
             (fun k => getBase k (stats c) (customSkills c))). }
  split; [exact Hmine|].
  split.
  { intros k. unfold alloc_or_zero. rewrite Hmine, zero_allocations_lookup.
    destruct (decide (k ∈ names c)); reflexivity. }
  split.
  { unfold derivedData, find_active. cbn [characters activeCharacterId allocations].
    rewrite Hfind. reflexivity. }
  cbn [spentOccPoints spentIntPoints]. change (id (upd c)) with (id c).
  rewrite Hid, Hmine. cbn [default from_option].
  split; [apply (zero_allocations_sum occ); reflexivity|].
  split; [apply (zero_allocations_sum int); reflexivity|].
  split; [exact Hother|].
  intros j cj Hj Hcj.
  rewrite (CreationProofs.updateCharacter_lookup _ _ _ _ _ Hj).
  destruct (String.eqb_spec (id cj) a); [contradiction|reflexivity].
Qed.

Local Abbreviation allocate := (handleSkillAllocation INITIAL_SKILLS DYNAMIC_BASE_SKILLS).

(** The active character after an update that keeps the ids. *)
Lemma find_character_update idv (upd : Character -> Character)
    (cs : list Character) (a : string) :
  (forall c, id (upd c) = id c) ->
  find_character (updateCharacter idv upd cs) a
  = option_map (fun c => if String.eqb (id c) idv then upd c else c)
      (find_character cs a).
Proof.
  intros Hupd. unfold find_character, updateCharacter.
  induction cs as [|c cs IH]; [reflexivity|].
  simpl. destruct (String.eqb (id c) idv) eqn:E.
  - rewrite Hupd. destruct (String.eqb (id c) a); [simpl; rewrite E; reflexivity|].
    exact IH.
  - destruct (String.eqb (id c) a); [simpl; rewrite E; reflexivity|]. exact IH.
Qed.

(** X14.  Points given to a skill of the active character count as spent
    at once: the sum [derivedData] shows changes by the new value less the
    old one, a negative value counting as 0, and the other kind of points,
    the budgets, every other skill and every other character keep their
    entries.  The handler compares nothing with the budget. *)
Theorem allocation_counts_as_spent
    (s : Screen) (act : Character) (skillName : string) (type : AllocType)
    (value : Z) (charAllocs : gmap string SkillAllocation) (old : SkillAllocation) :
  find_active s = Some act ->
  allocations s !! id act = Some charAllocs ->
  charAllocs !! skillName = Some old ->
  exists s' d d',
    allocate s (id act) skillName type value = Some s'
    /\ derivedData s = Some d
    /\ derivedData s' = Some d'
    /\ alloc_or_zero (allocations s') (id act) skillName
       = set_alloc old type (Z.max 0 value)
    /\ spentOccPoints d' + spentIntPoints d'
       = spentOccPoints d + spentIntPoints d
         - alloc_field old type + Z.max 0 value
    /\ match type with
       | t_occ => spentIntPoints d' = spentIntPoints d
       | t_int => spentOccPoints d' = spentOccPoints d
       end
    /\ occupationPoints d' = occupationPoints d
    /\ interestPoints d' = interestPoints d
    /\ (forall k, k <> skillName ->
          alloc_or_zero (allocations s') (id act) k
          = alloc_or_zero (allocations s) (id act) k)
    /\ (forall b, b <> id act -> allocations s' !! b = allocations s !! b).
Proof.
  intros Hact Hallocs Hold.
  assert (Hv : (if value <? 0 then 0 else value) = Z.max 0 value)
    by (destruct (Z.ltb_spec value 0); lia).
  unfold handleSkillAllocation. rewrite Hv, Hallocs. simpl default.
  rewrite Hold.
  set (entry := set_alloc old type (Z.max 0 value)).
  unfold derivedData. rewrite Hact.
  unfold find_active in *.
  destruct (activeCharacterId s) as [a|]; [|discriminate].
  do 3 eexists. split; [reflexivity|]. split; [reflexivity|].
  cbn [characters activeCharacterId allocations].
  rewrite find_character_update by reflexivity. rewrite Hact. cbn [option_map].
  rewrite String.eqb_refl.
  split; [reflexivity|].
  cbn [spentOccPoints spentIntPoints occupationPoints interestPoints
       id stats with_skills].
  rewrite Hallocs, lookup_insert_eq. simpl default.
  split.
  { unfold alloc_or_zero. rewrite !lookup_insert_eq. reflexivity. }
  rewrite (sum_insert occ charAllocs skillName entry old Hold).
  rewrite (sum_insert int charAllocs skillName entry old Hold).
  split; [subst entry; destruct type; simpl; lia|].
  split; [subst entry; destruct type; simpl; lia|].
  split; [reflexivity|]. split; [reflexivity|].
  split.
  - intros k Hk. unfold alloc_or_zero. rewrite lookup_insert_eq, Hallocs.
    rewrite lookup_insert_ne by congruence. reflexivity.
  - intros b Hb. apply lookup_insert_ne. congruence.
Qed.

Lemma find_character_app (l1 l2 : list Character) (a : string) :
  find_character (l1 ++ l2) a
  = match find_character l1 a with
    | Some c => Some c
    | None => find_character l2 a
    end.
Proof.
  unfold find_character. induction l1 as [|c l1 IH]; [reflexivity|].
  simpl. destruct (String.eqb (id c) a); [reflexivity|exact IH].
Qed.

(** X15.  A character added to the roster becomes the active one, with
    the default attributes: 200 occupation points and 100 interest points
    to spend, none spent.  Its table has an entry for each standard skill
    and no other, so points can be given to exactly the standard skills;
    for any other name the stored total is not a number.  The id is
    assumed to be new. *)
Theorem added_character_is_active_with_no_points
    (s : Screen) (newId skillName : string) (type : AllocType) (value : Z) :
  newId ∉ map id (characters s) ->
  let s' := addNewCharacter ALL_SKILLS s newId in
  characters s' = characters s ++ [createNewCharacter newId]
  /\ find_active s' = Some (createNewCharacter newId)
  /\ (exists d,
        derivedData s' = Some d
        /\ occupationPoints d = 200 /\ interestPoints d = 100
        /\ spentOccPoints d = 0 /\ spentIntPoints d = 0)
  /\ (forall k, default ∅ (allocations s' !! newId) !! k
                = if decide (k ∈ ALL_SKILLS) then Some (mkAlloc 0 0) else None)
  /\ (allocate s' newId skillName type value = None <-> skillName ∉ ALL_SKILLS)
  /\ (forall b, b <> newId -> allocations s' !! b = allocations s !! b).
Proof.
  intros Hnew s'.
  assert (Hfind : find_active s' = Some (createNewCharacter newId)).
  { subst s'. unfold find_active, addNewCharacter.
    cbn [characters activeCharacterId id createNewCharacter].
    rewrite find_character_app.
    destruct (find_character (characters s) newId) as [c|] eqn:E.
    - exfalso. apply find_character_in in E. destruct E as [Hin Hid].
      apply Hnew. rewrite <- Hid.
      apply list_elem_of_fmap. exists c. split; [reflexivity|exact Hin].
    - unfold find_character. simpl. rewrite String.eqb_refl. reflexivity. }
  assert (Htable : forall k,
            default ∅ (allocations s' !! newId) !! k
            = if decide (k ∈ ALL_SKILLS) then Some (mkAlloc 0 0) else None).
  { intros k. subst s'. unfold addNewCharacter.
    cbn [allocations id createNewCharacter]. rewrite lookup_insert_eq.
    simpl default. apply (fold_const_lookup (mkAlloc 0 0)). }
  split; [reflexivity|]. split; [exact Hfind|]. split; [|split; [exact Htable|split]].
  - unfold derivedData. rewrite Hfind. eexists. split; [reflexivity|].
    cbn [occupationPoints interestPoints spentOccPoints spentIntPoints stats
         createNewCharacter st_EDU st_INT id].
    split; [reflexivity|]. split; [reflexivity|].
    split; apply sum_zero; intros k v; rewrite Htable;
      destruct (decide (k ∈ ALL_SKILLS)); try discriminate;
      intros Hv; injection Hv as <-; reflexivity.
  - unfold handleSkillAllocation. rewrite Htable.
    destruct (decide (skillName ∈ ALL_SKILLS)) as [Hin|Hin].
    + split; [discriminate|contradiction].
    + split; [intros _; exact Hin|reflexivity].
  - intros b Hb. subst s'. unfold addNewCharacter.
    cbn [allocations id createNewCharacter]. apply lookup_insert_ne. congruence.
Qed.

(** A filter that every element passes. *)
Lemma filter_all {A : Type} (P : A -> bool) (l : list A) :
  (forall x, x ∈ l -> P x = true) -> filter (fun x => P x) l = l.
Proof.
  induction l as [|x l IH]; intros H; [reflexivity|].
  rewrite filter_cons. rewrite decide_True.
  - f_equal. apply IH. intros y Hy. apply H. right. exact Hy.
  - rewrite (H x) by left. exact I.
Qed.

Lemma filter_none_last {A : Type} (P : A -> bool) (l : list A) (x : A) :
  (forall y, y ∈ l -> P y = true) -> P x = false ->
  filter (fun y => P y) (l ++ [x]) = l.
Proof.
  intros Hl Hx. rewrite filter_app, (filter_all P l Hl).
  rewrite filter_cons, decide_False by (rewrite Hx; exact (fun H => H)).
  apply app_nil_r.
Qed.

Lemma find_last_custom (l : list CustomSkill) (x : CustomSkill) :
  cs_id x ∉ map cs_id l ->
  List.find (fun skill => String.eqb (cs_id skill) (cs_id x)) (l ++ [x]) = Some x.
Proof.
  induction l as [|y l IH]; intros H; simpl.
  - rewrite String.eqb_refl. reflexivity.
  - destruct (String.eqb_spec (cs_id y) (cs_id x)) as [E|E].
    + exfalso. apply H. simpl. rewrite E. left.
    + apply IH. intros Hin. apply H. simpl. right. exact Hin.
Qed.

(** X16.  Deleting a custom skill of the active character removes it
    by id from the custom skills and by name everywhere else: the total
    under its name, its entry in the allocation table and its place among
    the own occupational skills.  The points it held are spent no longer.
    Whatever else bears the name, a standard skill included, loses its
    total with it; the other totals and entries stay. *)
Theorem deleted_custom_skill_leaves_no_trace
    (s : Screen) (act : Character) (skillId : string) (sk : CustomSkill) :
  find_active s = Some act ->
  List.find (fun skill => String.eqb (cs_id skill) skillId) (customSkills act)
  = Some sk ->
  let s' := handleDeleteCustomSkill s skillId in
  exists act' d d',
    find_active s' = Some act'
    /\ id act' = id act
    /\ skills act' = delete (cs_name sk) (skills act)
    /\ (forall x, x ∈ customSkills act'
                  <-> x ∈ customSkills act /\ cs_id x <> skillId)
    /\ (forall x, x ∈ customOccupationalSkills act'
                  <-> x ∈ customOccupationalSkills act /\ x <> cs_name sk)
    /\ default ∅ (allocations s' !! id act)
       = delete (cs_name sk) (default ∅ (allocations s !! id act))
    /\ derivedData s = Some d
    /\ derivedData s' = Some d'
    /\ spentOccPoints d'
       = spentOccPoints d - occ (alloc_or_zero (allocations s) (id act) (cs_name sk))
    /\ spentIntPoints d'
       = spentIntPoints d - int (alloc_or_zero (allocations s) (id act) (cs_name sk)).
Proof.
  intros Hact Hsk s'. subst s'. unfold handleDeleteCustomSkill. rewrite Hact, Hsk.
  assert (Hal : default ∅
                  (match allocations s !! id act with
                   | Some charAllocs =>
                       <[id act := delete (cs_name sk) charAllocs]> (allocations s)
                   | None => allocations s
                   end !! id act)
                = delete (cs_name sk) (default ∅ (allocations s !! id act))).
  { destruct (allocations s !! id act) as [m|] eqn:E.
    - rewrite lookup_insert_eq. reflexivity.
    - rewrite E. simpl default. symmetry. apply delete_empty. }
  unfold derivedData. rewrite Hact.
  unfold find_active in *. cbn [characters activeCharacterId allocations].
  destruct (activeCharacterId s) as [a|]; [|discriminate].
  rewrite find_character_update by reflexivity. rewrite Hact. cbn [option_map].
  rewrite String.eqb_refl.
  do 3 eexists. split; [reflexivity|]. split; [reflexivity|].
  split; [reflexivity|].
  cbn [customSkills customOccupationalSkills with_customSkills
       with_customOccupationalSkills].
  split.
  { intros x. rewrite list_elem_of_filter. split; intros [H1 H2]; split; try assumption.
    - intros E. rewrite E, String.eqb_refl in H1. exact H1.
    - destruct (String.eqb_spec (cs_id x) skillId); [contradiction|exact I]. }
  split.
  { intros x. rewrite elem_filter_other. tauto. }
  split; [exact Hal|]. split; [reflexivity|]. split; [reflexivity|].
  cbn [spentOccPoints spentIntPoints id stats with_customSkills
       with_customOccupationalSkills].
  rewrite Hal. unfold alloc_or_zero.
  destruct (allocations s !! id act) as [m|]; simpl default.
  - destruct (m !! cs_name sk) as [old|] eqn:Eold.
    + rewrite (sum_delete occ m _ old Eold), (sum_delete int m _ old Eold).
      split; reflexivity.
    + rewrite delete_id by exact Eold. simpl. split; lia.
  - rewrite delete_empty. simpl. split; reflexivity.
Qed.

(** X17.  A custom skill that was added can be taken away again: when
    its name was not in use for the active character (no total, no entry
    of points, not among the own occupational skills) and its id is new,
    deleting it gives back the screen as it was.  The ids of the roster
    are assumed to differ from one another, and the active character to
    have a table of points. *)
Theorem added_custom_skill_can_be_deleted_again
    (s : Screen) (act : Character) (newId skillName cat : string) (base : Z)
    (m : gmap string SkillAllocation) :
  find_active s = Some act ->
  NoDup (map id (characters s)) ->
  allocations s !! id act = Some m ->
  m !! skillName = None ->
  skills act !! skillName = None ->
  skillName ∉ customOccupationalSkills act ->
  newId ∉ map cs_id (customSkills act) ->
  handleDeleteCustomSkill (handleAddCustomSkill s newId skillName base cat) newId
  = s.
Proof.
  intros Hact Hnd Hm Hmk Hsk Hocc Hnew.
  set (newSkill := mkCustomSkill newId skillName base cat).
  unfold handleAddCustomSkill. rewrite Hact. fold newSkill.
  unfold handleDeleteCustomSkill.
  assert (Hact' : exists a, activeCharacterId s = Some a
                            /\ find_character (characters s) a = Some act).
  { unfold find_active in Hact. destruct (activeCharacterId s) as [a|];
      [exists a; split; [reflexivity|exact Hact]|discriminate]. }
  destruct Hact' as (a & Ha & Hfind).
  unfold find_active. cbn [characters activeCharacterId allocations].
  rewrite Ha, find_character_update by reflexivity. rewrite Hfind. cbn [option_map].
  rewrite String.eqb_refl.
  cbn [customSkills with_customSkills id].
  pose proof (find_last_custom (customSkills act) newSkill Hnew) as Hlast.
  change (cs_id newSkill) with newId in Hlast. rewrite Hlast.
  cbn [cs_name newSkill]. rewrite lookup_insert_eq, Hm. simpl default.
  rewrite insert_insert_eq, delete_insert_id by exact Hmk.
  rewrite insert_id by exact Hm.
  destruct s as [cs active allocs]. cbn [characters activeCharacterId allocations] in *.
  rewrite Ha. f_equal.
  unfold updateCharacter. rewrite map_map.
  rewrite <- (map_id cs) at 2. apply map_ext_in. intros c Hin.
  destruct (String.eqb_spec (id c) (id act)) as [E|E]; [|rewrite (proj2 (String.eqb_neq _ _) E); reflexivity].
  assert (Hc : c = act).
  { apply list_elem_of_In, list_elem_of_lookup in Hin. destruct Hin as [i Hi].
    pose proof (AnswerProofs.find_character_NoDup _ _ _ Hnd Hi) as Hf.
    destruct (find_character_in _ _ _ Hfind) as [_ Hida].
    rewrite E, Hida, Hfind in Hf. congruence. }
  subst c. cbn [id with_customSkills]. rewrite String.eqb_refl.
  cbn [customSkills customOccupationalSkills skills with_customSkills
       with_customOccupationalSkills id name occupation stats hp mp san madness].
  rewrite delete_insert_id by exact Hsk.
  rewrite (filter_none_last (fun skill => negb (String.eqb (cs_id skill) newId))
             (customSkills act) newSkill).
  - rewrite (filter_all (fun x => negb (String.eqb x skillName))
               (customOccupationalSkills act)).
    + destruct act; reflexivity.
    + intros x Hx. destruct (String.eqb_spec x skillName); [subst; contradiction|reflexivity].
  - intros y Hy. destruct (String.eqb_spec (cs_id y) newId) as [Ey|Ey]; [|reflexivity].
    exfalso. apply Hnew. rewrite <- Ey. apply list_elem_of_fmap. exists y.
    split; [reflexivity|exact Hy].
  - cbn [cs_id newSkill]. rewrite String.eqb_refl. reflexivity.
Qed.

(** X18.  [handleEditCustomSkill] stores the edited skill under its id
    and a total under its name, and leaves the allocation table as it is.
    After a change of the name the new name has no entry of points: its
    total is the base value alone, the total under the old name stays
    behind, and points given to the new name give a total that is not a
    number. *)
Theorem renamed_custom_skill_has_no_points_entry
    (s : Screen) (act : Character) (skillData : CustomSkill)
    (m : gmap string SkillAllocation) (type : AllocType) (value : Z) :
  find_active s = Some act ->
  allocations s !! id act = Some m ->
  m !! cs_name skillData = None ->
  let s' := handleEditCustomSkill s skillData in
  exists act',
    find_active s' = Some act'
    /\ id act' = id act
    /\ skills act' = <[cs_name skillData := baseValue skillData]> (skills act)
    /\ customSkills act'
       = map (fun skill => if String.eqb (cs_id skill) (cs_id skillData)
                           then skillData else skill) (customSkills act)
    /\ allocations s' = allocations s
    /\ allocate s' (id act) (cs_name skillData) type value = None.
Proof.
  intros Hact Hm Hmk s'. subst s'. unfold handleEditCustomSkill. rewrite Hact.
  unfold find_active in *. cbn [characters activeCharacterId allocations with_characters].
  destruct (activeCharacterId s) as [a|]; [|discriminate].
  rewrite find_character_update by reflexivity. rewrite Hact. cbn [option_map].
  rewrite String.eqb_refl.
  eexists. split; [reflexivity|]. split; [reflexivity|].
  cbn [skills customSkills with_customSkills].
  unfold alloc_or_zero. rewrite Hm, Hmk. simpl default. cbn [occ int].
  split; [f_equal; lia|]. split; [reflexivity|]. split; [reflexivity|].
  unfold handleSkillAllocation. cbn [allocations with_characters].
  rewrite Hm. simpl default. rewrite Hmk. reflexivity.
Qed.

End WithConstants.

Lemma reset_returns_all_points_witness :
  activeCharacterId Sample.roster = Some "c1"%string
  /\ "c1"%string <> EmptyString
  /\ NoDup (map id (characters Sample.roster))
  /\ characters Sample.roster !! 0%nat = Some Sample.investigator
  /\ exists c',
       characters (handleResetAllPoints Sample.initial_skills
                     Sample.dynamic_base_skills Sample.all_skills
                     Sample.roster) !! 0%nat = Some c'
       /\ skills c' !! "目星"%string = Some 25
       /\ skills c' !! "回避"%string = Some 26.
Proof.
  assert (Hnd : NoDup (map id (characters Sample.roster))).
  { simpl. apply NoDup_singleton. }
  split; [reflexivity|]. split; [discriminate|]. split; [exact Hnd|].
  split; [reflexivity|].
  destruct (reset_returns_all_points Sample.initial_skills
              Sample.dynamic_base_skills Sample.all_skills Sample.roster
              "c1" 0 Sample.investigator eq_refl ltac:(discriminate) Hnd
              eq_refl eq_refl) as (c' & d & Hc' & _ & Hsk & _).
  exists c'. split; [exact Hc'|].
  split; rewrite Hsk; vm_compute; reflexivity.
Defined.


Lemma allocation_counts_as_spent_witness :
  find_active Sample.roster = Some Sample.investigator
  /\ exists s' d',
       handleSkillAllocation Sample.initial_skills Sample.dynamic_base_skills
         Sample.roster "c1" "目星" t_occ 300 = Some s'
       /\ derivedData s' = Some d'
       /\ spentOccPoints d' + spentIntPoints d' = 300
       /\ occupationPoints d' = 260.
Proof.
  split; [reflexivity|].
  assert (Hal : allocations Sample.roster !! id Sample.investigator
                = Some (fold_left (fun (m : gmap string SkillAllocation) skill =>
                                     <[skill := mkAlloc 0 0]> m)
                          Sample.all_skills ∅))
    by (vm_compute; reflexivity).
  assert (Hold : fold_left (fun (m : gmap string SkillAllocation) skill =>
                              <[skill := mkAlloc 0 0]> m) Sample.all_skills ∅
                 !! "目星"%string = Some (mkAlloc 0 0))
    by (vm_compute; reflexivity).
  destruct (allocation_counts_as_spent Sample.initial_skills
              Sample.dynamic_base_skills Sample.roster Sample.investigator
              "目星" t_occ 300 _ _ eq_refl Hal Hold)
    as (s' & d & d' & Hs' & Hd & Hd' & _ & Hsum & _ & Hocc & _).
  exists s', d'. split; [exact Hs'|]. split; [exact Hd'|].
  injection Hd as <-. split; [rewrite Hsum; vm_compute; reflexivity|].
  rewrite Hocc. reflexivity.
Defined.

Lemma added_character_is_active_with_no_points_witness :
  ("c9"%string ∉ map id (characters Sample.roster))
  /\ find_active (addNewCharacter Sample.all_skills Sample.roster "c9")
     = Some (createNewCharacter "c9").
Proof.
  assert (Hnew : "c9"%string ∉ map id (characters Sample.roster)).
  { simpl. intros H. apply list_elem_of_singleton in H. discriminate H. }
  split; [exact Hnew|].
  destruct (added_character_is_active_with_no_points Sample.initial_skills
              Sample.dynamic_base_skills Sample.all_skills Sample.roster
              "c9" "目星" t_occ 5 Hnew) as (_ & H & _).
  exact H.
Defined.


Lemma deleted_custom_skill_leaves_no_trace_witness :
  find_active SampleRoster.archivist_screen = Some SampleRoster.archivist
  /\ exists act',
       find_active (handleDeleteCustomSkill SampleRoster.archivist_screen
                      "custom_古文書_1") = Some act'
       /\ skills act' = delete "古文書"%string (skills SampleRoster.archivist).
Proof.
  assert (Hact : find_active SampleRoster.archivist_screen
                 = Some SampleRoster.archivist) by reflexivity.
  split; [exact Hact|].
  destruct (deleted_custom_skill_leaves_no_trace SampleRoster.archivist_screen
              SampleRoster.archivist "custom_古文書_1" SampleRoster.archive_skill
              Hact eq_refl) as (act' & d & d' & H1 & _ & H3 & _).
  exists act'. split; [exact H1|exact H3].
Defined.

Lemma added_custom_skill_can_be_deleted_again_witness :
  find_active Sample.roster = Some Sample.investigator
  /\ NoDup (map id (characters Sample.roster))
  /\ handleDeleteCustomSkill SampleRoster.archivist_screen "custom_古文書_1"
     = Sample.roster.
Proof.
  assert (Hnd : NoDup (map id (characters Sample.roster))).
  { simpl. apply NoDup_singleton. }
  split; [reflexivity|]. split; [exact Hnd|].
  assert (Hm : allocations Sample.roster !! id Sample.investigator
               = Some SampleRoster.investigator_points)
    by (vm_compute; reflexivity).
  assert (Hmk : SampleRoster.investigator_points !! "古文書"%string = None)
    by (vm_compute; reflexivity).
  assert (Hsk : skills Sample.investigator !! "古文書"%string = None)
    by (vm_compute; reflexivity).
  assert (Hocc : "古文書"%string ∉ customOccupationalSkills Sample.investigator).
  { simpl. intros H. inversion H. }
  assert (Hnew : "custom_古文書_1"%string ∉ map cs_id (customSkills Sample.investigator)).
  { simpl. intros H. inversion H. }
  exact (added_custom_skill_can_be_deleted_again Sample.roster Sample.investigator
           "custom_古文書_1" "古文書" "知識" 10 SampleRoster.investigator_points
           eq_refl Hnd Hm Hmk Hsk Hocc Hnew).
Defined.

Lemma renamed_custom_skill_has_no_points_entry_witness :
  find_active SampleRoster.archivist_screen = Some SampleRoster.archivist
  /\ handleSkillAllocation Sample.initial_skills Sample.dynamic_base_skills
       (handleEditCustomSkill SampleRoster.archivist_screen
          (mkCustomSkill "custom_古文書_1" "古文書学" 15 "知識"))
       "c1" "古文書学" t_occ 20 = None.
Proof.
  assert (Hact : find_active SampleRoster.archivist_screen
                 = Some SampleRoster.archivist) by reflexivity.
  split; [exact Hact|].
  assert (Hm : allocations SampleRoster.archivist_screen !! id SampleRoster.archivist
               = Some (<["古文書"%string := mkAlloc 0 0]>
                         SampleRoster.investigator_points))
    by (vm_compute; reflexivity).
  assert (Hmk : <["古文書"%string := mkAlloc 0 0]> SampleRoster.investigator_points
                !! "古文書学"%string = None)
    by (vm_compute; reflexivity).
  destruct (renamed_custom_skill_has_no_points_entry Sample.initial_skills
              Sample.dynamic_base_skills SampleRoster.archivist_screen
              SampleRoster.archivist
              (mkCustomSkill "custom_古文書_1" "古文書学" 15 "知識") _ t_occ 20
              Hact Hm Hmk) as (act' & _ & _ & _ & _ & _ & H).
  exact H.
Defined.

End RosterProofs.

(** * Automatic allocation of the points *)

Module AllocationProofs.
Import Js Creation Roster.

Local Abbreviation sum_of fld m :=
  (map_fold (fun (_ : string) (a : SkillAllocation) (sum : Z) => sum + fld a) 0 m).

(** The field of an entry a loop does not count up. *)
Local Abbreviation other_field a type :=
  (match type with t_occ => int a | t_int => occ a end).

Lemma elem_of_delete_or {A : Type} (l : list A) : forall (i : nat) (x : A),
  x ∈ l -> x ∈ delete i l \/ l !! i = Some x.
Proof.
  induction l as [|y l IH]; intros i x Hin; [inversion Hin|].
  destruct i as [|i]; simpl.
  - apply elem_of_cons in Hin. destruct Hin as [->|Hin]; [right; reflexivity|left; exact Hin].
  - apply elem_of_cons in Hin. destruct Hin as [->|Hin]; [left; left|].
    destruct (IH i x Hin) as [H|H]; [left; right; exact H|right; exact H].
Qed.

(** Tables with the same keys and the same value of a field under each
    key hold the same sum of that field. *)
Lemma map_eq_sum (fld : SkillAllocation -> Z) :
  forall (m1 m2 : gmap string SkillAllocation),
    (forall k, fld <$> (m1 !! k) = fld <$> (m2 !! k)) ->
    sum_of fld m1 = sum_of fld m2.
Proof.
  intros m1. induction m1 as [|k v m1 Hk _ IH] using map_first_key_ind.
  - intros m2 H. rewrite map_fold_empty. symmetry. apply RosterProofs.sum_zero.
    intros k v Hv. specialize (H k). rewrite lookup_empty, Hv in H. discriminate H.
  - intros m2 H.
    rewrite (RosterProofs.sum_insert_new fld m1 k v Hk).
    pose proof (H k) as Hkk. rewrite lookup_insert_eq in Hkk. simpl in Hkk.
    destruct (m2 !! k) as [v2|] eqn:E2; [|discriminate Hkk].
    simpl in Hkk. injection Hkk as Hv.
    rewrite <- (insert_delete_id m2 k v2 E2).
    rewrite (RosterProofs.sum_insert_new fld (delete k m2) k v2)
      by apply lookup_delete_eq.
    rewrite (IH (delete k m2)); [lia|].
    intros k'. destruct (decide (k' = k)) as [->|Hne].
    + rewrite Hk, lookup_delete_eq. reflexivity.
    + rewrite lookup_delete_ne by congruence.
      specialize (H k'). rewrite lookup_insert_ne in H by congruence. exact H.
Qed.

Section WithConstants.

Variable INITIAL_SKILLS : gmap string Z.
Variable DYNAMIC_BASE_SKILLS : gmap string (Stats -> Z).
Variable ALL_SKILLS : list string.
Variable OCCUPATIONS : gmap string (list string).

Local Abbreviation getBase := (getBaseSkillValue INITIAL_SKILLS DYNAMIC_BASE_SKILLS).
Local Abbreviation names := (allSkillNames ALL_SKILLS).
Local Abbreviation zeros := (zero_allocations ALL_SKILLS).
Local Abbreviation loop := (allocate_loop INITIAL_SKILLS DYNAMIC_BASE_SKILLS).
Local Abbreviation total char a k :=
  (getBase k (stats char) (customSkills char) + occ a + int a).

(** What one [while] loop of the automatic allocation does, when every
    skill it can draw has an entry in the table. *)
Lemma allocate_loop_spec (type : AllocType) (char : Character) :
  forall (fuel : nat) (points : Z) (available : list string)
         (allocs : gmap string SkillAllocation) (g : Rng),
    (Z.to_nat points + length available <= fuel)%nat ->
    rng_ok g ->
    (forall k, k ∈ available -> is_Some (allocs !! k)) ->
    exists left allocs' g',
      loop fuel type char points available allocs g = (Finished (left, allocs'), g')
      /\ rng_ok g'
      /\ left <= points
      /\ (0 <= points -> 0 <= left)
      /\ sum_of (fun a => alloc_field a type) allocs'
         = sum_of (fun a => alloc_field a type) allocs + (points - left)
      /\ (forall k, k ∉ available -> allocs' !! k = allocs !! k)
      /\ (forall k a, allocs !! k = Some a ->
            exists a', allocs' !! k = Some a'
                       /\ other_field a' type = other_field a type
                       /\ alloc_field a type <= alloc_field a' type
                       /\ (a' = a \/ total char a' k <= 99))
      /\ (forall k, allocs !! k = None -> allocs' !! k = None)
      /\ (0 < left -> forall k a', k ∈ available -> allocs' !! k = Some a' ->
            99 <= total char a' k).
Proof.
  induction fuel as [|fuel IH]; intros points available allocs g Hfuel Hg Hdom.
  - assert (Hstop : (points >? 0) && (0 <? length available)%nat = false).
    { destruct (Z.gtb_spec points 0); [|reflexivity].
      destruct (Nat.ltb_spec 0 (length available)); [lia|reflexivity]. }
    simpl. rewrite Hstop. exists points, allocs, g.
    split; [reflexivity|]. split; [exact Hg|]. split; [lia|]. split; [lia|].
    split; [lia|]. split; [reflexivity|].
    split; [intros k a Ha; exists a; repeat split; try lia; [exact Ha|left; reflexivity]|].
    split; [intros k Hk; exact Hk|].
    intros Hleft k a' Hin _. exfalso.
    apply andb_false_iff in Hstop. destruct Hstop as [Hs|Hs].
    + destruct (Z.gtb_spec points 0); [discriminate|lia].
    + apply Nat.ltb_ge in Hs. destruct available; [inversion Hin|simpl in Hs; lia].
  - cbn [allocate_loop].
    destruct ((points >? 0) && (0 <? length available)%nat) eqn:Hgo.
    2: { exists points, allocs, g.
         split; [reflexivity|]. split; [exact Hg|]. split; [lia|]. split; [lia|].
         split; [lia|]. split; [reflexivity|].
         split; [intros k a Ha; exists a; repeat split; try lia; [exact Ha|left; reflexivity]|].
         split; [intros k Hk; exact Hk|].
         intros Hleft k a' Hin _. exfalso.
         apply andb_false_iff in Hgo. destruct Hgo as [Hs|Hs].
         + destruct (Z.gtb_spec points 0); [discriminate|lia].
         + apply Nat.ltb_ge in Hs. destruct available; [inversion Hin|simpl in Hs; lia]. }
    apply andb_true_iff in Hgo. destruct Hgo as [Hpos Hlen].
    assert (Hpoints : 0 < points) by (destruct (Z.gtb_spec points 0); [lia|discriminate]).
    apply Nat.ltb_lt in Hlen.
    unfold bind, Math_random. cbv beta iota.
    set (g1 := fun n : nat => g (S n)).
    assert (Hg1 : rng_ok g1) by (intros n; apply Hg).
    destruct (Hg 0%nat) as [H0 H1].
    pose proof (MadnessProofs.floor_draw_range (g 0%nat)
                  (Z.of_nat (length available)) H0 H1 ltac:(lia)) as Hidx.
    set (randomIndex := Math_floor (g 0%nat * inject_Z (Z.of_nat (length available)))) in *.
    assert (Hlt : (Z.to_nat randomIndex < length available)%nat) by lia.
    destruct (available !! Z.to_nat randomIndex) as [randomSkill|] eqn:Hskill.
    2: { apply lookup_lt_is_Some in Hlt. rewrite Hskill in Hlt.
         destruct Hlt as [? Hx]. discriminate Hx. }
    assert (Hin : randomSkill ∈ available)
      by (apply list_elem_of_lookup; exists (Z.to_nat randomIndex); exact Hskill).
    destruct (Hdom randomSkill Hin) as [currentAlloc Hcur]. rewrite Hcur.
    cbv zeta.
    destruct (Z.ltb_spec (total char currentAlloc randomSkill) 99) as [Hbelow|Hfull].
    + set (entry := set_alloc currentAlloc type (alloc_field currentAlloc type + 1)).
      destruct (IH (points - 1) available (<[randomSkill := entry]> allocs) g1)
        as (left & allocs' & g' & Hrun & Hg' & Hle & Hnn & Hsum & Hout & Hmono
            & Hnone & Hsat).
      { lia. }
      { exact Hg1. }
      { intros k Hk. destruct (decide (k = randomSkill)) as [->|Hne].
        - rewrite lookup_insert_eq. eexists. reflexivity.
        - rewrite lookup_insert_ne by congruence. apply Hdom, Hk. }
      exists left, allocs', g'. split; [exact Hrun|]. split; [exact Hg'|].
      split; [lia|]. split; [intros _; apply Hnn; lia|].
      split.
      { rewrite Hsum.
        rewrite (RosterProofs.sum_insert (fun a => alloc_field a type) allocs
                   randomSkill entry currentAlloc Hcur).
        subst entry. destruct type; simpl; lia. }
      split.
      { intros k Hk. rewrite (Hout k Hk). apply lookup_insert_ne.
        intros ->. contradiction. }
      split.
      { intros k a Ha. destruct (decide (k = randomSkill)) as [->|Hne].
        - rewrite Hcur in Ha. injection Ha as <-.
          destruct (Hmono randomSkill entry (lookup_insert_eq _ _ _))
            as (a' & Ha' & Hoth & Hfld & Hcap).
          exists a'. split; [exact Ha'|].
          split; [rewrite Hoth; subst entry; destruct type; reflexivity|].
          split; [subst entry; destruct type; simpl in *; lia|].
          right. destruct Hcap as [->|Hcap]; [|exact Hcap].
          subst entry. destruct type; simpl; lia.
        - apply Hmono. rewrite lookup_insert_ne by congruence. exact Ha. }
      split.
      { intros k Hk. apply Hnone. rewrite lookup_insert_ne; [exact Hk|].
        intros <-. rewrite Hcur in Hk. discriminate Hk. }
      exact Hsat.
    + destruct (IH points (delete (Z.to_nat randomIndex) available) allocs g1)
        as (left & allocs' & g' & Hrun & Hg' & Hle & Hnn & Hsum & Hout & Hmono
            & Hnone & Hsat).
      { rewrite length_delete by (apply lookup_lt_is_Some; exact Hlt). lia. }
      { exact Hg1. }
      { intros k Hk. apply Hdom. exact (list_elem_of_delete_inv _ _ _ Hk). }
      exists left, allocs', g'. split; [exact Hrun|]. split; [exact Hg'|].
      split; [exact Hle|]. split; [exact Hnn|]. split; [exact Hsum|].
      split.
      { intros k Hk. apply Hout. intros Hk'. apply Hk.
        exact (list_elem_of_delete_inv _ _ _ Hk'). }
      split; [exact Hmono|]. split; [exact Hnone|].
      intros Hleft k a' Hk Ha'.
      destruct (elem_of_delete_or available (Z.to_nat randomIndex) k Hk) as [Hk'|Hk'].
      * exact (Hsat Hleft k a' Hk' Ha').
      * rewrite Hskill in Hk'. injection Hk' as ->.
        destruct (Hmono k currentAlloc Hcur) as (a2 & Ha2 & Hoth & Hfld & _).
        rewrite Ha' in Ha2. injection Ha2 as <-.
        destruct type; simpl in *; lia.
Qed.

Local Abbreviation autoChar :=
  (autoAllocate_char INITIAL_SKILLS DYNAMIC_BASE_SKILLS ALL_SKILLS).
Local Abbreviation autoMap :=
  (autoAllocate_map INITIAL_SKILLS DYNAMIC_BASE_SKILLS ALL_SKILLS).
Local Abbreviation capped :=
  (capped_totals INITIAL_SKILLS DYNAMIC_BASE_SKILLS ALL_SKILLS).

(** The table a character is left with, and the points left over. *)
Local Abbreviation allocated char occSkills occPts intPts allocs occLeft intLeft :=
  (0 <= occLeft <= occPts /\ 0 <= intLeft <= intPts
   /\ sum_of occ allocs = occPts - occLeft
   /\ sum_of int allocs = intPts - intLeft
   /\ (forall k, k ∈ names char -> is_Some (allocs !! k))
   /\ (forall k a, allocs !! k = Some a ->
         0 <= occ a /\ 0 <= int a /\ (occ a <> 0 -> k ∈ occSkills)
         /\ (a = mkAlloc 0 0 \/ total char a k <= 99))
   /\ (0 < occLeft -> forall k a, k ∈ occSkills -> allocs !! k = Some a ->
         99 <= total char a k)
   /\ (0 < intLeft -> forall k a, k ∈ names char -> allocs !! k = Some a ->
         99 <= total char a k)).

Lemma autoAllocate_char_spec (char : Character) (occSkills : list string)
    (occPts intPts : Z) (g : Rng) :
  rng_ok g ->
  (forall k, k ∈ occSkills -> k ∈ names char) ->
  0 <= occPts -> 0 <= intPts ->
  exists allocs occLeft intLeft g',
    autoChar char occSkills occPts intPts g
    = (Finished (with_skills char (capped char allocs), allocs, occLeft, intLeft), g')
    /\ rng_ok g'
    /\ allocated char occSkills occPts intPts allocs occLeft intLeft.
Proof.
  intros Hg Hsub Hocc Hint. unfold autoAllocate_char, bindO.
  assert (Hzero : forall k, zeros char !! k
                            = if decide (k ∈ names char) then Some (mkAlloc 0 0)
                              else None)
    by apply RosterProofs.zero_allocations_lookup.
  destruct (allocate_loop_spec t_occ char (enough_steps occPts occSkills) occPts
              occSkills (zeros char) g (le_n _) Hg)
    as (occLeft & a1 & g1 & Hrun1 & Hg1 & Hle1 & Hnn1 & Hsum1 & Hout1 & Hmono1
        & Hnone1 & Hsat1).
  { intros k Hk. rewrite Hzero, decide_True by (apply Hsub, Hk). eexists. reflexivity. }
  unfold bind at 1. rewrite Hrun1. cbv beta iota.
  destruct (allocate_loop_spec t_int char (enough_steps intPts (names char)) intPts
              (names char) a1 g1 (le_n _) Hg1)
    as (intLeft & a2 & g2 & Hrun2 & Hg2 & Hle2 & Hnn2 & Hsum2 & Hout2 & Hmono2
        & Hnone2 & Hsat2).
  { intros k Hk.
    destruct (Hmono1 k (mkAlloc 0 0)) as (a' & Ha' & _).
    - rewrite Hzero, decide_True by exact Hk. reflexivity.
    - rewrite Ha'. eexists. reflexivity. }
  unfold bind at 1. rewrite Hrun2. cbv beta iota.
  exists a2, occLeft, intLeft, g2. split; [reflexivity|]. split; [exact Hg2|].
  assert (Hentry : forall k a, a2 !! k = Some a ->
            k ∈ names char
            /\ exists a', a1 !! k = Some a'
                 /\ occ a = occ a' /\ int a' <= int a
                 /\ int a' = 0 /\ 0 <= occ a'
                 /\ (occ a' <> 0 -> k ∈ occSkills)
                 /\ (a' = mkAlloc 0 0 \/ total char a' k <= 99)
                 /\ (a = a' \/ total char a k <= 99)).
  { intros k a Ha.
    destruct (a1 !! k) as [a'|] eqn:Ea1;
      [|rewrite (Hnone2 k Ea1) in Ha; discriminate Ha].
    destruct (zeros char !! k) as [z|] eqn:Ez;
      [|rewrite (Hnone1 k Ez) in Ea1; discriminate Ea1].
    rewrite Hzero in Ez. destruct (decide (k ∈ names char)) as [Hk|Hk]; [|discriminate].
    injection Ez as <-. split; [exact Hk|].
    exists a'. split; [reflexivity|].
    destruct (Hmono1 k (mkAlloc 0 0)) as (b & Hb & Hoth1 & Hfld1 & Hcap1).
    { rewrite Hzero, decide_True by exact Hk. reflexivity. }
    rewrite Ea1 in Hb. injection Hb as <-.
    destruct (Hmono2 k a' Ea1) as (b & Hb & Hoth2 & Hfld2 & Hcap2).
    rewrite Ha in Hb. injection Hb as <-.
    simpl in Hoth1, Hfld1, Hoth2, Hfld2.
    split; [exact Hoth2|]. split; [exact Hfld2|]. split; [exact Hoth1|].
    split; [exact Hfld1|].
    split.
    { intros Hne. destruct (decide (k ∈ occSkills)) as [Hin|Hin]; [exact Hin|].
      exfalso. apply Hne. rewrite (Hout1 k Hin), Hzero, decide_True in Ea1 by exact Hk.
      injection Ea1 as <-. reflexivity. }
    split; [exact Hcap1|exact Hcap2]. }
  assert (Hs0 : sum_of occ (zeros char) = 0)
    by (apply RosterProofs.zero_allocations_sum; reflexivity).
  assert (Hocc2 : sum_of occ a2 = sum_of occ a1).
  { apply (map_eq_sum occ); intros k.
    destruct (a1 !! k) as [a'|] eqn:E1.
    - destruct (Hmono2 k a' E1) as (b & Hb & Hoth & _). rewrite Hb. simpl in Hoth.
      simpl. f_equal. exact Hoth.
    - rewrite (Hnone2 k E1). reflexivity. }
  assert (Hi1 : sum_of int a1 = 0).
  { apply RosterProofs.sum_zero. intros k a' E1.
    destruct (zeros char !! k) as [z|] eqn:Ez;
      [|rewrite (Hnone1 k Ez) in E1; discriminate E1].
    destruct (Hmono1 k z Ez) as (b & Hb & Hoth & _). rewrite E1 in Hb.
    injection Hb as <-. simpl in Hoth. rewrite Hoth.
    rewrite Hzero in Ez. destruct (decide (k ∈ names char)); [|discriminate].
    injection Ez as <-. reflexivity. }
  simpl in Hsum1, Hsum2.
  split; [split; [apply Hnn1, Hocc|exact Hle1]|].
  split; [split; [apply Hnn2, Hint|exact Hle2]|].
  split; [rewrite Hocc2, Hsum1, Hs0; lia|].
  split; [rewrite Hsum2, Hi1; lia|].
  split.
  { intros k Hk. destruct (Hmono1 k (mkAlloc 0 0)) as (a' & Ha' & _).
    - rewrite Hzero, decide_True by exact Hk. reflexivity.
    - destruct (Hmono2 k a' Ha') as (b & Hb & _). rewrite Hb. eexists. reflexivity. }
  split.
  { intros k a Ha. destruct (Hentry k a Ha)
      as (Hk & a' & Ha' & Ho & Hi & Hi0 & Ho0 & Hin & Hcap1 & Hcap2).
    split; [lia|]. split; [lia|]. split; [rewrite Ho; exact Hin|].
    destruct Hcap2 as [->|Hcap2]; [exact Hcap1|right; exact Hcap2]. }
  split.
  { intros Hleft k a Hk Ha. destruct (Hentry k a Ha)
      as (_ & a' & Ha' & Ho & Hi & _).
    pose proof (Hsat1 Hleft k a' Hk Ha'). lia. }
  intros Hleft k a Hk Ha. exact (Hsat2 Hleft k a Hk Ha).
Qed.

Lemma autoAllocate_map_none (a : string) (occSkills : list string)
    (cs : list Character) :
  a ∉ map id cs ->
  forall occPts intPts al g,
    autoMap a occSkills cs occPts intPts al g = (Finished (cs, al), g).
Proof.
  induction cs as [|c cs IH]; intros Hnotin occPts intPts al g; [reflexivity|].
  cbn [autoAllocate_map].
  destruct (String.eqb_spec (id c) a) as [E|E].
  - exfalso. apply Hnotin. simpl. rewrite E. left.
  - unfold bindO, bind. rewrite IH; [reflexivity|].
    intros Hin. apply Hnotin. simpl. right. exact Hin.
Qed.

(** [updateCharacter] with the updater of the automatic allocation, for
    a roster in which the ids differ from one another. *)
Lemma autoAllocate_map_spec (a : string) (occSkills : list string)
    (act : Character) (occPts intPts : Z) :
  (forall k, k ∈ occSkills -> k ∈ names act) ->
  0 <= occPts -> 0 <= intPts ->
  forall (cs : list Character) al g,
    rng_ok g ->
    NoDup (map id cs) ->
    find_character cs a = Some act ->
    exists allocs occLeft intLeft g' cs',
      autoMap a occSkills cs occPts intPts al g
      = (Finished (cs', <[a := allocs]> al), g')
      /\ find_character cs' a = Some (with_skills act (capped act allocs))
      /\ (forall j cj, cs !! j = Some cj -> id cj <> a -> cs' !! j = Some cj)
      /\ allocated act occSkills occPts intPts allocs occLeft intLeft.
Proof.
  intros Hsub Hocc Hint.
  induction cs as [|c cs IH]; intros al g Hg Hnd Hfind; [discriminate|].
  cbn [autoAllocate_map]. unfold find_character in Hfind. simpl in Hfind.
  simpl in Hnd. apply NoDup_cons in Hnd. destruct Hnd as [Hnotin Hnd].
  destruct (String.eqb_spec (id c) a) as [E|E].
  - injection Hfind as ->.
    destruct (autoAllocate_char_spec act occSkills occPts intPts g Hg Hsub Hocc Hint)
      as (allocs & occLeft & intLeft & g' & Hrun & Hg' & Hall).
    unfold bindO at 1. unfold bind at 1. rewrite Hrun. cbv beta iota.
    unfold bindO, bind.
    rewrite autoAllocate_map_none by (rewrite <- E; exact Hnotin).
    exists allocs, occLeft, intLeft, g'. eexists.
    split; [rewrite E; reflexivity|].
    split.
    { unfold find_character. simpl. rewrite E, String.eqb_refl. reflexivity. }
    split; [|exact Hall].
    intros j cj Hj Hne. destruct j as [|j]; simpl in Hj |- *.
    + injection Hj as <-. contradiction.
    + exact Hj.
  - destruct (IH al g Hg Hnd Hfind)
      as (allocs & occLeft & intLeft & g' & cs' & Hrun & Hf & Hframe & Hall).
    unfold bindO, bind. rewrite Hrun.
    exists allocs, occLeft, intLeft, g'. eexists.
    split; [reflexivity|].
    split.
    { unfold find_character. simpl.
      rewrite (proj2 (String.eqb_neq _ _) E). exact Hf. }
    split; [|exact Hall].
    intros j cj Hj Hne. destruct j as [|j]; simpl in Hj |- *.
    + exact Hj.
    + exact (Hframe j cj Hj Hne).
Qed.

Lemma capped_totals_lookup (char : Character)
    (allocs : gmap string SkillAllocation) (k : string) (a : SkillAllocation) :
  k ∈ names char -> allocs !! k = Some a ->
  capped char allocs !! k = Some (Z.min 99 (total char a k)).
Proof.
  intros Hk Ha. unfold capped_totals.
  rewrite (CreationProofs.fold_insert_lookup
             (fun x =>
                if getBase x (stats char) (customSkills char)
                   + occ (default (mkAlloc 0 0) (allocs !! x))
                   + int (default (mkAlloc 0 0) (allocs !! x)) >? 99
                then 99
                else getBase x (stats char) (customSkills char)
                     + occ (default (mkAlloc 0 0) (allocs !! x))
                     + int (default (mkAlloc 0 0) (allocs !! x)))).
  rewrite decide_True by exact Hk. rewrite Ha. simpl default. f_equal.
  destruct (Z.gtb_spec (total char a k) 99); lia.
Qed.

Local Abbreviation auto :=
  (handleAutoAllocateAllPoints INITIAL_SKILLS DYNAMIC_BASE_SKILLS ALL_SKILLS OCCUPATIONS).

(** X23.  After a choice in the list of occupations, and the effect
    that follows it, the screen is in the mode of an own occupation
    exactly when "CUSTOM" was chosen, or something that is neither empty
    nor a preset.  "CUSTOM" empties the occupation and keeps the own
    occupational skills; every other choice is stored as the occupation
    and empties them.  The empty string is assumed to be no preset. *)
Theorem occupation_choice_sets_custom_mode
    (s : Screen) (act : Character) (isCustomOccupation : bool)
    (newOccupation : string) :
  find_active s = Some act ->
  activeCharacterId s <> Some EmptyString ->
  OCCUPATIONS !! EmptyString = None ->
  let r := handleOccupationChange s isCustomOccupation newOccupation in
  let custom := String.eqb newOccupation "CUSTOM" in
  exists act',
    find_active (fst r) = Some act'
    /\ occupation act' = (if custom then EmptyString else newOccupation)
    /\ customOccupationalSkills act'
       = (if custom then customOccupationalSkills act else [])
    /\ customOccupationEffect OCCUPATIONS (fst r) (snd r)
       = (custom
          || (negb (String.eqb newOccupation EmptyString)
              && negb (isPreset OCCUPATIONS newOccupation))).
Proof.
  intros Hact Hne Hempty r custom. subst r custom.
  unfold handleOccupationChange, customOccupationEffect.
  unfold find_active in *.
  destruct (activeCharacterId s) as [a|] eqn:Ha; [|discriminate].
  destruct a as [|a0 a']; [congruence|].
  destruct (RosterProofs.find_character_in _ _ _ Hact) as [_ Hid].
  destruct (String.eqb newOccupation "CUSTOM") eqn:Ecustom;
    cbn [fst snd characters activeCharacterId with_characters];
    rewrite Ha, RosterProofs.find_character_update by reflexivity;
    rewrite Hact; cbn [option_map]; rewrite Hid, String.eqb_refl;
    eexists; (split; [reflexivity|]); cbn [occupation customOccupationalSkills];
    (split; [reflexivity|]); (split; [reflexivity|]).
  - unfold isPreset. rewrite Hempty. cbn [andb negb orb].
    destruct (0 <? length (customOccupationalSkills act))%nat; reflexivity.
  - cbn [orb length Nat.ltb Nat.leb andb].
    destruct newOccupation as [|c0 rest]; cbn [negb andb String.eqb].
    + unfold isPreset. rewrite Hempty. reflexivity.
    + destruct (isPreset OCCUPATIONS (String c0 rest)); reflexivity.
Qed.

(** X19.  The automatic allocation ends, for every sequence of draws,
    and stays within both budgets: the points it leaves in the table of
    the active character are not negative, occupation points lie on
    occupational skills only, and their sums do not exceed EDU×20 and
    INT×10.  Each skill of the character has the total base + points, at
    most 99 wherever a point was given and cut to 99 otherwise.  Points
    of a kind are held back only when every skill that could take them
    stands at 99.  The other characters keep their totals and tables.
    Assumed: the ids of the roster differ from one another, the
    occupational skills are among the skill names of the character (so
    each has an entry), and EDU and INT are not negative. *)
Theorem auto_allocation_stays_within_budgets
    (s : Screen) (act : Character) (isCustomOccupation : bool) (g : Rng) :
  rng_ok g ->
  find_active s = Some act ->
  NoDup (map id (characters s)) ->
  let occupationalSkills :=
    if isCustomOccupation then customOccupationalSkills act
    else default [] (OCCUPATIONS !! occupation act) in
  occupationalSkills <> [] ->
  (forall k, k ∈ occupationalSkills -> k ∈ names act) ->
  0 <= st_EDU (stats act) ->
  0 <= st_INT (stats act) ->
  exists s' g' act' d' table,
    auto s isCustomOccupation g = (Finished s', g')
    /\ find_active s' = Some act'
    /\ act' = with_skills act (skills act')
    /\ allocations s' !! id act = Some table
    /\ derivedData s' = Some d'
    /\ 0 <= spentOccPoints d' <= occupationPoints d'
    /\ 0 <= spentIntPoints d' <= interestPoints d'
    /\ (forall k a, table !! k = Some a ->
          0 <= occ a /\ 0 <= int a /\ (occ a <> 0 -> k ∈ occupationalSkills))
    /\ (forall k, k ∈ names act ->
          exists a, table !! k = Some a
                    /\ skills act' !! k = Some (Z.min 99 (total act a k))
                    /\ (a = mkAlloc 0 0 \/ total act a k <= 99))
    /\ (spentOccPoints d' < occupationPoints d' ->
        forall k, k ∈ occupationalSkills -> skills act' !! k = Some 99)
    /\ (spentIntPoints d' < interestPoints d' ->
        forall k, k ∈ names act -> skills act' !! k = Some 99)
    /\ (forall b, b <> id act -> allocations s' !! b = allocations s !! b)
    /\ (forall j cj, characters s !! j = Some cj -> id cj <> id act ->
          characters s' !! j = Some cj).
Proof.
  intros Hg Hact Hnd occupationalSkills Hne Hsub Hedu Hint.
  unfold handleAutoAllocateAllPoints, derivedData. rewrite Hact.
  fold occupationalSkills.
  destruct occupationalSkills as [|k0 rest] eqn:Hskills; [congruence|].
  rewrite <- Hskills in *. clear Hne.
  cbn [occupationPoints interestPoints].
  assert (Ha : exists a, activeCharacterId s = Some a
                         /\ find_character (characters s) a = Some act).
  { unfold find_active in Hact. destruct (activeCharacterId s) as [a|];
      [exists a; split; [reflexivity|exact Hact]|discriminate]. }
  destruct Ha as (a & Ha & Hfind).
  destruct (RosterProofs.find_character_in _ _ _ Hfind) as [_ Hid].
  destruct (autoAllocate_map_spec (id act) occupationalSkills act
              (st_EDU (stats act) * 20) (st_INT (stats act) * 10)
              Hsub ltac:(lia) ltac:(lia) (characters s) (allocations s) g Hg Hnd
              ltac:(rewrite Hid; exact Hfind))
    as (allocs & occLeft & intLeft & g' & cs' & Hrun & Hf & Hframe & Hall).
  destruct Hall as (HoccL & HintL & Hsum1 & Hsum2 & Hdom & Hentries & Hsat1 & Hsat2).
  unfold bindO, bind. rewrite Hrun. cbv beta iota.
  do 5 eexists. split; [reflexivity|].
  unfold find_active. cbn [characters activeCharacterId allocations].
  rewrite Ha, <- Hid, Hf.
  split; [reflexivity|]. split; [reflexivity|].
  split; [apply lookup_insert_eq|]. split; [reflexivity|].
  cbn [spentOccPoints spentIntPoints occupationPoints interestPoints
       id stats skills with_skills].
  rewrite lookup_insert_eq. simpl default. rewrite Hsum1, Hsum2.
  split; [lia|]. split; [lia|].
  split.
  { intros k al Hk. destruct (Hentries k al Hk) as (H1 & H2 & H3 & _).
    split; [exact H1|]. split; [exact H2|exact H3]. }
  assert (Hskill : forall k, k ∈ names act ->
            exists al, allocs !! k = Some al
                       /\ capped act allocs !! k = Some (Z.min 99 (total act al k))
                       /\ (al = mkAlloc 0 0 \/ total act al k <= 99)).
  { intros k Hk. destruct (Hdom k Hk) as [al Hal]. exists al.
    split; [exact Hal|]. split; [exact (capped_totals_lookup act allocs k al Hk Hal)|].
    destruct (Hentries k al Hal) as (_ & _ & _ & Hcap). exact Hcap. }
  split; [exact Hskill|].
  split.
  { intros Hless k Hk. destruct (Hskill k (Hsub k Hk)) as (al & Hal & Hcap & Hor).
    rewrite Hcap. f_equal.
    assert (H99 : 99 <= total act al k) by (apply (Hsat1 ltac:(lia) k al Hk Hal)).
    lia. }
  split.
  { intros Hless k Hk. destruct (Hskill k Hk) as (al & Hal & Hcap & Hor).
    rewrite Hcap. f_equal.
    assert (H99 : 99 <= total act al k) by (apply (Hsat2 ltac:(lia) k al Hk Hal)).
    lia. }
  split.
  { intros b Hb. apply lookup_insert_ne. congruence. }
  exact Hframe.
Qed.

(** X20.  The automatic allocation reads the entry of the skill it drew
    without a test.  When none of the occupational skills is among the
    skill names of the active character, and there are occupation points
    to give, the first draw meets a name without an entry and the handler
    throws. *)
Theorem auto_allocation_throws_without_entry
    (s : Screen) (act : Character) (isCustomOccupation : bool) (g : Rng) :
  rng_ok g ->
  find_active s = Some act ->
  let occupationalSkills :=
    if isCustomOccupation then customOccupationalSkills act
    else default [] (OCCUPATIONS !! occupation act) in
  occupationalSkills <> [] ->
  (forall k, k ∈ occupationalSkills -> k ∉ names act) ->
  0 < st_EDU (stats act) ->
  fst (auto s isCustomOccupation g) = Thrown.
Proof.
  intros Hg Hact occupationalSkills Hne Hnot Hedu.
  unfold handleAutoAllocateAllPoints, derivedData. rewrite Hact.
  fold occupationalSkills.
  destruct occupationalSkills as [|k0 rest] eqn:Hskills; [congruence|].
  rewrite <- Hskills in *. clear Hne.
  cbn [occupationPoints interestPoints].
  assert (Ha : exists a, activeCharacterId s = Some a
                         /\ find_character (characters s) a = Some act).
  { unfold find_active in Hact. destruct (activeCharacterId s) as [a|];
      [exists a; split; [reflexivity|exact Hact]|discriminate]. }
  destruct Ha as (a & Ha & Hfind).
  destruct (RosterProofs.find_character_in _ _ _ Hfind) as [_ Hid].
  rewrite <- Hid in Hfind.
  assert (Hchar : exists g',
            autoChar act occupationalSkills (st_EDU (stats act) * 20)
              (st_INT (stats act) * 10) g = (Thrown, g')).
  { unfold autoAllocate_char, bindO. unfold bind at 1.
    assert (Hlen : (0 < length occupationalSkills)%nat)
      by (rewrite Hskills; simpl; lia).
    assert (Hfuel : exists fuel,
              enough_steps (st_EDU (stats act) * 20) occupationalSkills = S fuel).
    { unfold enough_steps. destruct (length occupationalSkills); [lia|].
      rewrite Nat.add_succ_r. eexists. reflexivity. }
    destruct Hfuel as (fuel & ->). cbn [allocate_loop].
    assert (Hgo : (st_EDU (stats act) * 20 >? 0)
                  && (0 <? length occupationalSkills)%nat = true).
    { apply andb_true_iff. split; [apply Z.gtb_lt; lia|apply Nat.ltb_lt, Hlen]. }
    rewrite Hgo. unfold bind, Math_random. cbv beta iota.
    destruct (Hg 0%nat) as [H0 H1].
    pose proof (MadnessProofs.floor_draw_range (g 0%nat)
                  (Z.of_nat (length occupationalSkills)) H0 H1 ltac:(lia)) as Hidx.
    set (randomIndex :=
           Math_floor (g 0%nat * inject_Z (Z.of_nat (length occupationalSkills)))) in *.
    assert (Hlt : (Z.to_nat randomIndex < length occupationalSkills)%nat) by lia.
    destruct (occupationalSkills !! Z.to_nat randomIndex) as [randomSkill|] eqn:Hskill.
    2: { eexists. reflexivity. }
    assert (Hin : randomSkill ∈ occupationalSkills)
      by (apply list_elem_of_lookup; exists (Z.to_nat randomIndex); exact Hskill).
    rewrite RosterProofs.zero_allocations_lookup.
    rewrite decide_False by (apply Hnot, Hin). eexists. reflexivity. }
  destruct Hchar as (g' & Hchar).
  assert (Hmap : forall cs al g0,
            find_character cs (id act) = Some act ->
            autoAllocate_char INITIAL_SKILLS DYNAMIC_BASE_SKILLS ALL_SKILLS act
              occupationalSkills (st_EDU (stats act) * 20)
              (st_INT (stats act) * 10) g0 = (Thrown, g') ->
            fst (autoMap (id act) occupationalSkills cs (st_EDU (stats act) * 20)
                   (st_INT (stats act) * 10) al g0) = Thrown).
  { induction cs as [|c cs IH]; intros al g0 Hf Hc; [discriminate|].
    cbn [autoAllocate_map]. unfold find_character in Hf. simpl in Hf.
    destruct (String.eqb (id c) (id act)).
    - injection Hf as ->. unfold bindO, bind. rewrite Hc. reflexivity.
    - unfold bindO, bind. specialize (IH al g0 Hf Hc).
      destruct (autoMap (id act) occupationalSkills cs _ _ al g0) as [[[cs' al']| |] g1];
        simpl in IH; try discriminate IH. reflexivity. }
  specialize (Hmap (characters s) (allocations s) g Hfind Hchar).
  unfold bindO, bind.
  destruct (autoMap (id act) occupationalSkills (characters s) _ _ (allocations s) g)
    as [[[cs' al']| |] g1]; simpl in Hmap; try discriminate Hmap. reflexivity.
Qed.

End WithConstants.

Lemma occupation_choice_sets_custom_mode_witness :
  find_active Sample.roster = Some Sample.investigator
  /\ customOccupationEffect SampleRoster.occupations
       (fst (handleOccupationChange Sample.roster false "CUSTOM"))
       (snd (handleOccupationChange Sample.roster false "CUSTOM")) = true
  /\ customOccupationEffect SampleRoster.occupations
       (fst (handleOccupationChange Sample.roster true "探偵"))
       (snd (handleOccupationChange Sample.roster true "探偵")) = false.
Proof.
  split; [reflexivity|].
  assert (Hne : activeCharacterId Sample.roster <> Some EmptyString)
    by discriminate.
  assert (Hempty : SampleRoster.occupations !! EmptyString = None)
    by (vm_compute; reflexivity).
  destruct (occupation_choice_sets_custom_mode SampleRoster.occupations
              Sample.roster Sample.investigator false "CUSTOM" eq_refl Hne Hempty)
    as (act1 & _ & _ & _ & H1).
  destruct (occupation_choice_sets_custom_mode SampleRoster.occupations
              Sample.roster Sample.investigator true "探偵" eq_refl Hne Hempty)
    as (act2 & _ & _ & _ & H2).
  split; [rewrite H1; reflexivity|rewrite H2; vm_compute; reflexivity].
Defined.

Lemma auto_allocation_stays_within_budgets_witness :
  rng_ok (const_rng (1 # 2))
  /\ find_active Sample.roster = Some Sample.investigator
  /\ NoDup (map id (characters Sample.roster))
  /\ exists s' g',
       handleAutoAllocateAllPoints Sample.initial_skills Sample.dynamic_base_skills
         Sample.all_skills SampleRoster.occupations Sample.roster false
         (const_rng (1 # 2)) = (Finished s', g').
Proof.
  assert (Hg : rng_ok (const_rng (1 # 2))).
  { intros n. split; unfold const_rng; [discriminate|reflexivity]. }
  assert (Hnd : NoDup (map id (characters Sample.roster))).
  { simpl. apply NoDup_singleton. }
  split; [exact Hg|]. split; [reflexivity|]. split; [exact Hnd|].
  assert (Hne : default [] (SampleRoster.occupations !! occupation Sample.investigator)
                <> []) by (vm_compute; discriminate).
  assert (Hsub : forall k,
            k ∈ default [] (SampleRoster.occupations !! occupation Sample.investigator) ->
            k ∈ allSkillNames Sample.all_skills Sample.investigator).
  { intros k Hk. apply list_elem_of_In. apply list_elem_of_In in Hk.
    vm_compute in Hk. vm_compute. tauto. }
  assert (Hedu : 0 <= st_EDU (stats Sample.investigator)) by (simpl; lia).
  assert (Hint : 0 <= st_INT (stats Sample.investigator)) by (simpl; lia).
  destruct (auto_allocation_stays_within_budgets Sample.initial_skills
              Sample.dynamic_base_skills Sample.all_skills SampleRoster.occupations
              Sample.roster Sample.investigator false (const_rng (1 # 2))
              Hg eq_refl Hnd Hne Hsub Hedu Hint)
    as (s' & g' & act' & d' & table & H & _).
  exists s', g'. exact H.
Defined.

Lemma auto_allocation_throws_without_entry_witness :
  rng_ok (const_rng (1 # 2))
  /\ find_active SampleRoster.renamed_screen = Some SampleRoster.renamed_archivist
  /\ fst (handleAutoAllocateAllPoints Sample.initial_skills
            Sample.dynamic_base_skills Sample.all_skills SampleRoster.occupations
            SampleRoster.renamed_screen true (const_rng (1 # 2))) = Thrown.
Proof.
  assert (Hg : rng_ok (const_rng (1 # 2))).
  { intros n. split; unfold const_rng; [discriminate|reflexivity]. }
  assert (Hact : find_active SampleRoster.renamed_screen
                 = Some SampleRoster.renamed_archivist) by reflexivity.
  split; [exact Hg|]. split; [exact Hact|].
  assert (Hne : customOccupationalSkills SampleRoster.renamed_archivist <> [])
    by (vm_compute; discriminate).
  assert (Hnot : forall k,
            k ∈ customOccupationalSkills SampleRoster.renamed_archivist ->
            k ∉ allSkillNames Sample.all_skills SampleRoster.renamed_archivist).
  { intros k Hk Hin. apply list_elem_of_In in Hk. apply list_elem_of_In in Hin.
    vm_compute in Hk. destruct Hk as [<-|[]].
    vm_compute in Hin. repeat (destruct Hin as [Hin|Hin]; [discriminate Hin|]).
    exact Hin. }
  assert (Hedu : 0 < st_EDU (stats SampleRoster.renamed_archivist))
    by (simpl; lia).
  exact (auto_allocation_throws_without_entry Sample.initial_skills
           Sample.dynamic_base_skills Sample.all_skills SampleRoster.occupations
           SampleRoster.renamed_screen SampleRoster.renamed_archivist true
           (const_rng (1 # 2)) Hg Hact Hne Hnot Hedu).
Defined.

(** The sample investigator, every draw at one half: 148 of the 260
    occupation points go to the two occupational skills, which reach 99,
    and 107 of the 130 interest points are given before every skill
    stands at 99. *)
Example auto_allocation_sample :
  match fst (handleAutoAllocateAllPoints Sample.initial_skills
               Sample.dynamic_base_skills Sample.all_skills SampleRoster.occupations
               Sample.roster false (const_rng (1 # 2))) with
  | Finished s' =>
      match derivedData s', find_active s' with
      | Some d, Some c =>
          (spentOccPoints d, spentIntPoints d,
           map (fun k => default 0 (skills c !! k)) Sample.all_skills)
      | _, _ => (0, 0, [])
      end
  | _ => (0, 0, [])
  end = (148, 107, [99; 99; 99; 99]).
Proof. vm_compute. reflexivity. Qed.

End AllocationProofs.

(** * Rounds and the party the narrator sees *)

Module RoundCostProofs.
Import Js GamePlay Observe Turn.

(** One round of madness passed between [s] and [final]. *)
Local Abbreviation ticked s final :=
  (characters final = decrementMadnessDuration (characters s)).

(** Every request sent since [s] carries the party of [s]. *)
Local Abbreviation stale s final :=
  (forall r, r ∈ sent final -> r ∈ sent s \/ party r = characters s).

Lemma stale_same (s final : State) : sent final = sent s -> stale s final.
Proof. intros E r Hr. left. rewrite <- E. exact Hr. Qed.

Lemma stale_one (s final : State) (text : string) (rr : option RollResult) :
  sent final = sent s ++ [mkRequest text (characters s) rr] -> stale s final.
Proof.
  intros E r Hr. rewrite E in Hr. apply elem_of_app in Hr.
  destruct Hr as [Hr|Hr]; [left; exact Hr|right].
  apply list_elem_of_singleton in Hr. subst r. reflexivity.
Qed.

(** X21.  A skill check, an attribute check, an accepted push-roll and
    a generic dice roll each let exactly one round of madness pass,
    whatever the dialog returns; declining a push-roll lets none pass.
    Every request these handlers send carries the party as it was when
    the handler was called, before that round. *)
Theorem each_check_costs_one_round (s : State) (v : Z) :
  (forall skill cid t,
     handleSkillCheck s skill cid = Some t ->
     exists final ns,
       answer t [v] = Some (final, ns) /\ ticked s final /\ stale s final)
  /\ (forall stat multiplier reason cid t,
        handleStatCheck s stat multiplier reason cid = Some t ->
        exists final ns,
          answer t [v] = Some (final, ns) /\ ticked s final /\ stale s final)
  /\ (forall f t,
        lastFailedSkillCheck s = Some f -> chatSession s = true ->
        handlePushRoll s = Some t ->
        exists final ns,
          answer t [v] = Some (final, ns) /\ ticked s final /\ stale s final)
  /\ (forall roll reason,
        exists final ns,
          answer (handleGenericDiceRoll s roll reason) [v] = Some (final, ns)
          /\ ticked s final /\ stale s final)
  /\ (forall s',
        handleDeclinePushRoll s = Some s' ->
        characters s' = characters s /\ stale s s').
Proof.
  split; [|split; [|split; [|split]]].
  - intros skill cid t H. unfold handleSkillCheck in H.
    destruct (find_character (characters s) cid) as [c|]; [|discriminate].
    injection H as <-. cbn [answer]. do 2 eexists. split; [reflexivity|].
    unfold skillCheck_onComplete.
    destruct (isSuccess _); [destruct (chatSession s)|].
    + split; [reflexivity|]. eapply stale_one. reflexivity.
    + split; [reflexivity|]. apply stale_same. reflexivity.
    + split; [reflexivity|]. apply stale_same. reflexivity.
  - intros stat multiplier reason cid t H. unfold handleStatCheck in H.
    destruct (find_character (characters s) cid) as [c|]; [|discriminate].
    injection H as <-. cbn [answer]. do 2 eexists. split; [reflexivity|].
    unfold statCheck_onComplete.
    destruct (isSuccess _); [destruct (chatSession s)|].
    + split; [reflexivity|]. eapply stale_one. reflexivity.
    + split; [reflexivity|]. apply stale_same. reflexivity.
    + split; [reflexivity|]. apply stale_same. reflexivity.
  - intros f t Hf Hc H. unfold handlePushRoll in H. rewrite Hf, Hc in H.
    cbn [negb] in H.
    destruct (find_character (characters s) (fc_characterId f)) as [c|];
      [|discriminate].
    injection H as <-. cbn [answer]. do 2 eexists. split; [reflexivity|].
    unfold pushRoll_onComplete.
    split; [reflexivity|]. eapply stale_one. reflexivity.
  - intros roll reason. unfold handleGenericDiceRoll. cbn [answer].
    do 2 eexists. split; [reflexivity|]. unfold handleSystemAction.
    destruct (chatSession s).
    + split; [reflexivity|]. eapply stale_one. reflexivity.
    + split; [reflexivity|]. apply stale_same. reflexivity.
  - intros s' H. unfold handleDeclinePushRoll in H.
    destruct (lastFailedSkillCheck s) as [f|].
    2: { injection H as <-. split; [reflexivity|]. apply stale_same. reflexivity. }
    destruct (chatSession s); cbn [negb] in H.
    2: { injection H as <-. split; [reflexivity|]. apply stale_same. reflexivity. }
    destruct (find_character (characters s) (fc_characterId f)) as [c|];
      [|discriminate].
    injection H as <-. split; [reflexivity|]. eapply stale_one. reflexivity.
Qed.

(** A successful check of the second sample investigator, in temporary
    madness for 3 more rounds: 2 rounds are left on the screen, and the
    party sent to the narrator still shows 3. *)
Example narrator_is_one_round_behind :
  match handleSkillCheck Sample.table "回避" "c2" with
  | Some t =>
      match answer t [20] with
      | Some (final, _) =>
          (map (fun c => match madness c with
                         | Some m => duration m
                         | None => None
                         end) (characters final),
           map (fun r => map (fun c => match madness c with
                                       | Some m => duration m
                                       | None => None
                                       end) (party r)) (sent final))
      | None => ([], [])
      end
  | None => ([], [])
  end = ([None; Some 2], [[None; Some 3]]).
Proof. vm_compute. reflexivity. Qed.

End RoundCostProofs.
